(** * Demand-paged virtual memory: memory manager and address translator

    A shallow embedding of [mmanage.c] (the fault handler, the frame
    allocator and the three replacement policies), of [vmaccess.c] (the
    address translator with [vmem_read] and [vmem_write]) and of the two
    page transfer functions of [pagefile.c].

    The two processes are modelled as one state machine: the signal sent by
    the translator runs the handler of the manager to its end, which is how
    the handshake over the named semaphore serialises them. *)

From Stdlib Require Import ZArith Lia Bool.
From stdpp Require Import base tactics option list.

Local Open Scope Z_scope.

(** ** Constants of [vmem.h] and [limits.h] *)

(** The header [vmem.h] is not part of the sources: its macros are taken as
    parameters of the development. *)
Class vmem_h : Type := {
  VMEM_PAGESIZE : Z;
  VMEM_NPAGES : Z;
  VMEM_NFRAMES : Z;
  VOID_IDX : Z;
  PTF_DIRTY : Z;
  PTF_REF : Z;
  UPDATE_AGE_COUNT : Z;
}.

(** What the code relies on: the page size is a power of two (the translator
    masks with [VMEM_PAGESIZE - 1]), the flags are two different bits, the
    sentinel is no index, there are no more frames than pages, and the frame
    data fit the bound 128 written out in [vmaccess.c]. *)
Class vmem_h_ok (h : vmem_h) : Prop := {
  pagesize_pow2 : exists k, 0 <= k /\ VMEM_PAGESIZE = 2 ^ k;
  npages_pos : 0 < VMEM_NPAGES;
  nframes_pos : 0 < VMEM_NFRAMES;
  nframes_le_npages : VMEM_NFRAMES <= VMEM_NPAGES;
  void_idx_neg : VOID_IDX < 0;
  ptf_dirty_bit : exists d, 0 <= d /\ PTF_DIRTY = 2 ^ d;
  ptf_ref_bit : exists r, 0 <= r /\ PTF_REF = 2 ^ r;
  ptf_distinct : PTF_DIRTY <> PTF_REF;
  update_age_count_pos : 0 < UPDATE_AGE_COUNT;
  physmem_bound : VMEM_NFRAMES * VMEM_PAGESIZE <= 128;
}.

(** [limits.h], with a signed 8-bit [char]. *)
Definition CHAR_MAX : Z := 127.
Definition UCHAR_MAX : Z := 255.

(** Conversion of an [int] to [unsigned char], and the wrap-around of an
    [int] counter. *)
Definition to_uchar (z : Z) : Z := z mod 256.
Definition wrap_int (z : Z) : Z := (z + 2 ^ 31) mod 2 ^ 32 - 2 ^ 31.

(** The replacement algorithms selectable at start-up. *)
Inductive page_rep_algo_t : Type :=
| VMEM_ALGO_FIFO
| VMEM_ALGO_CLOCK
| VMEM_ALGO_AGING.

(** ** Data model *)

(** [struct pt_entry]; [age] is an [unsigned char]. *)
Record pt_entry : Type := mk_pt_entry {
  flags : Z;
  frame : Z;
  count : Z;
  age : Z;
}.

Definition set_flags (v : Z) (e : pt_entry) : pt_entry :=
  mk_pt_entry v (frame e) (count e) (age e).
Definition set_frame (v : Z) (e : pt_entry) : pt_entry :=
  mk_pt_entry (flags e) v (count e) (age e).
Definition set_age (v : Z) (e : pt_entry) : pt_entry :=
  mk_pt_entry (flags e) (frame e) (count e) (to_uchar v).

(** [struct vmem_struct], the shared segment: the administrative block, the
    page table with its frame table, and the frame data. *)
Record vmem_struct : Type := mk_vmem {
  adm_size : Z;
  adm_shm_id : Z;
  adm_mmanage_pid : Z;
  req_pageno : Z;
  next_alloc_idx : Z;
  pf_count : Z;
  g_count : Z;
  page_rep_algo : page_rep_algo_t;
  entries : list pt_entry;
  framepage : list Z;
  data : list Z;
}.

(** [struct logevent], the record handed to the logger. *)
Record logevent : Type := mk_logevent {
  ev_req_pageno : Z;
  ev_replaced_page : Z;
  ev_alloc_frame : Z;
  ev_pf_count : Z;
  ev_g_count : Z;
}.

(** What the two processes do to the outside, in the order it happens. The
    release of the semaphore records the shared segment as the woken client
    finds it. *)
Inductive io_event : Type :=
| EvStore (pt_idx : Z) (page : list Z)
| EvFetch (pt_idx : Z)
| EvLog (e : logevent)
| EvKill
| EvPost (shared : vmem_struct)
| EvWait.

(** The whole system: the shared segment, the static variables of the
    manager ([fifo_current], [event]), the page file, the value of the named
    semaphore and the trace of events. *)
Record system : Type := mk_system {
  vmem : vmem_struct;
  fifo_current : Z;
  event : logevent;
  pagefile : list Z;
  sem : Z;
  trace : list io_event;
}.

Definition upd_vmem (f : vmem_struct -> vmem_struct) (s : system) : system :=
  mk_system (f (vmem s)) (fifo_current s) (event s) (pagefile s) (sem s) (trace s).

Definition with_req_pageno (v : Z) (m : vmem_struct) : vmem_struct :=
  mk_vmem (adm_size m) (adm_shm_id m) (adm_mmanage_pid m) v (next_alloc_idx m)
    (pf_count m) (g_count m) (page_rep_algo m) (entries m) (framepage m) (data m).
Definition with_next_alloc_idx (v : Z) (m : vmem_struct) : vmem_struct :=
  mk_vmem (adm_size m) (adm_shm_id m) (adm_mmanage_pid m) (req_pageno m) v
    (pf_count m) (g_count m) (page_rep_algo m) (entries m) (framepage m) (data m).
Definition with_pf_count (v : Z) (m : vmem_struct) : vmem_struct :=
  mk_vmem (adm_size m) (adm_shm_id m) (adm_mmanage_pid m) (req_pageno m)
    (next_alloc_idx m) v (g_count m) (page_rep_algo m) (entries m) (framepage m)
    (data m).
Definition with_g_count (v : Z) (m : vmem_struct) : vmem_struct :=
  mk_vmem (adm_size m) (adm_shm_id m) (adm_mmanage_pid m) (req_pageno m)
    (next_alloc_idx m) (pf_count m) v (page_rep_algo m) (entries m) (framepage m)
    (data m).
Definition with_page_rep_algo (v : page_rep_algo_t) (m : vmem_struct) : vmem_struct :=
  mk_vmem (adm_size m) (adm_shm_id m) (adm_mmanage_pid m) (req_pageno m)
    (next_alloc_idx m) (pf_count m) (g_count m) v (entries m) (framepage m) (data m).
Definition with_entries (v : list pt_entry) (m : vmem_struct) : vmem_struct :=
  mk_vmem (adm_size m) (adm_shm_id m) (adm_mmanage_pid m) (req_pageno m)
    (next_alloc_idx m) (pf_count m) (g_count m) (page_rep_algo m) v (framepage m)
    (data m).
Definition with_framepage (v : list Z) (m : vmem_struct) : vmem_struct :=
  mk_vmem (adm_size m) (adm_shm_id m) (adm_mmanage_pid m) (req_pageno m)
    (next_alloc_idx m) (pf_count m) (g_count m) (page_rep_algo m) (entries m) v
    (data m).
Definition with_data (v : list Z) (m : vmem_struct) : vmem_struct :=
  mk_vmem (adm_size m) (adm_shm_id m) (adm_mmanage_pid m) (req_pageno m)
    (next_alloc_idx m) (pf_count m) (g_count m) (page_rep_algo m) (entries m)
    (framepage m) v.

Definition with_fifo_current (v : Z) (s : system) : system :=
  mk_system (vmem s) v (event s) (pagefile s) (sem s) (trace s).
Definition with_event (v : logevent) (s : system) : system :=
  mk_system (vmem s) (fifo_current s) v (pagefile s) (sem s) (trace s).
Definition with_pagefile (v : list Z) (s : system) : system :=
  mk_system (vmem s) (fifo_current s) (event s) v (sem s) (trace s).
Definition with_sem (v : Z) (s : system) : system :=
  mk_system (vmem s) (fifo_current s) (event s) (pagefile s) v (trace s).
Definition emit (e : io_event) (s : system) : system :=
  mk_system (vmem s) (fifo_current s) (event s) (pagefile s) (sem s) (trace s ++ [e]).

(** ** Arrays indexed by an [int] *)

Definition zlookup {A : Type} (l : list A) (i : Z) : option A :=
  if decide (0 <= i) then l !! Z.to_nat i else None.

Definition zinsert {A : Type} (i : Z) (x : A) (l : list A) : list A :=
  if decide (0 <= i) then <[Z.to_nat i := x]> l else l.

(** [n] consecutive cells from index [i]. *)
Definition zslice {A : Type} (l : list A) (i n : Z) : list A :=
  take (Z.to_nat n) (drop (Z.to_nat i) l).

(** Overwrite the cells from index [i] with [src]. *)
Definition zblit {A : Type} (l : list A) (i : Z) (src : list A) : list A :=
  take (Z.to_nat i) l ++ src ++ drop (Z.to_nat i + length src) l.

(** ** The monad of the model *)

(** A call returns normally, or the process has left through
    [TEST_AND_EXIT], or the client waits for a release that never comes, or an
    array was accessed outside its bounds, or a loop was cut by its fuel. *)
Inductive outcome (A : Type) : Type :=
| Ok (a : A) (s : system)
| Exit (s : system)
| Blocked (s : system)
| Undef
| OutOfFuel.
Arguments Ok {A} a s.
Arguments Exit {A} s.
Arguments Blocked {A} s.
Arguments Undef {A}.
Arguments OutOfFuel {A}.

Definition M (A : Type) : Type := system -> outcome A.

Definition ret {A : Type} (a : A) : M A := fun s => Ok a s.

Definition bind {A B : Type} (m : M A) (k : A -> M B) : M B :=
  fun s =>
    match m s with
    | Ok a s' => k a s'
    | Exit s' => Exit s'
    | Blocked s' => Blocked s'
    | Undef => Undef
    | OutOfFuel => OutOfFuel
    end.

Declare Scope vm_scope.
Delimit Scope vm_scope with vm.
Notation "x <- m ;; k" := (bind m (fun x => k))
  (at level 100, m at next level, k at level 200, right associativity) : vm_scope.
Notation "m ;; k" := (bind m (fun _ => k))
  (at level 100, k at level 200, right associativity) : vm_scope.
Local Open Scope vm_scope.

Definition gets {A : Type} (f : system -> A) : M A := fun s => Ok (f s) s.
Definition modify (f : system -> system) : M unit := fun s => Ok tt (f s).

(** Modelled from the spec: the macro [TEST_AND_EXIT] of [debug.h] is not
    part of the sources; an index outside its bounds is fatal, the process
    reports the error and terminates immediately. *)
Definition TEST_AND_EXIT (cond : bool) : M unit :=
  fun s => if cond then Exit s else Ok tt s.

(** Reads and writes of the shared arrays. *)
Definition rd_entry (i : Z) : M pt_entry :=
  fun s => match zlookup (entries (vmem s)) i with
           | Some e => Ok e s
           | None => Undef
           end.

Definition wr_entry (i : Z) (f : pt_entry -> pt_entry) : M unit :=
  fun s => match zlookup (entries (vmem s)) i with
           | Some e => Ok tt (upd_vmem (with_entries (zinsert i (f e) (entries (vmem s)))) s)
           | None => Undef
           end.

Definition rd_framepage (i : Z) : M Z :=
  fun s => match zlookup (framepage (vmem s)) i with
           | Some p => Ok p s
           | None => Undef
           end.

Definition wr_framepage (i : Z) (p : Z) : M unit :=
  fun s => match zlookup (framepage (vmem s)) i with
           | Some _ => Ok tt (upd_vmem (with_framepage (zinsert i p (framepage (vmem s)))) s)
           | None => Undef
           end.

Definition rd_data (i : Z) : M Z :=
  fun s => match zlookup (data (vmem s)) i with
           | Some v => Ok v s
           | None => Undef
           end.

Definition wr_data (i : Z) (v : Z) : M unit :=
  fun s => match zlookup (data (vmem s)) i with
           | Some _ => Ok tt (upd_vmem (with_data (zinsert i v (data (vmem s)))) s)
           | None => Undef
           end.

Definition set_count (v : Z) (e : pt_entry) : pt_entry :=
  mk_pt_entry (flags e) (frame e) v (age e).

Definition set_ev_req_pageno (v : Z) (e : logevent) : logevent :=
  mk_logevent v (ev_replaced_page e) (ev_alloc_frame e) (ev_pf_count e) (ev_g_count e).
Definition set_ev_replaced_page (v : Z) (e : logevent) : logevent :=
  mk_logevent (ev_req_pageno e) v (ev_alloc_frame e) (ev_pf_count e) (ev_g_count e).
Definition set_ev_alloc_frame (v : Z) (e : logevent) : logevent :=
  mk_logevent (ev_req_pageno e) (ev_replaced_page e) v (ev_pf_count e) (ev_g_count e).
Definition set_ev_pf_count (v : Z) (e : logevent) : logevent :=
  mk_logevent (ev_req_pageno e) (ev_replaced_page e) (ev_alloc_frame e) v (ev_g_count e).
Definition set_ev_g_count (v : Z) (e : logevent) : logevent :=
  mk_logevent (ev_req_pageno e) (ev_replaced_page e) (ev_alloc_frame e) (ev_pf_count e) v.

(** [for (i = start; ...; i++) body], for a loop that runs [n] times without
    leaving early. *)
Fixpoint for_loop (n : nat) (i : Z) (body : Z -> M unit) : M unit :=
  match n with
  | O => ret tt
  | S n' => body i;; for_loop n' (i + 1) body
  end.

(** ** pagefile.c *)

Module pagefile.
Section with_vmem_h.
Context {h : vmem_h}.

(** The page file is kept as a sequence of [int]s, so the byte offset
    [pt_idx * sizeof(int) * VMEM_PAGESIZE] is the cell [pt_idx * VMEM_PAGESIZE].
    [frame_start] is the index in [vmem->data] the pointer argument refers to.
    A short read is the failure of [fread]. *)
Definition fetch_page_from_pagefile (pt_idx : Z) (frame_start : Z) : M unit :=
  TEST_AND_EXIT (pt_idx <? 0);;
  TEST_AND_EXIT (pt_idx >=? VMEM_NPAGES);;
  let offset := pt_idx * VMEM_PAGESIZE in
  page <- gets (fun s => zslice (pagefile s) offset VMEM_PAGESIZE);;
  TEST_AND_EXIT (negb (Z.of_nat (length page) =? VMEM_PAGESIZE));;
  d <- gets (fun s => data (vmem s));;
  if (0 <=? frame_start) && (frame_start + VMEM_PAGESIZE <=? Z.of_nat (length d))
  then modify (fun s => emit (EvFetch pt_idx)
                          (upd_vmem (with_data (zblit d frame_start page)) s))
  else fun _ => Undef.

(** [init_pagefile] writes every page of the file, so a store past its end
    does not occur; it is taken as the failure of [fwrite]. *)
Definition store_page_to_pagefile (pt_idx : Z) (frame_start : Z) : M unit :=
  TEST_AND_EXIT (pt_idx <? 0);;
  TEST_AND_EXIT (pt_idx >=? VMEM_NPAGES);;
  let offset := pt_idx * VMEM_PAGESIZE in
  d <- gets (fun s => data (vmem s));;
  if (0 <=? frame_start) && (frame_start + VMEM_PAGESIZE <=? Z.of_nat (length d))
  then
    let page := zslice d frame_start VMEM_PAGESIZE in
    pf <- gets pagefile;;
    TEST_AND_EXIT (negb (offset + VMEM_PAGESIZE <=? Z.of_nat (length pf)));;
    modify (fun s => emit (EvStore pt_idx page)
                       (with_pagefile (zblit pf offset page) s))
  else fun _ => Undef.

End with_vmem_h.
End pagefile.

(** ** mmanage.c *)

Module mmanage.
Import pagefile.
Section with_vmem_h.
Context {h : vmem_h}.

(** The logger is an external collaborator: it receives the record. *)
Definition logger (e : logevent) : M unit := modify (emit (EvLog e)).

(** [sem_post(local_sem)]. *)
Definition sem_post : M unit :=
  modify (fun s => emit (EvPost (vmem s)) (with_sem (sem s + 1) s)).

(** The shared segment is attached with whatever it holds ([shmget] with
    [IPC_CREAT] also returns a segment that exists already); [shmid] and [pid]
    are the results of [shmget] and [getpid], and [VMEM_VIRTMEMSIZE] is the
    number of cells of all pages. The semaphore is unlinked and created anew
    with the value 0. *)
Definition vmem_init (shmid pid : Z) : M unit :=
  modify (upd_vmem (fun m =>
    mk_vmem (VMEM_NPAGES * VMEM_PAGESIZE) shmid pid 0 0 (pf_count m) (g_count m)
      (page_rep_algo m) (entries m) (framepage m) (data m)));;
  for_loop (Z.to_nat VMEM_NPAGES) 0 (fun i =>
    wr_entry i (set_age 0x80);;
    wr_entry i (set_count 0);;
    wr_entry i (set_flags 0);;
    wr_entry i (set_frame VOID_IDX));;
  for_loop (Z.to_nat VMEM_NFRAMES) 0 (fun i =>
    wr_framepage i VOID_IDX);;
  modify (with_sem 0).

(** The start of [main]: the segment is initialised, FIFO is the default
    and [scan_params] overrides it by the algorithm named on the command
    line, if any. *)
Definition main_init (shmid pid : Z) (arg : option page_rep_algo_t) : M unit :=
  vmem_init shmid pid;;
  modify (upd_vmem (with_page_rep_algo VMEM_ALGO_FIFO));;
  match arg with
  | Some a => modify (upd_vmem (with_page_rep_algo a))
  | None => ret tt
  end.

(** The loop of [find_free_frame], leaving at the first free frame. *)
Fixpoint find_free_frame_loop (n : nat) (i : Z) : M Z :=
  match n with
  | O => ret VOID_IDX
  | S n' =>
      p <- rd_framepage i;;
      if p =? VOID_IDX then
        modify (fun s => with_event (set_ev_replaced_page VOID_IDX (event s)) s);;
        ret i
      else find_free_frame_loop n' (i + 1)
  end.

Definition find_free_frame : M Z :=
  find_free_frame_loop (Z.to_nat VMEM_NFRAMES) 0.

Definition fetch_page (pt_idx : Z) : M unit :=
  req <- gets (fun s => req_pageno (vmem s));;
  e <- rd_entry req;;
  fetch_page_from_pagefile pt_idx (frame e * VMEM_PAGESIZE).

Definition store_page (pt_idx : Z) : M unit :=
  nxt <- gets (fun s => next_alloc_idx (vmem s));;
  store_page_to_pagefile pt_idx (nxt * VMEM_PAGESIZE).

(** The cursor of FIFO and CLOCK: [fifo_current == (VMEM_NFRAMES-1) ? 0 :
    fifo_current + 1]. *)
Definition advance (cur : Z) : Z :=
  if cur =? VMEM_NFRAMES - 1 then 0 else cur + 1.

Definition find_remove_fifo : M Z :=
  cur <- gets fifo_current;;
  modify (with_fifo_current (advance cur));;
  cur <- gets fifo_current;;
  modify (upd_vmem (with_next_alloc_idx cur));;
  TEST_AND_EXIT (cur <? 0);;
  TEST_AND_EXIT (cur >=? VMEM_NPAGES);;
  element <- rd_framepage cur;;
  modify (fun s => with_event (set_ev_replaced_page element (event s)) s);;
  e <- rd_entry element;;
  let d := Z.land (flags e) PTF_DIRTY in
  (if d =? PTF_DIRTY then store_page element else ret tt);;
  wr_entry element (set_frame VOID_IDX);;
  gets fifo_current.

(** The scan of [find_remove_aging]; [age] is the local variable. *)
Fixpoint find_remove_aging_loop (n : nat) (i : Z) (age0 : Z) : M unit :=
  match n with
  | O => ret tt
  | S n' =>
      page_number <- rd_framepage i;;
      e <- rd_entry page_number;;
      if age e <=? age0 then
        modify (upd_vmem (with_next_alloc_idx i));;
        find_remove_aging_loop n' (i + 1) (age e)
      else find_remove_aging_loop n' (i + 1) age0
  end.

Definition find_remove_aging : M Z :=
  modify (upd_vmem (with_next_alloc_idx VOID_IDX));;
  find_remove_aging_loop (Z.to_nat VMEM_NFRAMES) 0 UCHAR_MAX;;
  nxt <- gets (fun s => next_alloc_idx (vmem s));;
  (if nxt =? VOID_IDX then modify (upd_vmem (with_next_alloc_idx 0)) else ret tt);;
  nxt <- gets (fun s => next_alloc_idx (vmem s));;
  element <- rd_framepage nxt;;
  modify (fun s => with_event (set_ev_replaced_page element (event s)) s);;
  e <- rd_entry element;;
  let d := Z.land (flags e) PTF_DIRTY in
  (if d =? PTF_DIRTY then store_page element else ret tt);;
  wr_entry element (set_frame VOID_IDX);;
  wr_entry element (set_age 0x80);;
  gets (fun s => next_alloc_idx (vmem s)).

(** The loop [for(;;)] of [find_remove_clock], with fuel. *)
Fixpoint find_remove_clock_loop (fuel : nat) : M Z :=
  match fuel with
  | O => fun _ => OutOfFuel
  | S fuel' =>
      cur <- gets fifo_current;;
      modify (with_fifo_current (advance cur));;
      cur <- gets fifo_current;;
      modify (upd_vmem (with_next_alloc_idx cur));;
      element <- rd_framepage cur;;
      e <- rd_entry element;;
      let r := Z.land (flags e) PTF_REF in
      if r =? PTF_REF then
        wr_entry element (fun e => set_flags (Z.lxor (flags e) PTF_REF) e);;
        find_remove_clock_loop fuel'
      else
        modify (fun s => with_event (set_ev_replaced_page element (event s)) s);;
        let d := Z.land (flags e) PTF_DIRTY in
        (if d =? PTF_DIRTY then store_page element else ret tt);;
        wr_entry element (set_frame VOID_IDX);;
        gets fifo_current
  end.

(** Every turn that does not leave the loop clears one REFERENCED bit, so
    one turn more than there are page table entries is enough fuel: the loop
    is never cut ([find_remove_clock_fuel]). *)
Definition find_remove_clock : M Z :=
  n <- gets (fun s => length (entries (vmem s)));;
  find_remove_clock_loop (S n).

Definition find_remove_frame : M Z :=
  algo <- gets (fun s => page_rep_algo (vmem s));;
  match algo with
  | VMEM_ALGO_FIFO => find_remove_fifo
  | VMEM_ALGO_CLOCK => find_remove_clock
  | VMEM_ALGO_AGING => find_remove_aging
  end.

Definition allocate_page : M unit :=
  idx <- find_free_frame;;
  modify (upd_vmem (fun m => with_pf_count (wrap_int (pf_count m + 1)) m));;
  idx <- (if idx =? VOID_IDX then
            idx <- find_remove_frame;;
            TEST_AND_EXIT (idx <? 0);;
            TEST_AND_EXIT (idx >=? VMEM_NFRAMES);;
            req <- gets (fun s => req_pageno (vmem s));;
            wr_entry req (set_frame idx);;
            req <- gets (fun s => req_pageno (vmem s));;
            fetch_page req;;
            ret idx
          else ret idx);;
  req <- gets (fun s => req_pageno (vmem s));;
  wr_framepage idx req;;
  modify (fun s => with_event (set_ev_req_pageno (req_pageno (vmem s)) (event s)) s);;
  modify (fun s => with_event (set_ev_alloc_frame idx (event s)) s);;
  modify (fun s => with_event (set_ev_pf_count (pf_count (vmem s)) (event s)) s);;
  modify (fun s => with_event (set_ev_g_count (g_count (vmem s)) (event s)) s);;
  ev <- gets event;;
  logger ev;;
  p <- rd_framepage idx;;
  TEST_AND_EXIT (p <? 0);;
  p <- rd_framepage idx;;
  TEST_AND_EXIT (p >=? VMEM_NPAGES);;
  req <- gets (fun s => req_pageno (vmem s));;
  wr_entry req (set_frame idx);;
  sem_post.

End with_vmem_h.
End mmanage.

(** ** vmaccess.c *)

Module vmaccess.
Section with_vmem_h.
Context {h : vmem_h}.

(** The client attaches to the segment the manager has created and opens
    the semaphore: it sees the same [vmem] and the same [sem]. *)
Definition vmem_init : M unit := ret tt.

(** [kill(vmem->adm.mmanage_pid, SIGUSR1)]: the handler of the manager runs
    [allocate_page] to its end. When the manager leaves through
    [TEST_AND_EXIT] nobody releases the semaphore any more and the client
    waits for ever. *)
Definition kill_SIGUSR1 : M unit :=
  fun s =>
    match mmanage.allocate_page (emit EvKill s) with
    | Ok _ s' => Ok tt s'
    | Exit s' => Blocked s'
    | Blocked s' => Blocked s'
    | Undef => Undef
    | OutOfFuel => OutOfFuel
    end.

(** [sem_wait(local_sem)]. *)
Definition sem_wait : M unit :=
  fun s => if 0 <? sem s then Ok tt (emit EvWait (with_sem (sem s - 1) s))
           else Blocked s.

Definition update_age_reset_ref : M unit :=
  g <- gets (fun s => g_count (vmem s));;
  if Z.rem g UPDATE_AGE_COUNT =? 0 then
    for_loop (Z.to_nat VMEM_NFRAMES) 0 (fun i =>
      page_number <- rd_framepage i;;
      if negb (page_number =? VOID_IDX) then
        e <- rd_entry page_number;;
        let r := Z.land (flags e) PTF_REF in
        wr_entry page_number (fun e => set_age (Z.quot (age e) 2) e);;
        if r =? PTF_REF then
          wr_entry page_number (fun e => set_age (Z.lor (age e) (Z.lnot CHAR_MAX)) e);;
          wr_entry page_number (fun e => set_flags (Z.lxor (flags e) PTF_REF) e)
        else ret tt
      else ret tt)
  else ret tt.

(** The two masks of the translator. *)
Definition offset_of (address : Z) : Z :=
  Z.land address (VMEM_PAGESIZE - 1).
Definition page_index_of (address : Z) : Z :=
  Z.quot (Z.land address (Z.lnot (VMEM_PAGESIZE - 1))) VMEM_PAGESIZE.

(** The value of [frame] when it is compared with [VOID_IDX]: a value read
    outside the page table is indeterminate, and the model stops there. *)
Definition use_frame (frame : option Z) : M Z :=
  fun s => match frame with
           | Some f => Ok f s
           | None => Undef
           end.

(** [vmem_read] loads [entries[page_index].frame] and stores the requested
    page number before it tests the page index. The load is taken to
    succeed, with a value that is not looked at before the tests: that is
    what happens for an index just outside the table, such as -1 or
    [VMEM_NPAGES], whose entry still lies in the shared segment. For an
    index far outside, the load itself ends the process, before anything
    is stored; the model does not tell the two apart. *)
Definition vmem_read (address : Z) : M Z :=
  vmem_init;;
  let offset := offset_of address in
  let page_index := page_index_of address in
  frame' <- gets (fun s => frame <$> zlookup (entries (vmem s)) page_index);;
  modify (upd_vmem (with_req_pageno page_index));;
  TEST_AND_EXIT (page_index <? 0);;
  TEST_AND_EXIT (page_index >=? VMEM_NPAGES);;
  wr_entry page_index (fun e => set_flags (Z.lor PTF_REF (flags e)) e);;
  frame' <- use_frame frame';;
  (if frame' =? VOID_IDX then kill_SIGUSR1;; sem_wait else ret tt);;
  e <- rd_entry page_index;;
  let page := Z.lor (frame e * VMEM_PAGESIZE) offset in
  holder <- rd_data page;;
  TEST_AND_EXIT (page <? 0);;
  TEST_AND_EXIT (page >=? 128);;
  modify (upd_vmem (fun m => with_g_count (wrap_int (g_count m + 1)) m));;
  algo <- gets (fun s => page_rep_algo (vmem s));;
  match algo with
  | VMEM_ALGO_AGING => update_age_reset_ref
  | _ => ret tt
  end;;
  ret holder.

Definition vmem_write (address : Z) (v : Z) : M unit :=
  vmem_init;;
  let offset := offset_of address in
  let page_index := page_index_of address in
  TEST_AND_EXIT (page_index <? 0);;
  TEST_AND_EXIT (page_index >=? VMEM_NPAGES);;
  modify (upd_vmem (with_req_pageno page_index));;
  e <- rd_entry page_index;;
  let frame' := frame e in
  wr_entry page_index
    (fun e => set_flags (Z.lor (Z.lor PTF_DIRTY PTF_REF) (flags e)) e);;
  (if frame' =? VOID_IDX then kill_SIGUSR1;; sem_wait else ret tt);;
  e <- rd_entry page_index;;
  let page := Z.lor (frame e * VMEM_PAGESIZE) offset in
  TEST_AND_EXIT (page <? 0);;
  TEST_AND_EXIT (page >=? 128);;
  wr_data page v;;
  modify (upd_vmem (fun m => with_g_count (wrap_int (g_count m + 1)) m));;
  algo <- gets (fun s => page_rep_algo (vmem s));;
  match algo with
  | VMEM_ALGO_AGING => update_age_reset_ref
  | _ => ret tt
  end.

End with_vmem_h.
End vmaccess.

(** ** A configuration to run the model on *)

(** The sizes [vmaccess.c] and [pagefile.c] speak of (128 cells of frame
    data, 1024 cells of virtual memory), with pages of 8 cells. *)
Definition sample_vmem_h : vmem_h := {|
  VMEM_PAGESIZE := 8;
  VMEM_NPAGES := 128;
  VMEM_NFRAMES := 16;
  VOID_IDX := -1;
  PTF_DIRTY := 2;
  PTF_REF := 4;
  UPDATE_AGE_COUNT := 20;
|}.

(** A segment as [shmat] returns it (here: zero-filled), and a system around
    it before the manager has initialised anything. *)
Definition blank_entry : pt_entry := mk_pt_entry 0 0 0 0.

Definition raw_segment {h : vmem_h} (pf g : Z) : vmem_struct :=
  mk_vmem 0 0 0 0 0 pf g VMEM_ALGO_FIFO
    (replicate (Z.to_nat VMEM_NPAGES) blank_entry)
    (replicate (Z.to_nat VMEM_NFRAMES) 0)
    (replicate (Z.to_nat (VMEM_NFRAMES * VMEM_PAGESIZE)) 0).

(** The page file after [init_pagefile]; the pseudo-random contents are
    replaced by the cell numbers. *)
Definition sample_pagefile {h : vmem_h} : list Z :=
  map Z.of_nat (seq 0 (Z.to_nat (VMEM_NPAGES * VMEM_PAGESIZE))).

(** The static variables of the manager start as in the source:
    [fifo_current = -1], [event = {}]. *)
Definition raw_system {h : vmem_h} (pf g : Z) : system :=
  mk_system (raw_segment pf g) (-1) (mk_logevent 0 0 0 0 0) sample_pagefile 0 [].

(** Run [m] and keep the state, if it returns. *)
Definition exec {A : Type} (m : M A) (s : system) : option system :=
  match m s with
  | Ok _ s' => Some s'
  | _ => None
  end.

Definition booted {h : vmem_h} (arg : option page_rep_algo_t) : option system :=
  exec (mmanage.main_init 7 42 arg) (raw_system 0 0).

(** ** Predicates on states *)

Section predicates.
Context {h : vmem_h}.

(** A flag is set: [(flags & B) == B]. *)
Definition flag_set (f B : Z) : bool := Z.land f B =? B.

(** The arrays have the sizes of their declarations. *)
Definition layout (m : vmem_struct) : Prop :=
  Z.of_nat (length (entries m)) = VMEM_NPAGES /\
  Z.of_nat (length (framepage m)) = VMEM_NFRAMES /\
  Z.of_nat (length (data m)) = VMEM_NFRAMES * VMEM_PAGESIZE.

(** The frame table and the [frame] fields agree: an occupied frame holds a
    page whose entry points back to it, and a resident page sits in the frame
    its entry names. *)
Definition consistent (m : vmem_struct) : Prop :=
  (forall i p, zlookup (framepage m) i = Some p -> p <> VOID_IDX ->
     exists e, zlookup (entries m) p = Some e /\ frame e = i) /\
  (forall q e, zlookup (entries m) q = Some e -> frame e <> VOID_IDX ->
     zlookup (framepage m) (frame e) = Some q).

Definition ages_uchar (m : vmem_struct) : Prop :=
  forall p e, zlookup (entries m) p = Some e -> 0 <= age e < 256.

(** The invariant of the running system, between two accesses. *)
Record wf_system (s : system) : Prop := mk_wf {
  wf_layout : layout (vmem s);
  wf_consistent : consistent (vmem s);
  wf_ages : ages_uchar (vmem s);
  wf_cursor : -1 <= fifo_current s < VMEM_NFRAMES;
  wf_pagefile : Z.of_nat (length (pagefile s)) = VMEM_NPAGES * VMEM_PAGESIZE;
  wf_sem : sem s = 0;
}.

(** A fault is pending: the requested page is a page, and not resident. *)
Definition fault_pending (s : system) : Prop :=
  exists e, zlookup (entries (vmem s)) (req_pageno (vmem s)) = Some e /\
            frame e = VOID_IDX.

Definition frame_free (m : vmem_struct) (i : Z) : Prop :=
  zlookup (framepage m) i = Some VOID_IDX.

Definition all_occupied (m : vmem_struct) : Prop :=
  forall i p, zlookup (framepage m) i = Some p -> p <> VOID_IDX.

(** The page in frame [i], its entry, and the cells of the frame. *)
Definition page_in (m : vmem_struct) (i : Z) (p : Z) (e : pt_entry) : Prop :=
  zlookup (framepage m) i = Some p /\ zlookup (entries m) p = Some e.

Definition frame_cells (m : vmem_struct) (i : Z) : list Z :=
  zslice (data m) (i * VMEM_PAGESIZE) VMEM_PAGESIZE.

Definition swap_cells (s : system) (p : Z) : list Z :=
  zslice (pagefile s) (p * VMEM_PAGESIZE) VMEM_PAGESIZE.

(** [m] returns from [s] with a result and a state that satisfy [Q]. *)
Definition returns {A : Type} (m : M A) (s : system) (Q : A -> system -> Prop) : Prop :=
  match m s with
  | Ok a s' => Q a s'
  | _ => False
  end.

(** A sequence of accesses of the client. *)
Inductive access : Type :=
| Read (address : Z)
| Write (address : Z) (v : Z).

Definition do_access (a : access) : M unit :=
  match a with
  | Read address => _ <- vmaccess.vmem_read address;; ret tt
  | Write address v => vmaccess.vmem_write address v
  end.

Fixpoint do_accesses (l : list access) : M unit :=
  match l with
  | [] => ret tt
  | a :: l' => do_access a;; do_accesses l'
  end.

(** The entry [vmem_init] leaves in every cell of the page table. *)
Definition initial_entry : pt_entry := mk_pt_entry 0 VOID_IDX 0 128.

(** What a write-back does to the page file and to the trace. *)
Definition written_back (b : bool) (element idx : Z) (s : system) : system :=
  if b then
    emit (EvStore element (frame_cells (vmem s) idx))
      (with_pagefile (zblit (pagefile s) (element * VMEM_PAGESIZE)
                        (frame_cells (vmem s) idx)) s)
  else s.

(** What every policy does, whichever frame it picks. *)
Definition evicted (s : system) (idx : Z) (s' : system) : Prop :=
  exists victim e,
    0 <= idx < VMEM_NFRAMES /\
    page_in (vmem s) idx victim e /\
    next_alloc_idx (vmem s') = idx /\
    req_pageno (vmem s') = req_pageno (vmem s) /\
    pf_count (vmem s') = pf_count (vmem s) /\
    g_count (vmem s') = g_count (vmem s) /\
    page_rep_algo (vmem s') = page_rep_algo (vmem s) /\
    framepage (vmem s') = framepage (vmem s) /\
    data (vmem s') = data (vmem s) /\
    sem s' = sem s /\
    Z.of_nat (length (entries (vmem s'))) = VMEM_NPAGES /\
    (forall p e0, zlookup (entries (vmem s)) p = Some e0 ->
       exists e1, zlookup (entries (vmem s')) p = Some e1 /\
         frame e1 = (if decide (p = victim) then VOID_IDX else frame e0) /\
         flag_set (flags e1) PTF_DIRTY = flag_set (flags e0) PTF_DIRTY /\
         0 <= age e1 < 256) /\
    -1 <= fifo_current s' < VMEM_NFRAMES /\
    event s' = set_ev_replaced_page victim (event s) /\
    pagefile s' = pagefile (written_back (flag_set (flags e) PTF_DIRTY) victim idx s) /\
    trace s' = trace (written_back (flag_set (flags e) PTF_DIRTY) victim idx s).

(** The age of the page that occupies frame [i]. *)
Definition age_in (m : vmem_struct) (i a : Z) : Prop :=
  exists p e, page_in m i p e /\ age e = a.

(** The [j]-th frame the cursor comes to. *)
Definition visit (s : system) (j : nat) : Z :=
  Nat.iter j mmanage.advance (fifo_current s).

(** An entry whose REFERENCED bit has been taken away. *)
Definition ref_cleared (e : pt_entry) : pt_entry :=
  set_flags (Z.lxor (flags e) PTF_REF) e.

(** The number of entries whose REFERENCED bit is set: the measure of the
    loop of CLOCK. *)
Fixpoint ref_count (l : list pt_entry) : nat :=
  match l with
  | [] => 0
  | e :: l' => (if flag_set (flags e) PTF_REF then 1 else 0) + ref_count l'
  end.

(** A computation that has no loop of its own never runs out of fuel. *)
Definition fuel_free {A : Type} (m : M A) : Prop :=
  forall s, m s <> OutOfFuel.

(** Page [p] sits in one of the first [m] frames the cursor comes to. *)
Definition visited (m : nat) (s : system) (p : Z) : Prop :=
  exists j, (1 <= j <= m)%nat /\ zlookup (framepage (vmem s)) (visit s j) = Some p.

(** The fields the loop of CLOCK writes before it evicts. *)
Definition clock_state (c n : Z) (l : list pt_entry) (s : system) : system :=
  upd_vmem (with_entries l) (upd_vmem (with_next_alloc_idx n) (with_fifo_current c s)).

(** The page table after the cursor has passed [m] referenced frames. *)
Definition skipped (m : nat) (s : system) (l : list pt_entry) : Prop :=
  length l = length (entries (vmem s)) /\
  forall p e, zlookup (entries (vmem s)) p = Some e ->
    exists e1, zlookup l p = Some e1 /\
      (e1 = e \/ e1 = ref_cleared e) /\
      (visited m s p -> e1 = ref_cleared e) /\
      (~ visited m s p -> e1 = e).

(** The state a policy leaves: cursor [c], victim frame [idx], page table
    [L], the victim written back when [b]. *)
Definition evict_state (c idx : Z) (L : list pt_entry) (b : bool) (victim : Z)
    (s : system) : system :=
  upd_vmem (with_entries L)
    (written_back b victim idx
       (with_event (set_ev_replaced_page victim (event s))
          (upd_vmem (with_next_alloc_idx idx) (with_fifo_current c s)))).

(** The end of [allocate_page], from the update of the frame table on. *)
Definition alloc_tail (idx : Z) : M unit :=
  req <- gets (fun s => req_pageno (vmem s));;
  wr_framepage idx req;;
  modify (fun s => with_event (set_ev_req_pageno (req_pageno (vmem s)) (event s)) s);;
  modify (fun s => with_event (set_ev_alloc_frame idx (event s)) s);;
  modify (fun s => with_event (set_ev_pf_count (pf_count (vmem s)) (event s)) s);;
  modify (fun s => with_event (set_ev_g_count (g_count (vmem s)) (event s)) s);;
  ev <- gets event;;
  mmanage.logger ev;;
  p <- rd_framepage idx;;
  TEST_AND_EXIT (p <? 0);;
  p <- rd_framepage idx;;
  TEST_AND_EXIT (p >=? VMEM_NPAGES);;
  req <- gets (fun s => req_pageno (vmem s));;
  wr_entry req (set_frame idx);;
  mmanage.sem_post.

(** The part of [allocate_page] that runs when no frame is free. *)
Definition alloc_evict : M Z :=
  idx <- mmanage.find_remove_frame;;
  TEST_AND_EXIT (idx <? 0);;
  TEST_AND_EXIT (idx >=? VMEM_NFRAMES);;
  req <- gets (fun s => req_pageno (vmem s));;
  wr_entry req (set_frame idx);;
  req <- gets (fun s => req_pageno (vmem s));;
  mmanage.fetch_page req;;
  ret idx.

Definition bump_pf_count (s : system) : system :=
  upd_vmem (fun m => with_pf_count (wrap_int (pf_count m + 1)) m) s.

(** The state the end of [allocate_page] leaves: frame [idx] holds the
    requested page, whose entry [er] names the frame; the record is logged and
    the semaphore released. *)
Definition map_page (idx : Z) (er : pt_entry) (s : system) : system :=
  let req := req_pageno (vmem s) in
  let ev := mk_logevent req (ev_replaced_page (event s)) idx
              (pf_count (vmem s)) (g_count (vmem s)) in
  let v := with_entries (zinsert req (set_frame idx er) (entries (vmem s)))
             (with_framepage (zinsert idx req (framepage (vmem s))) (vmem s)) in
  mk_system v (fifo_current s) ev (pagefile s) (sem s + 1)
    (trace s ++ [EvLog ev; EvPost v]).

(** The requested page read from the page file into frame [idx], after the
    policy has left the state [s1] in which the entry of the page is [e1]. *)
Definition loaded (idx : Z) (e1 : pt_entry) (s1 : system) : system :=
  let req := req_pageno (vmem s1) in
  emit (EvFetch req)
    (upd_vmem (with_data (zblit (data (vmem s1)) (idx * VMEM_PAGESIZE)
                            (swap_cells s1 req)))
       (upd_vmem (with_entries (zinsert req (set_frame idx e1) (entries (vmem s1))))
          s1)).

(** Frame [idx] has been given to the requested page: its entry names the
    frame, the entry of the page the frame held before is marked absent, all
    other entries keep their frame. *)
Definition remapped (m m' : vmem_struct) (idx : Z) : Prop :=
  framepage m' = zinsert idx (req_pageno m) (framepage m) /\
  length (entries m') = length (entries m) /\
  forall p e, zlookup (entries m) p = Some e ->
    exists e', zlookup (entries m') p = Some e' /\
      frame e' = (if decide (p = req_pageno m) then idx
                  else if decide (frame e = idx) then VOID_IDX else frame e) /\
      0 <= age e' < 256.

(** The state of the system when the handler has served the fault pending
    in [s]. *)
Definition served (s s' : system) (idx : Z) : Prop :=
  0 <= idx < VMEM_NFRAMES /\
  remapped (vmem s) (vmem s') idx /\
  layout (vmem s') /\
  -1 <= fifo_current s' < VMEM_NFRAMES /\
  Z.of_nat (length (pagefile s')) = VMEM_NPAGES * VMEM_PAGESIZE /\
  sem s' = sem s + 1 /\
  req_pageno (vmem s') = req_pageno (vmem s) /\
  g_count (vmem s') = g_count (vmem s) /\
  page_rep_algo (vmem s') = page_rep_algo (vmem s) /\
  pf_count (vmem s') = wrap_int (pf_count (vmem s) + 1) /\
  (forall a, ~ (idx * VMEM_PAGESIZE <= a < idx * VMEM_PAGESIZE + VMEM_PAGESIZE) ->
     zlookup (data (vmem s')) a = zlookup (data (vmem s)) a).

(** One turn of the loop of [update_age_reset_ref]. *)
Definition decay_body (i : Z) : M unit :=
  page_number <- rd_framepage i;;
  if negb (page_number =? VOID_IDX) then
    e <- rd_entry page_number;;
    let r := Z.land (flags e) PTF_REF in
    wr_entry page_number (fun e => set_age (Z.quot (age e) 2) e);;
    if r =? PTF_REF then
      wr_entry page_number (fun e => set_age (Z.lor (age e) (Z.lnot CHAR_MAX)) e);;
      wr_entry page_number (fun e => set_flags (Z.lxor (flags e) PTF_REF) e)
    else ret tt
  else ret tt.

(** What the pass does to the entry of a resident page. *)
Definition decayed (e : pt_entry) : pt_entry :=
  let e1 := set_age (Z.quot (age e) 2) e in
  if flag_set (flags e) PTF_REF
  then let e2 := set_age (Z.lor (age e1) (Z.lnot CHAR_MAX)) e1 in
       set_flags (Z.lxor (flags e2) PTF_REF) e2
  else e1.

(** The client has sent the signal and has been woken: the requested page
    sits in frame [idx]. *)
Definition woken (s s' : system) (idx : Z) : Prop :=
  wf_system s' /\
  0 <= idx < VMEM_NFRAMES /\
  remapped (vmem s) (vmem s') idx /\
  req_pageno (vmem s') = req_pageno (vmem s) /\
  g_count (vmem s') = g_count (vmem s) /\
  page_rep_algo (vmem s') = page_rep_algo (vmem s) /\
  (forall a, ~ (idx * VMEM_PAGESIZE <= a < idx * VMEM_PAGESIZE + VMEM_PAGESIZE) ->
     zlookup (data (vmem s')) a = zlookup (data (vmem s)) a).

(** The conditional round trip in [vmem_read] and [vmem_write]: afterwards
    the page is resident, in the frame it was in or in the frame the handler
    has given it. *)
Definition made_resident (s s' : system) (f : Z) : Prop :=
  let p := req_pageno (vmem s) in
  wf_system s' /\
  0 <= f < VMEM_NFRAMES /\
  req_pageno (vmem s') = p /\
  g_count (vmem s') = g_count (vmem s) /\
  page_rep_algo (vmem s') = page_rep_algo (vmem s) /\
  (exists e', zlookup (entries (vmem s')) p = Some e' /\ frame e' = f) /\
  (forall q e, zlookup (entries (vmem s)) q = Some e -> frame e <> VOID_IDX ->
     exists e', zlookup (entries (vmem s')) q = Some e' /\
       (frame e' = frame e \/ frame e' = VOID_IDX) /\
       (frame e' = frame e ->
        forall off, 0 <= off < VMEM_PAGESIZE ->
          zlookup (data (vmem s')) (frame e * VMEM_PAGESIZE + off) =
          zlookup (data (vmem s)) (frame e * VMEM_PAGESIZE + off))).

(** The end of both functions: when AGING is active the decay pass is
    attempted; it leaves the frames and the data alone. *)
Definition aged (s1 s' : system) : Prop :=
  match page_rep_algo (vmem s1) with
  | VMEM_ALGO_AGING => vmaccess.update_age_reset_ref s1 = Ok tt s'
  | _ => s' = s1
  end /\
  wf_system s' /\
  data (vmem s') = data (vmem s1) /\
  forall q e, zlookup (entries (vmem s1)) q = Some e ->
    exists e', zlookup (entries (vmem s')) q = Some e' /\ frame e' = frame e.

(** The state of the system when [vmem_read address] has loaded the value
    [v], before the decay pass: the page is resident in frame [f]; a page that
    was resident before is still in its frame, with the cells it had, or has
    been evicted. *)
Definition read_done (s : system) (address : Z) (s1 : system) (f v : Z) : Prop :=
  wf_system s1 /\
  0 <= f < VMEM_NFRAMES /\
  g_count (vmem s1) = wrap_int (g_count (vmem s) + 1) /\
  page_rep_algo (vmem s1) = page_rep_algo (vmem s) /\
  (exists e1, zlookup (entries (vmem s1)) (address / VMEM_PAGESIZE) = Some e1 /\
              frame e1 = f) /\
  zlookup (data (vmem s1)) (f * VMEM_PAGESIZE + address mod VMEM_PAGESIZE) = Some v /\
  (forall q e, zlookup (entries (vmem s)) q = Some e -> frame e <> VOID_IDX ->
     exists e', zlookup (entries (vmem s1)) q = Some e' /\
       (frame e' = frame e \/ frame e' = VOID_IDX) /\
       (frame e' = frame e ->
        forall off, 0 <= off < VMEM_PAGESIZE ->
          zlookup (data (vmem s1)) (frame e * VMEM_PAGESIZE + off) =
          zlookup (data (vmem s)) (frame e * VMEM_PAGESIZE + off))).

(** The state of the system when [vmem_write address v] has stored [v],
    before the decay pass. No cell of a page that stays in its frame changes,
    except the cell of [address]. *)
Definition write_done (s : system) (address v : Z) (s1 : system) (f : Z) : Prop :=
  wf_system s1 /\
  0 <= f < VMEM_NFRAMES /\
  g_count (vmem s1) = wrap_int (g_count (vmem s) + 1) /\
  page_rep_algo (vmem s1) = page_rep_algo (vmem s) /\
  (exists e1, zlookup (entries (vmem s1)) (address / VMEM_PAGESIZE) = Some e1 /\
              frame e1 = f) /\
  zlookup (data (vmem s1)) (f * VMEM_PAGESIZE + address mod VMEM_PAGESIZE) = Some v /\
  (forall q e, zlookup (entries (vmem s)) q = Some e -> frame e <> VOID_IDX ->
     exists e', zlookup (entries (vmem s1)) q = Some e' /\
       (frame e' = frame e \/ frame e' = VOID_IDX) /\
       (frame e' = frame e ->
        forall off, 0 <= off < VMEM_PAGESIZE ->
          q * VMEM_PAGESIZE + off <> address ->
          zlookup (data (vmem s1)) (frame e * VMEM_PAGESIZE + off) =
          zlookup (data (vmem s)) (frame e * VMEM_PAGESIZE + off))).

Definition writes_to (address : Z) (op : access) : bool :=
  match op with
  | Read _ => false
  | Write b _ => b =? address
  end.

Definition resident (p : Z) (s : system) : bool :=
  match zlookup (entries (vmem s)) p with
  | Some e => negb (frame e =? VOID_IDX)
  | None => false
  end.

(** Run the accesses [ops], as long as each of them returns, none writes to
    [address] and none leaves page [p] evicted. *)
Fixpoint run_keeping (p address : Z) (ops : list access) (s : system) : option system :=
  match ops with
  | [] => Some s
  | op :: ops' =>
      if writes_to address op then None
      else match do_access op s with
           | Ok _ s' => if resident p s' then run_keeping p address ops' s' else None
           | _ => None
           end
  end.

(** The cell of [address] holds [v] and its page is resident. *)
Definition holds (address v : Z) (s : system) : Prop :=
  wf_system s /\
  exists e, zlookup (entries (vmem s)) (address / VMEM_PAGESIZE) = Some e /\
    frame e <> VOID_IDX /\
    zlookup (data (vmem s)) (frame e * VMEM_PAGESIZE + address mod VMEM_PAGESIZE)
    = Some v.

(** *** Notions for the properties of whole accesses *)

(** The cells of the window of [VMEM_PAGESIZE] cells that starts at [i]. *)
Definition window (l : list Z) (i : Z) : list Z := zslice l i VMEM_PAGESIZE.

Definition in_window (i c : Z) : Prop := i <= c < i + VMEM_PAGESIZE.

(** What the handler leaves behind, beyond the new mapping: no DIRTY flag
    has changed, the record of the fault is filled in, and either a free frame
    was taken and neither the frame data nor the page file were touched, or the
    page of frame [idx] was evicted and the requested page read in its place. *)
Definition fault_outcome (s s' : system) (idx : Z) : Prop :=
  let req := req_pageno (vmem s) in
  (forall p e, zlookup (entries (vmem s)) p = Some e ->
     exists e', zlookup (entries (vmem s')) p = Some e' /\
       flag_set (flags e') PTF_DIRTY = flag_set (flags e) PTF_DIRTY) /\
  event s' = mk_logevent req (ev_replaced_page (event s')) idx
               (pf_count (vmem s')) (g_count (vmem s)) /\
  ((frame_free (vmem s) idx /\
    (forall j, 0 <= j < idx -> ~ frame_free (vmem s) j) /\
    ev_replaced_page (event s') = VOID_IDX /\
    data (vmem s') = data (vmem s) /\
    pagefile s' = pagefile s /\
    fifo_current s' = fifo_current s /\
    trace s' = trace s ++ [EvLog (event s'); EvPost (vmem s')]) \/
   (all_occupied (vmem s) /\
    exists victim e,
      page_in (vmem s) idx victim e /\
      ev_replaced_page (event s') = victim /\
      pagefile s' =
        pagefile (written_back (flag_set (flags e) PTF_DIRTY) victim idx s) /\
      data (vmem s') =
        zblit (data (vmem s)) (idx * VMEM_PAGESIZE) (swap_cells s' req) /\
      trace s' =
        trace (written_back (flag_set (flags e) PTF_DIRTY) victim idx s) ++
        [EvFetch req; EvLog (event s'); EvPost (vmem s')])).

(** The translator has noted the page it needs and has set the flags [fl]
    in its entry [e]. *)
Definition touch (fl p : Z) (e : pt_entry) (s : system) : system :=
  upd_vmem (with_entries (zinsert p (set_flags (Z.lor fl (flags e)) e)
                            (entries (vmem s))))
    (upd_vmem (with_req_pageno p) s).

(** The client has passed [sem_wait]. *)
Definition woke (s : system) : system := emit EvWait (with_sem (sem s - 1) s).

(** [vmem->adm.g_count++]. *)
Definition count_access (s : system) : system :=
  upd_vmem (fun m => with_g_count (wrap_int (g_count m + 1)) m) s.

(** The page whose entry was [e] is in a frame: it was there, or the
    client has sent the signal, the handler has served the fault and released
    the semaphore, and the client has been woken. *)
Definition page_ready (e : pt_entry) (s0 s2 : system) : Prop :=
  if decide (frame e = VOID_IDX)
  then exists s' idx,
         mmanage.allocate_page (emit EvKill s0) = Ok tt s' /\
         served (emit EvKill s0) s' idx /\
         fault_outcome (emit EvKill s0) s' idx /\
         s2 = woke s'
  else s2 = s0.

(** The address of an access, the flags it sets in the entry of its page,
    and what it does once the page is in its frame. *)
Definition address_of (op : access) : Z :=
  match op with
  | Read a => a
  | Write a _ => a
  end.

Definition flags_of (op : access) : Z :=
  match op with
  | Read _ => PTF_REF
  | Write _ _ => Z.lor PTF_DIRTY PTF_REF
  end.

Definition landed (op : access) (f : Z) (s : system) : system :=
  match op with
  | Read _ => count_access s
  | Write a v =>
      count_access
        (upd_vmem (with_data (zinsert (f * VMEM_PAGESIZE + a mod VMEM_PAGESIZE) v
                                (data (vmem s)))) s)
  end.

Definition in_range (address : Z) : Prop :=
  0 <= address < VMEM_NPAGES * VMEM_PAGESIZE.

(** The virtual memory holds [v] at [address]: the page is marked DIRTY, and
    the value is in the cell of the frame when the page is resident and in the
    page file when it is not; all frames are occupied then, so that the
    page will be read back from the file. *)
Definition stored (address v : Z) (s : system) : Prop :=
  wf_system s /\
  exists e, zlookup (entries (vmem s)) (address / VMEM_PAGESIZE) = Some e /\
    flag_set (flags e) PTF_DIRTY = true /\
    if decide (frame e = VOID_IDX)
    then all_occupied (vmem s) /\ zlookup (pagefile s) address = Some v
    else zlookup (data (vmem s))
           (frame e * VMEM_PAGESIZE + address mod VMEM_PAGESIZE) = Some v.

(** The access marks page [q] as modified. *)
Definition dirties (op : access) (q : Z) : bool :=
  match op with
  | Read _ => false
  | Write a _ => a / VMEM_PAGESIZE =? q
  end.

(** Nothing of what the manager owns or does has changed. *)
Definition manager_idle (s s' : system) : Prop :=
  trace s' = trace s /\ pagefile s' = pagefile s /\
  framepage (vmem s') = framepage (vmem s) /\
  pf_count (vmem s') = pf_count (vmem s) /\
  fifo_current s' = fifo_current s /\ event s' = event s /\ sem s' = sem s.

(** The events the handler of the manager produces before it releases the
    semaphore. *)
Definition manager_event (ev : io_event) : Prop :=
  match ev with
  | EvStore _ _ | EvFetch _ | EvLog _ => True
  | _ => False
  end.

(** The first [k] frames are occupied and the others are free. *)
Definition filled (k : Z) (m : vmem_struct) : Prop :=
  forall i, 0 <= i < VMEM_NFRAMES ->
    (i < k -> exists p, zlookup (framepage m) i = Some p /\ p <> VOID_IDX) /\
    (k <= i -> frame_free m i).

End predicates.

(** ** States of the sample configuration *)

Definition start_state (arg : option page_rep_algo_t) : system :=
  default (@raw_system sample_vmem_h 0 0) (@booted sample_vmem_h arg).

(** The state [ops] lead to, when they all return. *)
Definition run (ops : list access) (s : system) : system :=
  match @do_accesses sample_vmem_h ops s with
  | Ok _ s' => s'
  | _ => s
  end.

(** One read in each of the first [n] pages. *)
Definition first_pages (n : nat) : list access :=
  map (fun k => Read (Z.of_nat k * 8)) (seq 0 n).

(** All sixteen frames are occupied, by the pages 0 to 15. *)
Definition full_state (algo : page_rep_algo_t) : system :=
  run (first_pages 16) (start_state (Some algo)).

(** The age of the page in frame [i]. *)
Definition age_of_frame {h : vmem_h} (m : vmem_struct) (i : Z) : option Z :=
  match zlookup (framepage m) i with
  | Some p => age <$> zlookup (entries m) p
  | None => None
  end.

Definition all_occupiedb {h : vmem_h} (m : vmem_struct) : bool :=
  forallb (fun p => negb (p =? VOID_IDX)) (framepage m).

(** A fault for page 16 is pending while all frames are occupied. *)
Definition pending_16 (algo : page_rep_algo_t) : system :=
  upd_vmem (with_req_pageno 16) (full_state algo).

(** CLOCK has just served the fault for page 16: the cursor stands on frame
    0 and the pages of all other frames have lost their REFERENCED bit. *)
Definition second_lap : system :=
  run (first_pages 17) (start_state (Some VMEM_ALGO_CLOCK)).

(** After that, page 1 has been read again: the frame after the cursor
    holds a referenced page and the frame after that one does not. *)
Definition second_chance_due : system := run [Read 8] second_lap.

(** The access counter has reached a multiple of [UPDATE_AGE_COUNT]. *)
Definition decay_due : system :=
  upd_vmem (fun m => with_g_count 20 m) (full_state VMEM_ALGO_AGING).

(** Page 0 has been read once: it sits in frame 0, and the request for it
    is still noted. *)
Definition one_page : system := run [Read 0] (start_state None).

(** AGING: twenty accesses have triggered the decay pass, then page 1 was
    read again, and the access counter has come to the next multiple of
    [UPDATE_AGE_COUNT]. *)
Definition after_decay : system :=
  upd_vmem (fun m => with_g_count 40 m)
    (run (first_pages 16 ++ replicate 4 (Read 0) ++ [Read 8])
       (start_state (Some VMEM_ALGO_AGING))).

(** One read in each of the pages 2 to 18: seventeen faults, more than there
    are frames. *)
Definition sweep : list access :=
  map (fun k => Read (Z.of_nat k * 8)) (seq 2 17).

(** * Proofs *)

(** ** Arrays *)

Section arrays.
Context {A : Type}.
Implicit Types (l : list A) (i j : Z) (x : A).

Lemma zlookup_Some_range l i x :
  zlookup l i = Some x -> 0 <= i < Z.of_nat (length l).
Proof.
  unfold zlookup. case_decide; [|discriminate].
  intros Hl%lookup_lt_Some. lia.
Qed.

Lemma zlookup_in_range l i :
  0 <= i < Z.of_nat (length l) -> exists x, zlookup l i = Some x.
Proof.
  intros Hi. unfold zlookup. case_decide; [|lia].
  destruct (lookup_lt_is_Some_2 l (Z.to_nat i)) as [x Hx]; [lia|]. eauto.
Qed.

Lemma zlookup_None l i :
  zlookup l i = None <-> ~ (0 <= i < Z.of_nat (length l)).
Proof.
  split.
  - intros Hn Hi. destruct (zlookup_in_range l i Hi) as [x Hx]. congruence.
  - intros Hn. destruct (zlookup l i) as [x|] eqn:E; [|done].
    apply zlookup_Some_range in E. lia.
Qed.

Lemma length_zinsert l i x : length (zinsert i x l) = length l.
Proof. unfold zinsert. case_decide; [apply length_insert|done]. Qed.

Lemma zlookup_zinsert_eq l i x :
  0 <= i < Z.of_nat (length l) -> zlookup (zinsert i x l) i = Some x.
Proof.
  intros Hi. unfold zlookup, zinsert. repeat case_decide; try lia.
  apply list_lookup_insert_eq. lia.
Qed.

Lemma zlookup_zinsert_ne l i j x :
  i <> j -> zlookup (zinsert i x l) j = zlookup l j.
Proof.
  intros Hne. unfold zlookup, zinsert. repeat case_decide; try done.
  apply list_lookup_insert_ne. lia.
Qed.

Lemma zinsert_zinsert_eq l i x y : zinsert i y (zinsert i x l) = zinsert i y l.
Proof. unfold zinsert. case_decide; [|done]. apply list_insert_insert_eq. Qed.

Lemma zlookup_zinsert l i j x :
  zlookup (zinsert i x l) j =
  if decide (i = j /\ 0 <= i < Z.of_nat (length l)) then Some x else zlookup l j.
Proof.
  case_decide as Hd.
  - destruct Hd as [-> Hr]. by apply zlookup_zinsert_eq.
  - destruct (decide (i = j)) as [->|Hne]; [|by apply zlookup_zinsert_ne].
    assert (zlookup l j = None) as -> by (apply zlookup_None; tauto).
    apply zlookup_None. rewrite length_zinsert. tauto.
Qed.

Lemma length_zslice l i n :
  0 <= i -> 0 <= n -> i + n <= Z.of_nat (length l) ->
  Z.of_nat (length (zslice l i n)) = n.
Proof.
  intros. unfold zslice. rewrite length_take, length_drop. lia.
Qed.

Lemma length_zblit l i (src : list A) :
  0 <= i -> i + Z.of_nat (length src) <= Z.of_nat (length l) ->
  length (zblit l i src) = length l.
Proof.
  intros. unfold zblit. rewrite !length_app, length_take, length_drop. lia.
Qed.

Lemma zlookup_zblit_out l i (src : list A) j :
  0 <= i -> i + Z.of_nat (length src) <= Z.of_nat (length l) ->
  ~ (i <= j < i + Z.of_nat (length src)) ->
  zlookup (zblit l i src) j = zlookup l j.
Proof.
  intros Hi Hlen Hj. unfold zlookup, zblit. case_decide; [|done].
  destruct (decide (j < i)).
  - rewrite lookup_app_l by (rewrite length_take; lia).
    apply lookup_take_lt. lia.
  - rewrite lookup_app_r by (rewrite length_take; lia).
    rewrite lookup_app_r by (rewrite length_take; lia).
    rewrite lookup_drop, length_take. f_equal. lia.
Qed.

Lemma zlookup_zblit_in l i (src : list A) j :
  0 <= i -> i + Z.of_nat (length src) <= Z.of_nat (length l) ->
  i <= j < i + Z.of_nat (length src) ->
  zlookup (zblit l i src) j = zlookup src (j - i).
Proof.
  intros Hi Hlen Hj. unfold zlookup, zblit. repeat case_decide; try lia.
  rewrite lookup_app_r by (rewrite length_take; lia).
  rewrite lookup_app_l by (rewrite length_take; lia).
  rewrite length_take. f_equal. lia.
Qed.

Lemma zlookup_zslice l i n j :
  0 <= i -> 0 <= j < n ->
  zlookup (zslice l i n) j = zlookup l (i + j).
Proof.
  intros Hi Hj. unfold zlookup, zslice. repeat case_decide; try lia.
  rewrite lookup_take_lt by lia. rewrite lookup_drop. f_equal. lia.
Qed.

Lemma zslice_zblit_same l i (src : list A) n :
  n = Z.of_nat (length src) ->
  0 <= i -> i + n <= Z.of_nat (length l) ->
  zslice (zblit l i src) i n = src.
Proof.
  intros -> Hi Hlen. unfold zslice, zblit.
  rewrite drop_app_length' by (rewrite length_take; lia).
  rewrite Nat2Z.id. by rewrite take_app_length.
Qed.

End arrays.

(** ** Flags and ages *)

Section bits.

Lemma land_pow2 f b :
  0 <= b -> Z.land f (2 ^ b) = if Z.testbit f b then 2 ^ b else 0.
Proof.
  intros Hb. apply Z.bits_inj'. intros n Hn.
  rewrite Z.land_spec, Z.pow2_bits_eqb by done.
  destruct (Z.eqb_spec b n) as [->|Hne].
  - destruct (Z.testbit f n); simpl.
    + by rewrite Z.pow2_bits_true.
    + by rewrite Z.bits_0.
  - rewrite andb_false_r. destruct (Z.testbit f b).
    + by rewrite Z.pow2_bits_false.
    + by rewrite Z.bits_0.
Qed.

Lemma flag_set_testbit f b : 0 <= b -> flag_set f (2 ^ b) = Z.testbit f b.
Proof.
  intros Hb. unfold flag_set. rewrite land_pow2 by done.
  assert (0 < 2 ^ b) by (apply Z.pow_pos_nonneg; lia).
  destruct (Z.testbit f b); [apply Z.eqb_refl|].
  apply Z.eqb_neq. lia.
Qed.

Lemma pow2_inj a b : 0 <= a -> 0 <= b -> 2 ^ a = 2 ^ b -> a = b.
Proof. intros Ha Hb Hab. apply (Z.pow_inj_r 2); lia. Qed.

Lemma flag_set_lor_same f b : 0 <= b -> flag_set (Z.lor (2 ^ b) f) (2 ^ b) = true.
Proof.
  intros Hb. rewrite flag_set_testbit, Z.lor_spec, Z.pow2_bits_true by done.
  done.
Qed.

Lemma flag_set_lor_other f b d :
  0 <= b -> 0 <= d -> b <> d ->
  flag_set (Z.lor (2 ^ b) f) (2 ^ d) = flag_set f (2 ^ d).
Proof.
  intros Hb Hd Hne.
  rewrite !flag_set_testbit, Z.lor_spec, Z.pow2_bits_false by done.
  done.
Qed.

Lemma flag_set_lxor_same f b :
  0 <= b -> flag_set f (2 ^ b) = true -> flag_set (Z.lxor f (2 ^ b)) (2 ^ b) = false.
Proof.
  intros Hb. rewrite !flag_set_testbit, Z.lxor_spec, Z.pow2_bits_true by done.
  by intros ->.
Qed.

Lemma flag_set_lxor_other f b d :
  0 <= b -> 0 <= d -> b <> d ->
  flag_set (Z.lxor f (2 ^ b)) (2 ^ d) = flag_set f (2 ^ d).
Proof.
  intros Hb Hd Hne.
  rewrite !flag_set_testbit, Z.lxor_spec, Z.pow2_bits_false by done.
  by rewrite xorb_false_r.
Qed.

Lemma geb_false a b : a < b -> (a >=? b) = false.
Proof. intros. rewrite Z.geb_leb. by apply Z.leb_gt. Qed.

Lemma ltb_false a b : b <= a -> (a <? b) = false.
Proof. intros. by apply Z.ltb_ge. Qed.

Lemma cell_inj ps f1 o1 f2 o2 :
  0 <= o1 < ps -> 0 <= o2 < ps -> f1 * ps + o1 = f2 * ps + o2 ->
  f1 = f2 /\ o1 = o2.
Proof.
  intros H1 H2 Heq. apply (Z.div_mod_unique ps); [by left|by left|lia].
Qed.

Lemma to_uchar_range z : 0 <= to_uchar z < 256.
Proof. unfold to_uchar. apply Z.mod_pos_bound. lia. Qed.

Lemma to_uchar_id z : 0 <= z < 256 -> to_uchar z = z.
Proof. unfold to_uchar. intros. by apply Z.mod_small. Qed.

(** [age | ~CHAR_MAX], converted back to [unsigned char], sets the top bit
    of an age that has been halved: checked on the 128 ages there are. *)
Lemma to_uchar_top_bit a :
  0 <= a < 128 -> to_uchar (Z.lor a (Z.lnot CHAR_MAX)) = a + 128.
Proof.
  intros Ha.
  assert (forallb (fun n => to_uchar (Z.lor (Z.of_nat n) (Z.lnot CHAR_MAX))
                            =? Z.of_nat n + 128) (seq 0 128) = true) as Hall
    by (vm_compute; reflexivity).
  rewrite forallb_forall in Hall.
  specialize (Hall (Z.to_nat a)). rewrite Z2Nat.id in Hall by lia.
  apply Z.eqb_eq, Hall, in_seq. lia.
Qed.

Lemma top_bit_lor a : 0 <= a < 128 -> a + 128 = Z.lor a 128.
Proof.
  intros Ha.
  assert (forallb (fun n => Z.of_nat n + 128 =? Z.lor (Z.of_nat n) 128)
            (seq 0 128) = true) as Hall by (vm_compute; reflexivity).
  rewrite forallb_forall in Hall.
  specialize (Hall (Z.to_nat a)). rewrite Z2Nat.id in Hall by lia.
  apply Z.eqb_eq, Hall, in_seq. lia.
Qed.

End bits.

(** ** Rules for [returns] *)

Global Arguments zlookup : simpl never.
Global Arguments zinsert : simpl never.
Global Arguments zslice : simpl never.
Global Arguments zblit : simpl never.
Global Arguments wrap_int : simpl never.
Global Arguments to_uchar : simpl never.

Section rules.
Context {A B : Type}.
Implicit Types (s : system).

Lemma returns_Ok (m : M A) s Q :
  returns m s Q <-> exists a s', m s = Ok a s' /\ Q a s'.
Proof.
  unfold returns. split.
  - destruct (m s); try done. eauto.
  - intros (a & s' & -> & HQ). done.
Qed.

Lemma returns_mono (m : M A) s (Q Q' : A -> system -> Prop) :
  returns m s Q -> (forall a s', Q a s' -> Q' a s') -> returns m s Q'.
Proof. unfold returns. destruct (m s); try done. intros HQ HQQ. by apply HQQ. Qed.

Lemma returns_ret (a : A) s Q : Q a s -> returns (ret a) s Q.
Proof. done. Qed.

Lemma returns_bind (m : M A) (k : A -> M B) s Q :
  returns m s (fun a s' => returns (k a) s' Q) -> returns (bind m k) s Q.
Proof. unfold returns, bind. by destruct (m s). Qed.

Lemma returns_bind_inv (m : M A) (k : A -> M B) s Q :
  returns (bind m k) s Q -> returns m s (fun a s' => returns (k a) s' Q).
Proof. unfold returns, bind. by destruct (m s). Qed.

Lemma returns_bind_assoc {C : Type} (m : M A) (k : A -> M B) (k' : B -> M C) s Q :
  returns (bind (bind m k) k') s Q ->
  returns (bind m (fun a => bind (k a) k')) s Q.
Proof. unfold returns, bind. by destruct (m s). Qed.

Lemma returns_gets (f : system -> A) s Q : Q (f s) s -> returns (gets f) s Q.
Proof. done. Qed.

Lemma returns_conj (m : M A) s (Q Q' : A -> system -> Prop) :
  returns m s Q -> returns m s Q' -> returns m s (fun a s' => Q a s' /\ Q' a s').
Proof. unfold returns. by destruct (m s). Qed.

End rules.

Section rules_unit.
Implicit Types (s : system).

Lemma returns_modify f s (Q : unit -> system -> Prop) :
  Q tt (f s) -> returns (modify f) s Q.
Proof. done. Qed.

Lemma returns_test c s (Q : unit -> system -> Prop) :
  c = false -> Q tt s -> returns (TEST_AND_EXIT c) s Q.
Proof. intros ->. done. Qed.

Lemma returns_rd_entry i e s Q :
  zlookup (entries (vmem s)) i = Some e -> Q e s -> returns (rd_entry i) s Q.
Proof. unfold returns, rd_entry. by intros ->. Qed.

Lemma returns_wr_entry i f e s (Q : unit -> system -> Prop) :
  zlookup (entries (vmem s)) i = Some e ->
  Q tt (upd_vmem (with_entries (zinsert i (f e) (entries (vmem s)))) s) ->
  returns (wr_entry i f) s Q.
Proof. unfold returns, wr_entry. by intros ->. Qed.

Lemma returns_rd_framepage i p s Q :
  zlookup (framepage (vmem s)) i = Some p -> Q p s -> returns (rd_framepage i) s Q.
Proof. unfold returns, rd_framepage. by intros ->. Qed.

Lemma returns_wr_framepage i p p0 s (Q : unit -> system -> Prop) :
  zlookup (framepage (vmem s)) i = Some p0 ->
  Q tt (upd_vmem (with_framepage (zinsert i p (framepage (vmem s)))) s) ->
  returns (wr_framepage i p) s Q.
Proof. unfold returns, wr_framepage. by intros ->. Qed.

Lemma returns_rd_data i v s Q :
  zlookup (data (vmem s)) i = Some v -> Q v s -> returns (rd_data i) s Q.
Proof. unfold returns, rd_data. by intros ->. Qed.

Lemma returns_wr_data i v v0 s (Q : unit -> system -> Prop) :
  zlookup (data (vmem s)) i = Some v0 ->
  Q tt (upd_vmem (with_data (zinsert i v (data (vmem s)))) s) ->
  returns (wr_data i v) s Q.
Proof. unfold returns, wr_data. by intros ->. Qed.

(** A loop that runs [n] times keeps an invariant indexed by the counter. *)
Lemma returns_for_loop (I : Z -> system -> Prop) n i body s (Q : unit -> system -> Prop) :
  I i s ->
  (forall j s0, i <= j < i + Z.of_nat n -> I j s0 ->
     returns (body j) s0 (fun _ s1 => I (j + 1) s1)) ->
  (forall s1, I (i + Z.of_nat n) s1 -> Q tt s1) ->
  returns (for_loop n i body) s Q.
Proof.
  revert i s. induction n as [|n IH]; intros i s HI Hbody HQ.
  - apply returns_ret, HQ. by replace (i + Z.of_nat 0) with i by lia.
  - simpl for_loop. apply returns_bind.
    eapply returns_mono; [apply Hbody; [lia|done]|].
    intros [] s1 HI1. simpl in HI1 |- *. apply (IH (i + 1) s1 HI1).
    + intros j s0 Hj. apply Hbody. lia.
    + intros s2 HI2. apply HQ. by replace (i + Z.of_nat (S n)) with (i + 1 + Z.of_nat n) by lia.
Qed.

End rules_unit.

(** One step of a straight-line computation. *)
Ltac vstep :=
  lazymatch goal with
  | |- returns (bind (gets _) _) _ _ => apply returns_bind
  | |- returns (bind (modify _) _) _ _ => apply returns_bind
  | |- returns (bind (ret _) _) _ _ => apply returns_bind
  | |- returns (bind (TEST_AND_EXIT _) _) _ _ => apply returns_bind
  | |- returns (bind (mmanage.logger _) _) _ _ => apply returns_bind
  | |- returns (bind (rd_entry _) _) _ _ => apply returns_bind
  | |- returns (bind (wr_entry _ _) _) _ _ => apply returns_bind
  | |- returns (bind (rd_framepage _) _) _ _ => apply returns_bind
  | |- returns (bind (wr_framepage _ _) _) _ _ => apply returns_bind
  | |- returns (bind (rd_data _) _) _ _ => apply returns_bind
  | |- returns (bind (wr_data _ _) _) _ _ => apply returns_bind
  | |- returns (ret _) _ _ => apply returns_ret
  | |- returns (gets _) _ _ => apply returns_gets
  | |- returns (modify _) _ _ => apply returns_modify
  | |- returns (mmanage.logger _) _ _ => apply returns_modify
  | |- returns mmanage.sem_post _ _ => apply returns_modify
  | |- returns (TEST_AND_EXIT _) _ _ => apply returns_test
  end.
Ltac vsteps := repeat (vstep; simpl).

(** ** Initialisation of the shared segment *)

Section init.
Context {h : vmem_h}.

(** Four assignments to the fields of one entry. *)
Lemma init_entry_body i l s :
  0 <= i < Z.of_nat (length l) ->
  entries (vmem s) = l ->
  returns (wr_entry i (set_age 128);;
           wr_entry i (set_count 0);;
           wr_entry i (set_flags 0);;
           wr_entry i (set_frame VOID_IDX)) s
    (fun _ s' => s' = upd_vmem (with_entries (zinsert i initial_entry l)) s).
Proof.
  intros Hi Hl.
  destruct (zlookup_in_range l i Hi) as [e He].
  apply returns_bind. eapply returns_wr_entry; [by rewrite Hl|].
  apply returns_bind. eapply returns_wr_entry.
  { simpl. rewrite Hl. by apply zlookup_zinsert_eq. }
  apply returns_bind. eapply returns_wr_entry.
  { simpl. rewrite Hl. apply zlookup_zinsert_eq. by rewrite length_zinsert. }
  eapply returns_wr_entry.
  { simpl. rewrite Hl. apply zlookup_zinsert_eq. by rewrite !length_zinsert. }
  simpl. rewrite Hl. unfold upd_vmem, with_entries. simpl.
  by rewrite !zinsert_zinsert_eq.
Qed.

Lemma vmem_init_spec shmid pid s :
  layout (vmem s) ->
  returns (mmanage.vmem_init shmid pid) s (fun _ s' =>
    layout (vmem s') /\
    (forall p, 0 <= p < VMEM_NPAGES ->
       zlookup (entries (vmem s')) p = Some initial_entry) /\
    (forall i, 0 <= i < VMEM_NFRAMES ->
       zlookup (framepage (vmem s')) i = Some VOID_IDX) /\
    pf_count (vmem s') = pf_count (vmem s) /\
    g_count (vmem s') = g_count (vmem s) /\
    page_rep_algo (vmem s') = page_rep_algo (vmem s) /\
    req_pageno (vmem s') = 0 /\
    next_alloc_idx (vmem s') = 0 /\
    data (vmem s') = data (vmem s) /\
    sem s' = 0 /\
    fifo_current s' = fifo_current s /\
    event s' = event s /\
    pagefile s' = pagefile s /\
    trace s' = trace s).
Proof.
  intros (Hle & Hlf & Hld). unfold mmanage.vmem_init.
  apply returns_bind, returns_modify.
  set (s1 := upd_vmem _ s).
  apply returns_bind.
  apply (returns_for_loop (fun j s0 =>
    exists l, s0 = upd_vmem (with_entries l) s1 /\
              Z.of_nat (length l) = VMEM_NPAGES /\
              forall p, 0 <= p < j -> zlookup l p = Some initial_entry)).
  { exists (entries (vmem s)). repeat split; [done|]. intros p Hp. lia. }
  { intros j s0 Hj (l & -> & Hl & Hinit).
    eapply returns_mono.
    - apply (init_entry_body j l); [lia|done].
    - intros _ s2 ->. exists (zinsert j initial_entry l).
      split; [done|]. split; [by rewrite length_zinsert|].
      intros p Hp. destruct (decide (p = j)) as [->|Hne].
      + apply zlookup_zinsert_eq. lia.
      + rewrite zlookup_zinsert_ne by done. apply Hinit. lia. }
  intros s2 (l & -> & Hl & Hinit). simpl.
  apply returns_bind.
  apply (returns_for_loop (fun j s0 =>
    exists lf, s0 = upd_vmem (with_framepage lf) (upd_vmem (with_entries l) s1) /\
               Z.of_nat (length lf) = VMEM_NFRAMES /\
               forall i, 0 <= i < j -> zlookup lf i = Some VOID_IDX)).
  { exists (framepage (vmem s)). repeat split; [done|]. intros p Hp. lia. }
  { intros j s0 Hj (lf & -> & Hl' & Hinit').
    destruct (zlookup_in_range lf j) as [p0 Hp0]; [lia|].
    eapply returns_wr_framepage; [exact Hp0|].
    exists (zinsert j VOID_IDX lf).
    split; [done|]. split; [by rewrite length_zinsert|].
    intros p Hp. destruct (decide (p = j)) as [->|Hne].
    + apply zlookup_zinsert_eq. lia.
    + rewrite zlookup_zinsert_ne by done. apply Hinit'. lia. }
  intros s3 (lf & -> & Hl' & Hinit'). simpl.
  apply returns_modify. simpl.
  repeat split; try done.
  - intros p Hp. apply Hinit. lia.
  - intros i Hi. apply Hinit'. lia.
Qed.

End init.

(** ** The frame allocator *)

Section allocator.
Context {h : vmem_h} {Hok : vmem_h_ok h}.

Lemma pagesize_pos : 0 < VMEM_PAGESIZE.
Proof.
  destruct pagesize_pow2 as (k & Hk & ->). apply Z.pow_pos_nonneg; lia.
Qed.

Lemma dirty_not_ref_bit :
  exists d r, 0 <= d /\ 0 <= r /\ d <> r /\ PTF_DIRTY = 2 ^ d /\ PTF_REF = 2 ^ r.
Proof.
  destruct ptf_dirty_bit as (d & Hd & Ed), ptf_ref_bit as (r & Hr & Er).
  exists d, r. repeat split; try done.
  intros ->. apply ptf_distinct. congruence.
Qed.

Lemma find_free_frame_loop_spec n i s :
  0 <= i -> i + Z.of_nat n = VMEM_NFRAMES ->
  Z.of_nat (length (framepage (vmem s))) = VMEM_NFRAMES ->
  (forall j, 0 <= j < i -> ~ frame_free (vmem s) j) ->
  returns (mmanage.find_free_frame_loop n i) s (fun idx s' =>
    (idx = VOID_IDX /\ s' = s /\
     forall j, 0 <= j < VMEM_NFRAMES -> ~ frame_free (vmem s) j) \/
    (0 <= idx < VMEM_NFRAMES /\ frame_free (vmem s) idx /\
     (forall j, 0 <= j < idx -> ~ frame_free (vmem s) j) /\
     s' = with_event (set_ev_replaced_page VOID_IDX (event s)) s)).
Proof.
  revert i. induction n as [|n IH]; intros i Hi Hn Hlen Hbefore.
  - apply returns_ret. left. repeat split; try done.
    intros j Hj. apply Hbefore. lia.
  - simpl mmanage.find_free_frame_loop.
    destruct (zlookup_in_range (framepage (vmem s)) i) as [p Hp]; [lia|].
    apply returns_bind. eapply returns_rd_framepage; [exact Hp|].
    destruct (Z.eqb_spec p VOID_IDX) as [->|Hne].
    + vsteps. right. repeat split; try done; lia.
    + apply IH; try lia. intros j Hj.
      destruct (decide (j = i)) as [->|]; [|apply Hbefore; lia].
      unfold frame_free. rewrite Hp. congruence.
Qed.

Lemma find_free_frame_spec s :
  Z.of_nat (length (framepage (vmem s))) = VMEM_NFRAMES ->
  returns mmanage.find_free_frame s (fun idx s' =>
    (idx = VOID_IDX /\ s' = s /\
     forall j, 0 <= j < VMEM_NFRAMES -> ~ frame_free (vmem s) j) \/
    (0 <= idx < VMEM_NFRAMES /\ frame_free (vmem s) idx /\
     (forall j, 0 <= j < idx -> ~ frame_free (vmem s) j) /\
     s' = with_event (set_ev_replaced_page VOID_IDX (event s)) s)).
Proof.
  intros Hlen. apply find_free_frame_loop_spec; try done.
  - pose proof nframes_pos. lia.
  - intros j Hj. lia.
Qed.

Lemma no_free_all_occupied m :
  Z.of_nat (length (framepage m)) = VMEM_NFRAMES ->
  (forall j, 0 <= j < VMEM_NFRAMES -> ~ frame_free m j) <-> all_occupied m.
Proof.
  intros Hlen. unfold all_occupied, frame_free. split.
  - intros Hno i p Hp ->. apply (Hno i); [|done].
    apply zlookup_Some_range in Hp. lia.
  - intros Hall j Hj Hfree. by apply (Hall j VOID_IDX).
Qed.

Lemma length_frame_cells m idx :
  Z.of_nat (length (data m)) = VMEM_NFRAMES * VMEM_PAGESIZE ->
  0 <= idx < VMEM_NFRAMES ->
  Z.of_nat (length (frame_cells m idx)) = VMEM_PAGESIZE.
Proof.
  intros Hd Hi. pose proof pagesize_pos.
  apply length_zslice; nia.
Qed.

Lemma store_page_spec element idx s :
  next_alloc_idx (vmem s) = idx ->
  0 <= idx < VMEM_NFRAMES ->
  0 <= element < VMEM_NPAGES ->
  Z.of_nat (length (data (vmem s))) = VMEM_NFRAMES * VMEM_PAGESIZE ->
  Z.of_nat (length (pagefile s)) = VMEM_NPAGES * VMEM_PAGESIZE ->
  returns (mmanage.store_page element) s (fun _ s' =>
    s' = written_back true element idx s).
Proof.
  intros Hn Hi He Hd Hp. pose proof pagesize_pos.
  unfold mmanage.store_page, pagefile.store_page_to_pagefile.
  vsteps. { apply ltb_false. lia. }
  vsteps. { apply geb_false. lia. }
  vsteps. rewrite Hn.
  replace (0 <=? idx * VMEM_PAGESIZE) with true by (symmetry; apply Z.leb_le; nia).
  replace (idx * VMEM_PAGESIZE + VMEM_PAGESIZE <=? Z.of_nat (length (data (vmem s))))
    with true by (symmetry; apply Z.leb_le; nia).
  simpl. vsteps. { apply negb_false_iff, Z.leb_le. nia. }
  vsteps. done.
Qed.

Lemma fetch_page_spec pt_idx e s :
  zlookup (entries (vmem s)) (req_pageno (vmem s)) = Some e ->
  0 <= frame e < VMEM_NFRAMES ->
  0 <= pt_idx < VMEM_NPAGES ->
  Z.of_nat (length (data (vmem s))) = VMEM_NFRAMES * VMEM_PAGESIZE ->
  Z.of_nat (length (pagefile s)) = VMEM_NPAGES * VMEM_PAGESIZE ->
  returns (mmanage.fetch_page pt_idx) s (fun _ s' =>
    s' = emit (EvFetch pt_idx)
           (upd_vmem (with_data (zblit (data (vmem s)) (frame e * VMEM_PAGESIZE)
                                   (swap_cells s pt_idx))) s)).
Proof.
  intros He Hf Hp Hd Hpf. pose proof pagesize_pos.
  unfold mmanage.fetch_page, pagefile.fetch_page_from_pagefile.
  vsteps. eapply returns_rd_entry; [exact He|].
  vsteps. { apply ltb_false. lia. }
  vsteps. { apply geb_false. lia. }
  vsteps.
  { apply negb_false_iff, Z.eqb_eq. apply length_zslice; nia. }
  vsteps.
  replace (0 <=? frame e * VMEM_PAGESIZE) with true by (symmetry; apply Z.leb_le; nia).
  replace (frame e * VMEM_PAGESIZE + VMEM_PAGESIZE <=? Z.of_nat (length (data (vmem s))))
    with true by (symmetry; apply Z.leb_le; nia).
  simpl. vsteps. done.
Qed.

(** The end of each of the three policies: write the victim back if it is
    dirty, then mark it absent. *)
Lemma evict_tail_spec element e idx s :
  next_alloc_idx (vmem s) = idx ->
  0 <= idx < VMEM_NFRAMES ->
  zlookup (entries (vmem s)) element = Some e ->
  layout (vmem s) ->
  Z.of_nat (length (pagefile s)) = VMEM_NPAGES * VMEM_PAGESIZE ->
  returns ((if Z.land (flags e) PTF_DIRTY =? PTF_DIRTY
            then mmanage.store_page element else ret tt);;
           wr_entry element (set_frame VOID_IDX)) s
    (fun _ s' =>
       s' = upd_vmem (with_entries (zinsert element (set_frame VOID_IDX e)
                                      (entries (vmem s))))
              (written_back (flag_set (flags e) PTF_DIRTY) element idx s)).
Proof.
  intros Hn Hi He (Hle & Hlf & Hld) Hpf.
  pose proof (zlookup_Some_range _ _ _ He) as Hr.
  apply returns_bind. unfold flag_set.
  destruct (Z.land (flags e) PTF_DIRTY =? PTF_DIRTY).
  - eapply returns_mono; [apply (store_page_spec element idx); try done; lia|].
    intros _ s1 ->. simpl.
    eapply returns_wr_entry; [exact He|]. done.
  - apply returns_ret. eapply returns_wr_entry; [exact He|]. done.
Qed.

Lemma occupied_page_in s i :
  wf_system s -> all_occupied (vmem s) -> 0 <= i < VMEM_NFRAMES ->
  exists p e, page_in (vmem s) i p e /\ frame e = i /\ 0 <= p < VMEM_NPAGES /\
              0 <= age e < 256.
Proof.
  intros Hwf Hocc Hi.
  destruct (wf_layout _ Hwf) as (Hle & Hlf & Hld).
  destruct (zlookup_in_range (framepage (vmem s)) i) as [p Hp]; [lia|].
  destruct (proj1 (wf_consistent _ Hwf) i p Hp (Hocc i p Hp)) as (e & He & Hf).
  exists p, e. repeat split; try done.
  - apply zlookup_Some_range in He. lia.
  - apply zlookup_Some_range in He. lia.
  - by apply (wf_ages _ Hwf p e).
  - by apply (wf_ages _ Hwf p e).
Qed.

(** Different frames hold different pages. *)
Lemma page_in_inj s i j p e e' :
  wf_system s -> all_occupied (vmem s) ->
  page_in (vmem s) i p e -> page_in (vmem s) j p e' -> i = j.
Proof.
  intros Hwf Hocc [Hi _] [Hj _].
  destruct (proj1 (wf_consistent _ Hwf) i p Hi (Hocc i p Hi)) as (e1 & He1 & Hf1).
  destruct (proj1 (wf_consistent _ Hwf) j p Hj (Hocc j p Hj)) as (e2 & He2 & Hf2).
  congruence.
Qed.

Lemma advance_range c :
  -1 <= c < VMEM_NFRAMES -> 0 <= mmanage.advance c < VMEM_NFRAMES.
Proof.
  intros Hc. unfold mmanage.advance. pose proof nframes_pos.
  destruct (Z.eqb_spec c (VMEM_NFRAMES - 1)); lia.
Qed.

(** The cursor moves in a circle. *)
Lemma advance_mod c :
  -1 <= c < VMEM_NFRAMES -> mmanage.advance c = (c + 1) mod VMEM_NFRAMES.
Proof.
  intros Hc. unfold mmanage.advance. pose proof nframes_pos.
  destruct (Z.eqb_spec c (VMEM_NFRAMES - 1)) as [->|Hne].
  - replace (VMEM_NFRAMES - 1 + 1) with VMEM_NFRAMES by lia.
    by rewrite Z.mod_same by lia.
  - rewrite Z.mod_small; lia.
Qed.

Lemma length_written_back b element idx s :
  Z.of_nat (length (data (vmem s))) = VMEM_NFRAMES * VMEM_PAGESIZE ->
  Z.of_nat (length (pagefile s)) = VMEM_NPAGES * VMEM_PAGESIZE ->
  0 <= idx < VMEM_NFRAMES -> 0 <= element < VMEM_NPAGES ->
  length (pagefile (written_back b element idx s)) = length (pagefile s).
Proof.
  intros Hd Hpf Hi He. destruct b; [|done]. simpl.
  pose proof pagesize_pos. pose proof (length_frame_cells _ idx Hd Hi).
  apply length_zblit; nia.
Qed.

Lemma find_remove_fifo_spec s victim e :
  wf_system s ->
  page_in (vmem s) (mmanage.advance (fifo_current s)) victim e ->
  returns mmanage.find_remove_fifo s (fun idx s' =>
    idx = mmanage.advance (fifo_current s) /\
    s' = upd_vmem (with_entries (zinsert victim (set_frame VOID_IDX e)
                                   (entries (vmem s))))
           (written_back (flag_set (flags e) PTF_DIRTY) victim idx
              (with_event (set_ev_replaced_page victim (event s))
                 (upd_vmem (with_next_alloc_idx idx)
                    (with_fifo_current idx s))))).
Proof.
  intros Hwf [Hp He].
  pose proof (advance_range _ (wf_cursor _ Hwf)) as Hc.
  pose proof nframes_le_npages.
  unfold mmanage.find_remove_fifo.
  vsteps. { apply ltb_false. lia. }
  vsteps. { apply geb_false. lia. }
  vsteps. eapply returns_rd_framepage; [exact Hp|].
  vsteps. eapply returns_rd_entry; [exact He|].
  apply returns_bind_assoc, returns_bind.
  eapply returns_mono.
  { eapply (evict_tail_spec victim e (mmanage.advance (fifo_current s)));
      try done; apply Hwf. }
  intros _ s1 ->. simpl. vsteps.
  by destruct (flag_set (flags e) PTF_DIRTY).
Qed.

(** *** AGING *)

Lemma age_in_fun m i a a' : age_in m i a -> age_in m i a' -> a = a'.
Proof.
  intros (p & e & [Hp He] & <-) (p' & e' & [Hp' He'] & <-). congruence.
Qed.

(** The scan from frame [i] on, started with the smallest age [age0] seen
    so far and the frame [b0] it was seen in: either no later frame is as
    young, or the scan ends on the last frame of smallest age. *)
Lemma find_remove_aging_loop_spec n i age0 b0 s0 :
  0 <= i -> i + Z.of_nat n = VMEM_NFRAMES ->
  (forall j, 0 <= j < VMEM_NFRAMES -> exists p e, page_in (vmem s0) j p e) ->
  returns (mmanage.find_remove_aging_loop n i age0)
    (upd_vmem (with_next_alloc_idx b0) s0)
    (fun _ s' => exists b a,
       s' = upd_vmem (with_next_alloc_idx b) s0 /\
       ((b = b0 /\ a = age0 /\
         forall j aj, i <= j < VMEM_NFRAMES -> age_in (vmem s0) j aj -> a < aj) \/
        (i <= b < VMEM_NFRAMES /\ age_in (vmem s0) b a /\ a <= age0 /\
         (forall j aj, i <= j < VMEM_NFRAMES -> age_in (vmem s0) j aj -> a <= aj) /\
         (forall j aj, b < j < VMEM_NFRAMES -> age_in (vmem s0) j aj -> a < aj)))).
Proof.
  revert i age0 b0. induction n as [|n IH]; intros i age0 b0 Hi Hn Hocc.
  - apply returns_ret. exists b0, age0. split; [done|]. left.
    repeat split; try done. intros j aj Hj. lia.
  - simpl mmanage.find_remove_aging_loop.
    destruct (Hocc i) as (p & e & Hp & He); [lia|].
    apply returns_bind. eapply returns_rd_framepage; [exact Hp|].
    apply returns_bind. eapply returns_rd_entry; [exact He|].
    assert (age_in (vmem s0) i (age e)) as Hage by (by exists p, e).
    destruct (Z.leb_spec (age e) age0) as [Hle|Hgt].
    + apply returns_bind, returns_modify.
      change (upd_vmem (with_next_alloc_idx i) (upd_vmem (with_next_alloc_idx b0) s0))
        with (upd_vmem (with_next_alloc_idx i) s0).
      eapply returns_mono; [apply (IH (i + 1) (age e) i); [lia|lia|done]|].
      intros _ s' (b & a & -> & Hcase). exists b, a. split; [done|]. right.
      destruct Hcase as [(-> & -> & Hlater)|(Hb & Hab & Hale & Hmin & Hlast)].
      * repeat split; try done; try lia.
        -- intros j aj Hj Hj'. destruct (decide (j = i)) as [->|].
           ++ rewrite (age_in_fun _ _ _ _ Hage Hj'). lia.
           ++ apply Z.lt_le_incl, (Hlater j); [lia|done].
        -- intros j aj Hj Hj'. apply (Hlater j); [lia|done].
      * repeat split; try done; try lia.
        intros j aj Hj Hj'. destruct (decide (j = i)) as [->|].
        -- rewrite <- (age_in_fun _ _ _ _ Hage Hj'). lia.
        -- apply (Hmin j); [lia|done].
    + eapply returns_mono; [apply (IH (i + 1) age0 b0); [lia|lia|done]|].
      intros _ s' (b & a & -> & Hcase). exists b, a. split; [done|].
      destruct Hcase as [(-> & -> & Hlater)|(Hb & Hab & Hale & Hmin & Hlast)].
      * left. repeat split; try done.
        intros j aj Hj Hj'. destruct (decide (j = i)) as [->|].
        -- rewrite <- (age_in_fun _ _ _ _ Hage Hj'). lia.
        -- apply (Hlater j); [lia|done].
      * right. repeat split; try done; try lia.
        intros j aj Hj Hj'. destruct (decide (j = i)) as [->|].
        -- rewrite <- (age_in_fun _ _ _ _ Hage Hj'). lia.
        -- apply (Hmin j); [lia|done].
Qed.

Lemma find_remove_aging_spec s :
  wf_system s -> all_occupied (vmem s) ->
  returns mmanage.find_remove_aging s (fun idx s' =>
    exists victim e,
      0 <= idx < VMEM_NFRAMES /\
      page_in (vmem s) idx victim e /\
      (forall j aj, 0 <= j < VMEM_NFRAMES -> age_in (vmem s) j aj -> age e <= aj) /\
      (forall j aj, idx < j < VMEM_NFRAMES -> age_in (vmem s) j aj -> age e < aj) /\
      s' = upd_vmem (with_entries
                       (zinsert victim (set_age 128 (set_frame VOID_IDX e))
                          (entries (vmem s))))
             (written_back (flag_set (flags e) PTF_DIRTY) victim idx
                (with_event (set_ev_replaced_page victim (event s))
                   (upd_vmem (with_next_alloc_idx idx) s)))).
Proof.
  intros Hwf Hocc. pose proof nframes_pos. pose proof void_idx_neg.
  unfold mmanage.find_remove_aging.
  apply returns_bind, returns_modify.
  apply returns_bind. eapply returns_mono.
  { apply (find_remove_aging_loop_spec _ 0 UCHAR_MAX VOID_IDX s); [lia|lia|].
    intros j Hj. destruct (occupied_page_in s j Hwf Hocc Hj) as (p & e & Hpe & _).
    eauto. }
  intros _ s1 (b & a & -> & Hcase).
  destruct Hcase as [(_ & -> & Hlater)|(Hb & (victim & e & [Hp He] & <-) & _ & Hmin & Hlast)].
  { exfalso.
    destruct (occupied_page_in s 0 Hwf Hocc) as (p & e & Hpe & _ & _ & Ha); [lia|].
    assert (UCHAR_MAX < age e) by (apply (Hlater 0); [lia|by exists p, e]).
    unfold UCHAR_MAX in *. lia. }
  simpl. vsteps.
  replace (b =? VOID_IDX) with false by (symmetry; apply Z.eqb_neq; lia).
  vsteps. eapply returns_rd_framepage; [exact Hp|].
  vsteps. eapply returns_rd_entry; [exact He|].
  apply returns_bind_assoc, returns_bind.
  eapply returns_mono.
  { eapply (evict_tail_spec victim e b); try done; apply Hwf. }
  intros _ s1 ->. simpl.
  apply returns_bind. eapply returns_wr_entry.
  { simpl. apply zlookup_zinsert_eq. by apply zlookup_Some_range in He. }
  simpl. vsteps.
  exists victim, e.
  assert (forall b0, next_alloc_idx (vmem (written_back b0 victim b
            (with_event (set_ev_replaced_page victim (event s))
               (upd_vmem (with_next_alloc_idx b) s)))) = b) as Hnxt
    by (by intros []).
  rewrite Hnxt. repeat split; try done; try lia.
  destruct (flag_set (flags e) PTF_DIRTY); simpl;
    unfold upd_vmem, with_entries; simpl; by rewrite zinsert_zinsert_eq.
Qed.

(** *** CLOCK *)

Lemma clock_state_id s :
  clock_state (fifo_current s) (next_alloc_idx (vmem s)) (entries (vmem s)) s = s.
Proof. by destruct s as [[] ? ? ? ? ?]. Qed.

Lemma visit_mod s j :
  -1 <= fifo_current s < VMEM_NFRAMES -> (1 <= j)%nat ->
  visit s j = (fifo_current s + Z.of_nat j) mod VMEM_NFRAMES.
Proof.
  intros Hc Hj. pose proof nframes_pos.
  induction j as [|j IH]; [lia|].
  unfold visit in *. simpl Nat.iter.
  destruct j as [|j].
  - simpl. by apply advance_mod.
  - rewrite IH by lia. rewrite advance_mod.
    + rewrite Z.add_mod_idemp_l by lia. f_equal. lia.
    + pose proof (Z.mod_pos_bound (fifo_current s + Z.of_nat (S j)) VMEM_NFRAMES). lia.
Qed.

Lemma visit_range s j :
  -1 <= fifo_current s < VMEM_NFRAMES -> (1 <= j)%nat ->
  0 <= visit s j < VMEM_NFRAMES.
Proof.
  intros Hc Hj. rewrite visit_mod by done.
  apply Z.mod_pos_bound. apply nframes_pos.
Qed.

Lemma visit_inj s i j :
  -1 <= fifo_current s < VMEM_NFRAMES ->
  (1 <= i)%nat -> (i < j)%nat -> Z.of_nat j <= VMEM_NFRAMES ->
  visit s i <> visit s j.
Proof.
  intros Hc Hi Hij Hj. rewrite !visit_mod by lia. intros Heq.
  pose proof nframes_pos.
  assert ((Z.of_nat j - Z.of_nat i) mod VMEM_NFRAMES = 0) as Hz.
  { replace (Z.of_nat j - Z.of_nat i)
      with ((fifo_current s + Z.of_nat j) - (fifo_current s + Z.of_nat i)) by lia.
    rewrite Zminus_mod, Heq, Z.sub_diag. by apply Z.mod_0_l; lia. }
  rewrite Z.mod_small in Hz; lia.
Qed.

Lemma visit_full_lap s :
  -1 <= fifo_current s < VMEM_NFRAMES ->
  visit s (S (Z.to_nat VMEM_NFRAMES)) = visit s 1.
Proof.
  intros Hc. pose proof nframes_pos. rewrite !visit_mod by lia.
  replace (fifo_current s + Z.of_nat (S (Z.to_nat VMEM_NFRAMES)))
    with (fifo_current s + 1 + 1 * VMEM_NFRAMES) by lia.
  by rewrite Z.mod_add by lia.
Qed.

(** The cursor passes [m] frames whose pages are referenced: their bits are
    cleared and nothing else changes. *)
Lemma clock_skip m s fuel :
  wf_system s -> all_occupied (vmem s) -> Z.of_nat m <= VMEM_NFRAMES ->
  (forall j, (1 <= j <= m)%nat ->
     exists p e, page_in (vmem s) (visit s j) p e /\
                 flag_set (flags e) PTF_REF = true) ->
  exists l,
    mmanage.find_remove_clock_loop (m + fuel) s =
    mmanage.find_remove_clock_loop fuel
      (clock_state (visit s m)
         (match m with O => next_alloc_idx (vmem s) | _ => visit s m end) l s) /\
    skipped m s l.
Proof.
  intros Hwf Hocc. revert fuel. induction m as [|m IH]; intros fuel Hm Href.
  - exists (entries (vmem s)). split; [|split; [done|]].
    + unfold visit. simpl. by rewrite clock_state_id.
    + intros p e He. exists e. repeat split; auto.
      intros (j & Hj & _). lia.
  - destruct (IH (S fuel)) as (l & Heq & Hlen & Hl); [lia|intros j Hj; apply Href; lia|].
    replace (S m + fuel)%nat with (m + S fuel)%nat by lia. rewrite Heq.
    destruct (Href (S m)) as (p & e & [Hp He] & Hr); [lia|].
    assert (~ visited m s p) as Hnv.
    { intros (j & Hj & Hpj).
      destruct (occupied_page_in s (visit s j) Hwf Hocc) as (p' & e' & [Hp' He'] & _).
      { apply visit_range; [apply Hwf|lia]. }
      assert (p' = p) as -> by congruence.
      apply (visit_inj s j (S m)); [apply Hwf|lia|lia|lia|].
      by apply (page_in_inj s _ _ p e' e Hwf Hocc). }
    assert (zlookup l p = Some e) as Hlp.
    { destruct (Hl p e He) as (e1 & He1 & _ & _ & Hsame). by rewrite (Hsame Hnv) in He1. }
    exists (zinsert p (ref_cleared e) l). split; [|split].
    + set (sm := clock_state _ _ l s).
      simpl mmanage.find_remove_clock_loop at 1.
      unfold bind at 1. simpl. unfold bind at 1. simpl. unfold bind at 1. simpl.
      unfold bind at 1. simpl. unfold bind at 1, rd_framepage. simpl.
      change (mmanage.advance (visit s m)) with (visit s (S m)).
      rewrite Hp. unfold bind at 1, rd_entry. simpl.
      rewrite Hlp.
      change (Z.land (flags e) PTF_REF =? PTF_REF) with (flag_set (flags e) PTF_REF).
      rewrite Hr. unfold bind at 1, wr_entry. simpl.
      rewrite Hlp. done.
    + by rewrite length_zinsert.
    + intros q eq Hq. destruct (decide (q = p)) as [->|Hne].
      * assert (eq = e) as -> by congruence.
        exists (ref_cleared e). split; [|repeat split; auto].
        -- apply zlookup_zinsert_eq. rewrite Hlen. by apply zlookup_Some_range in He.
        -- intros Hn. exfalso. apply Hn. exists (S m). split; [lia|done].
      * destruct (Hl q eq Hq) as (e1 & He1 & Hor & Hv & Hnv').
        exists e1. rewrite zlookup_zinsert_ne by done. repeat split; try done.
        -- intros (j & Hj & Hqj). apply Hv. exists j. split; [|done].
           destruct (decide (j = S m)) as [->|]; [congruence|lia].
        -- intros Hnq. apply Hnv'. intros (j & Hj & Hqj). apply Hnq.
           exists j. split; [lia|done].
Qed.

(** The cursor comes to a frame whose page is not referenced: the page is
    evicted. *)
Lemma clock_evict_step fuel s p e :
  layout (vmem s) ->
  Z.of_nat (length (pagefile s)) = VMEM_NPAGES * VMEM_PAGESIZE ->
  -1 <= fifo_current s < VMEM_NFRAMES ->
  page_in (vmem s) (mmanage.advance (fifo_current s)) p e ->
  flag_set (flags e) PTF_REF = false ->
  returns (mmanage.find_remove_clock_loop (S fuel)) s (fun idx s' =>
    idx = mmanage.advance (fifo_current s) /\
    s' = upd_vmem (with_entries (zinsert p (set_frame VOID_IDX e) (entries (vmem s))))
           (written_back (flag_set (flags e) PTF_DIRTY) p idx
              (with_event (set_ev_replaced_page p (event s))
                 (upd_vmem (with_next_alloc_idx idx) (with_fifo_current idx s))))).
Proof.
  intros Hlay Hpf Hc [Hp He] Hr.
  pose proof (advance_range _ Hc) as Hc'.
  simpl mmanage.find_remove_clock_loop.
  vsteps. eapply returns_rd_framepage; [exact Hp|].
  vsteps. eapply returns_rd_entry; [exact He|].
  change (Z.land (flags e) PTF_REF =? PTF_REF) with (flag_set (flags e) PTF_REF).
  rewrite Hr. vsteps.
  apply returns_bind_assoc, returns_bind.
  eapply returns_mono.
  { by eapply (evict_tail_spec p e (mmanage.advance (fifo_current s))). }
  intros _ s1 ->. simpl. vsteps.
  by destruct (flag_set (flags e) PTF_DIRTY).
Qed.

(** After [m] referenced frames the next frame holds [victim], whose entry
    at that moment is [e'], not referenced. *)
Lemma clock_finish m s victim e e' :
  wf_system s -> all_occupied (vmem s) -> Z.of_nat m <= VMEM_NFRAMES ->
  (forall j, (1 <= j <= m)%nat ->
     exists p e, page_in (vmem s) (visit s j) p e /\
                 flag_set (flags e) PTF_REF = true) ->
  page_in (vmem s) (visit s (S m)) victim e ->
  (~ visited m s victim /\ e' = e) \/ (visited m s victim /\ e' = ref_cleared e) ->
  flag_set (flags e') PTF_REF = false ->
  returns mmanage.find_remove_clock s (fun idx s' =>
    idx = visit s (S m) /\
    exists l, skipped m s l /\
      s' = upd_vmem (with_entries (zinsert victim (set_frame VOID_IDX e') l))
             (written_back (flag_set (flags e') PTF_DIRTY) victim idx
                (with_event (set_ev_replaced_page victim (event s))
                   (clock_state idx idx l s)))).
Proof.
  intros Hwf Hocc Hm Href [Hp He] Hcase Hclear.
  destruct (wf_layout _ Hwf) as (Hle & Hlf & Hld).
  pose proof nframes_le_npages.
  unfold mmanage.find_remove_clock. apply returns_bind, returns_gets.
  set (n := length (entries (vmem s))).
  destruct (clock_skip m s (S (n - m)) Hwf Hocc Hm Href) as (l & Heq & Hsk).
  replace (S n) with (m + S (n - m))%nat by lia.
  unfold returns at 1. rewrite Heq. fold (@returns Z).
  set (sm := clock_state _ _ l s).
  assert (zlookup l victim = Some e') as Hl.
  { destruct Hsk as [_ Hsk]. destruct (Hsk victim e He) as (e1 & He1 & _ & Hv & Hnv).
    destruct Hcase as [[Hn ->]|[Hy ->]].
    - by rewrite (Hnv Hn) in He1.
    - by rewrite (Hv Hy) in He1. }
  assert (-1 <= visit s m < VMEM_NFRAMES) as Hcur.
  { destruct m as [|m'].
    - apply Hwf.
    - pose proof (visit_range s (S m') (wf_cursor _ Hwf)). lia. }
  eapply returns_mono.
  { apply (clock_evict_step (n - m) sm victim e').
    - destruct Hsk as [Hlen _]. repeat split; simpl; try done. by rewrite Hlen.
    - apply Hwf.
    - exact Hcur.
    - split; [exact Hp|exact Hl].
    - exact Hclear. }
  intros idx s' [-> ->]. split; [done|]. exists l. split; [done|].
  by destruct (flag_set (flags e') PTF_DIRTY).
Qed.

(** Either some frame within one lap holds a page that is not referenced,
    or the pages of all frames are referenced. *)
Lemma clock_first_clear s n :
  wf_system s -> all_occupied (vmem s) -> Z.of_nat n <= VMEM_NFRAMES ->
  (exists k victim e, (1 <= k <= n)%nat /\
     (forall j, (1 <= j < k)%nat ->
        exists p e, page_in (vmem s) (visit s j) p e /\
                    flag_set (flags e) PTF_REF = true) /\
     page_in (vmem s) (visit s k) victim e /\
     flag_set (flags e) PTF_REF = false) \/
  (forall j, (1 <= j <= n)%nat ->
     exists p e, page_in (vmem s) (visit s j) p e /\
                 flag_set (flags e) PTF_REF = true).
Proof.
  intros Hwf Hocc. induction n as [|n IH]; intros Hn.
  - right. intros j Hj. lia.
  - destruct (IH ltac:(lia)) as [(k & victim & e & Hk & Hbefore & Hp & Hr)|Hall].
    + left. exists k, victim, e. split; [lia|]. by split.
    + destruct (occupied_page_in s (visit s (S n)) Hwf Hocc) as (p & e & Hpe & _).
      { apply visit_range; [apply Hwf|lia]. }
      destruct (flag_set (flags e) PTF_REF) eqn:Hr.
      * right. intros j Hj. destruct (decide (j = S n)) as [->|]; [|apply Hall; lia].
        by exists p, e.
      * left. exists (S n), p, e. split; [lia|]. split; [|by split].
        intros j Hj. apply Hall. lia.
Qed.

(** *** The three policies together *)

Lemma evict_state_evicted s c idx L victim e :
  wf_system s -> 0 <= idx < VMEM_NFRAMES -> page_in (vmem s) idx victim e ->
  -1 <= c < VMEM_NFRAMES ->
  Z.of_nat (length L) = VMEM_NPAGES ->
  (forall p e0, zlookup (entries (vmem s)) p = Some e0 ->
     exists e1, zlookup L p = Some e1 /\
       frame e1 = (if decide (p = victim) then VOID_IDX else frame e0) /\
       flag_set (flags e1) PTF_DIRTY = flag_set (flags e0) PTF_DIRTY /\
       0 <= age e1 < 256) ->
  evicted s idx (evict_state c idx L (flag_set (flags e) PTF_DIRTY) victim s).
Proof.
  intros Hwf Hi Hp Hc HL Hent. exists victim, e.
  unfold evict_state. destruct Hp.
  destruct (flag_set (flags e) PTF_DIRTY); simpl; repeat split; try done; lia.
Qed.

Lemma evict_one_entry s victim e f :
  wf_system s -> zlookup (entries (vmem s)) victim = Some e ->
  frame (f e) = VOID_IDX -> flags (f e) = flags e -> 0 <= age (f e) < 256 ->
  forall p e0, zlookup (entries (vmem s)) p = Some e0 ->
    exists e1, zlookup (zinsert victim (f e) (entries (vmem s))) p = Some e1 /\
      frame e1 = (if decide (p = victim) then VOID_IDX else frame e0) /\
      flag_set (flags e1) PTF_DIRTY = flag_set (flags e0) PTF_DIRTY /\
      0 <= age e1 < 256.
Proof.
  intros Hwf He Hf Hfl Ha p e0 Hp. case_decide as Hd.
  - subst p. assert (e0 = e) as -> by congruence.
    exists (f e). rewrite zlookup_zinsert_eq by (by apply zlookup_Some_range in He).
    repeat split; try done; try lia. by rewrite Hfl.
  - exists e0. rewrite zlookup_zinsert_ne by done.
    pose proof (wf_ages _ Hwf p e0 Hp). by repeat split; try lia.
Qed.

Lemma find_remove_fifo_evicted s :
  wf_system s -> all_occupied (vmem s) ->
  returns mmanage.find_remove_fifo s (fun idx s' => evicted s idx s').
Proof.
  intros Hwf Hocc.
  pose proof (advance_range _ (wf_cursor _ Hwf)) as Hc.
  destruct (occupied_page_in s _ Hwf Hocc Hc) as (victim & e & Hpe & _ & _ & Ha).
  eapply returns_mono; [by apply (find_remove_fifo_spec s victim e)|].
  intros idx s' [-> ->].
  apply (evict_state_evicted s (mmanage.advance (fifo_current s))); try done; try lia.
  - rewrite length_zinsert. apply Hwf.
  - by apply (evict_one_entry s victim e (set_frame VOID_IDX) Hwf); [apply Hpe|..].
Qed.

Lemma find_remove_aging_evicted s :
  wf_system s -> all_occupied (vmem s) ->
  returns mmanage.find_remove_aging s (fun idx s' => evicted s idx s').
Proof.
  intros Hwf Hocc.
  eapply returns_mono; [by apply find_remove_aging_spec|].
  intros idx s' (victim & e & Hi & Hpe & _ & _ & ->).
  replace (upd_vmem _ _) with
    (evict_state (fifo_current s) idx
       (zinsert victim (set_age 128 (set_frame VOID_IDX e)) (entries (vmem s)))
       (flag_set (flags e) PTF_DIRTY) victim s)
    by (unfold evict_state; destruct s; by destruct (flag_set (flags e) PTF_DIRTY)).
  apply evict_state_evicted; try done.
  - apply Hwf.
  - rewrite length_zinsert. apply Hwf.
  - apply (evict_one_entry s victim e (fun e => set_age 128 (set_frame VOID_IDX e)) Hwf);
      [apply Hpe|done|done|]. simpl. apply to_uchar_range.
Qed.

Lemma ref_cleared_dirty e :
  flag_set (flags (ref_cleared e)) PTF_DIRTY = flag_set (flags e) PTF_DIRTY.
Proof.
  destruct dirty_not_ref_bit as (d & r & Hd & Hr & Hne & -> & Er).
  unfold ref_cleared. simpl. rewrite Er. by apply flag_set_lxor_other.
Qed.

Lemma ref_cleared_ref e :
  flag_set (flags e) PTF_REF = true -> flag_set (flags (ref_cleared e)) PTF_REF = false.
Proof.
  destruct ptf_ref_bit as (r & Hr & Er).
  unfold ref_cleared. simpl. rewrite Er. by apply flag_set_lxor_same.
Qed.

(** The fuel of [find_remove_clock] is enough in every state. *)
Lemma fuel_free_bind {A B : Type} (m : M A) (k : A -> M B) :
  fuel_free m -> (forall a, fuel_free (k a)) -> fuel_free (bind m k).
Proof.
  intros Hm Hk s. unfold bind. specialize (Hm s).
  destruct (m s); try done. apply Hk.
Qed.

Lemma fuel_free_ret {A : Type} (a : A) : fuel_free (ret a).
Proof. by intros s. Qed.

Lemma fuel_free_gets {A : Type} (f : system -> A) : fuel_free (gets f).
Proof. by intros s. Qed.

Lemma fuel_free_modify f : fuel_free (modify f).
Proof. by intros s. Qed.

Lemma fuel_free_test c : fuel_free (TEST_AND_EXIT c).
Proof. intros s. unfold TEST_AND_EXIT. by destruct c. Qed.

Lemma fuel_free_wr_entry i f : fuel_free (wr_entry i f).
Proof. intros s. unfold wr_entry. by destruct (zlookup _ _). Qed.

Lemma fuel_free_store_page element : fuel_free (mmanage.store_page element).
Proof.
  unfold mmanage.store_page, pagefile.store_page_to_pagefile.
  apply fuel_free_bind; [apply fuel_free_gets|]. intros nxt.
  apply fuel_free_bind; [apply fuel_free_test|]. intros _.
  apply fuel_free_bind; [apply fuel_free_test|]. intros _.
  apply fuel_free_bind; [apply fuel_free_gets|]. intros d.
  destruct (_ && _); [|done].
  apply fuel_free_bind; [apply fuel_free_gets|]. intros pf.
  apply fuel_free_bind; [apply fuel_free_test|]. intros _.
  apply fuel_free_modify.
Qed.

Lemma ref_count_insert l i e e' :
  l !! i = Some e ->
  flag_set (flags e) PTF_REF = true -> flag_set (flags e') PTF_REF = false ->
  S (ref_count (<[i:=e']> l)) = ref_count l.
Proof.
  revert i. induction l as [|x l IH]; intros [|i] Hl Hr Hr'; simpl in *; try done.
  - injection Hl as ->. by rewrite Hr, Hr'.
  - rewrite <- (IH i Hl Hr Hr'). by destruct (flag_set (flags x) PTF_REF).
Qed.

Lemma find_remove_clock_loop_fuel fuel s :
  (ref_count (entries (vmem s)) < fuel)%nat ->
  mmanage.find_remove_clock_loop fuel s <> OutOfFuel.
Proof.
  revert s. induction fuel as [|fuel IH]; intros s Hlt; [lia|].
  simpl mmanage.find_remove_clock_loop.
  unfold bind at 1. simpl. unfold bind at 1. simpl. unfold bind at 1. simpl.
  unfold bind at 1. simpl. unfold bind at 1, rd_framepage. simpl.
  destruct (zlookup (framepage (vmem s)) _) as [element|]; [|done].
  unfold bind at 1, rd_entry. simpl.
  destruct (zlookup (entries (vmem s)) element) as [e|] eqn:He; [|done].
  change (Z.land (flags e) PTF_REF =? PTF_REF) with (flag_set (flags e) PTF_REF).
  destruct (flag_set (flags e) PTF_REF) eqn:Hr.
  - unfold bind at 1, wr_entry. simpl. rewrite He. apply IH. simpl.
    unfold zlookup in He. unfold zinsert. case_decide; [|done].
    pose proof (ref_count_insert _ _ e (ref_cleared e) He Hr (ref_cleared_ref e Hr)).
    unfold ref_cleared in *. lia.
  - apply fuel_free_bind; [apply fuel_free_modify|]. intros _.
    apply fuel_free_bind.
    { destruct (_ =? _); [apply fuel_free_store_page|apply fuel_free_ret]. }
    intros _. apply fuel_free_bind; [apply fuel_free_wr_entry|]. intros _.
    apply fuel_free_gets.
Qed.

Lemma ref_count_le_length l : (ref_count l <= length l)%nat.
Proof.
  induction l as [|e l IH]; simpl; [lia|].
  destruct (flag_set (flags e) PTF_REF); lia.
Qed.

Lemma find_remove_clock_fuel s : mmanage.find_remove_clock s <> OutOfFuel.
Proof.
  unfold mmanage.find_remove_clock, bind, gets.
  apply find_remove_clock_loop_fuel.
  pose proof (ref_count_le_length (entries (vmem s))). lia.
Qed.


Lemma clock_finish_evicted m s victim e e' :
  wf_system s -> all_occupied (vmem s) -> Z.of_nat m <= VMEM_NFRAMES ->
  (forall j, (1 <= j <= m)%nat ->
     exists p e, page_in (vmem s) (visit s j) p e /\
                 flag_set (flags e) PTF_REF = true) ->
  page_in (vmem s) (visit s (S m)) victim e ->
  (~ visited m s victim /\ e' = e) \/ (visited m s victim /\ e' = ref_cleared e) ->
  flag_set (flags e') PTF_REF = false ->
  returns mmanage.find_remove_clock s (fun idx s' => evicted s idx s').
Proof.
  intros Hwf Hocc Hm Href Hpe Hcase Hclear.
  eapply returns_mono; [by apply (clock_finish m s victim e e')|].
  intros idx s' (-> & l & [Hlen Hl] & ->).
  assert (0 <= visit s (S m) < VMEM_NFRAMES) as Hv
    by (apply visit_range; [apply Hwf|lia]).
  assert (flag_set (flags e') PTF_DIRTY = flag_set (flags e) PTF_DIRTY) as Hd.
  { destruct Hcase as [[_ ->]|[_ ->]]; [done|apply ref_cleared_dirty]. }
  replace (upd_vmem _ _) with
    (evict_state (visit s (S m)) (visit s (S m))
       (zinsert victim (set_frame VOID_IDX e') l)
       (flag_set (flags e) PTF_DIRTY) victim s)
    by (unfold evict_state; rewrite <- Hd; by destruct (flag_set (flags e') PTF_DIRTY)).
  apply evict_state_evicted; try done; try lia.
  - rewrite length_zinsert, Hlen. apply Hwf.
  - intros p e0 Hp. destruct (Hl p e0 Hp) as (e1 & He1 & Hor & _).
    pose proof (wf_ages _ Hwf p e0 Hp) as Ha.
    case_decide as Hpv.
    + subst p. assert (e0 = e) as -> by (destruct Hpe; congruence).
      exists (set_frame VOID_IDX e').
      rewrite zlookup_zinsert_eq
        by (rewrite Hlen; destruct Hpe as [_ He]; by apply zlookup_Some_range in He).
      assert (age e' = age e) as Hage by (by destruct Hcase as [[_ ->]|[_ ->]]).
      repeat split; try done; simpl; lia.
    + exists e1. rewrite zlookup_zinsert_ne by done.
      destruct Hor as [->| ->]; repeat split; try done; simpl; try lia.
      apply ref_cleared_dirty.
Qed.

Lemma find_remove_clock_evicted s :
  wf_system s -> all_occupied (vmem s) ->
  returns mmanage.find_remove_clock s (fun idx s' => evicted s idx s').
Proof.
  intros Hwf Hocc. pose proof nframes_pos.
  destruct (clock_first_clear s (Z.to_nat VMEM_NFRAMES) Hwf Hocc)
    as [(k & victim & e & Hk & Hbefore & Hpe & Hr)|Hall]; [lia| |].
  - destruct k as [|m]; [lia|].
    apply (clock_finish_evicted m s victim e e); try done; try lia.
    + intros j Hj. apply Hbefore. lia.
    + left. split; [|done]. intros (j & Hj & Hpj).
      destruct (occupied_page_in s (visit s j) Hwf Hocc) as (p' & e' & [Hp' He'] & _).
      { apply visit_range; [apply Hwf|lia]. }
      assert (p' = victim) as -> by congruence.
      apply (visit_inj s j (S m)); [apply Hwf|lia|lia|lia|].
      by apply (page_in_inj s _ _ victim e' e Hwf Hocc).
  - destruct (Hall 1%nat) as (victim & e & Hpe & Hr); [lia|].
    apply (clock_finish_evicted (Z.to_nat VMEM_NFRAMES) s victim e (ref_cleared e));
      try done; try lia.
    + rewrite visit_full_lap by apply Hwf. done.
    + right. split; [|done]. exists 1%nat. split; [lia|]. apply Hpe.
    + by apply ref_cleared_ref.
Qed.

Lemma find_remove_frame_evicted s :
  wf_system s -> all_occupied (vmem s) ->
  returns mmanage.find_remove_frame s (fun idx s' => evicted s idx s').
Proof.
  intros Hwf Hocc. unfold mmanage.find_remove_frame.
  apply returns_bind, returns_gets.
  destruct (page_rep_algo (vmem s)).
  - by apply find_remove_fifo_evicted.
  - by apply find_remove_clock_evicted.
  - by apply find_remove_aging_evicted.
Qed.

(** *** The fault handler *)

Lemma allocate_page_unfold :
  mmanage.allocate_page =
  (idx <- mmanage.find_free_frame;;
   modify bump_pf_count;;
   idx <- (if idx =? VOID_IDX then alloc_evict else ret idx);;
   alloc_tail idx).
Proof. reflexivity. Qed.

Lemma alloc_tail_spec idx er s :
  layout (vmem s) -> 0 <= idx < VMEM_NFRAMES ->
  zlookup (entries (vmem s)) (req_pageno (vmem s)) = Some er ->
  returns (alloc_tail idx) s (fun _ s' => s' = map_page idx er s).
Proof.
  intros (Hle & Hlf & Hld) Hi Her.
  pose proof (zlookup_Some_range _ _ _ Her) as Hreq.
  destruct (zlookup_in_range (framepage (vmem s)) idx) as [p0 Hp0]; [lia|].
  unfold alloc_tail.
  vstep; simpl. vstep; simpl. vstep; simpl.
  eapply returns_wr_framepage; [exact Hp0|]. simpl.
  repeat (vstep; simpl).
  eapply returns_rd_framepage; [simpl; apply zlookup_zinsert_eq; lia|].
  vstep; simpl. vstep; simpl. { apply ltb_false. lia. }
  vstep; simpl.
  eapply returns_rd_framepage; [simpl; apply zlookup_zinsert_eq; lia|].
  vstep; simpl. vstep; simpl. { apply geb_false. lia. }
  repeat (vstep; simpl).
  eapply returns_wr_entry; [exact Her|]. simpl.
  vstep; simpl. unfold map_page, emit, with_sem. simpl.
  by rewrite <- app_assoc.
Qed.

Lemma wf_bump_pf_count s : wf_system s -> wf_system (bump_pf_count s).
Proof. intros []. by split. Qed.

Lemma wf_set_event ev s : wf_system s -> wf_system (with_event ev s).
Proof. intros []. by split. Qed.

(** A fault served from a free frame. *)
Lemma allocate_page_free s idx er :
  wf_system s ->
  zlookup (entries (vmem s)) (req_pageno (vmem s)) = Some er ->
  0 <= idx < VMEM_NFRAMES ->
  frame_free (vmem s) idx ->
  (forall j, 0 <= j < idx -> ~ frame_free (vmem s) j) ->
  returns mmanage.allocate_page s (fun _ s' =>
    s' = map_page idx er
           (bump_pf_count (with_event (set_ev_replaced_page VOID_IDX (event s)) s))).
Proof.
  intros Hwf Her Hi Hfree Hleast. pose proof void_idx_neg.
  rewrite allocate_page_unfold.
  apply returns_bind. eapply returns_mono.
  { apply find_free_frame_spec, Hwf. }
  intros idx' s1 [(-> & -> & Hnone)|(Hi' & Hfree' & Hleast' & ->)].
  { exfalso. by apply (Hnone idx). }
  assert (idx' = idx) as ->.
  { destruct (Z.lt_trichotomy idx' idx) as [Hlt|[->|Hgt]]; [|done|].
    - exfalso. apply (Hleast idx'); [lia|done].
    - exfalso. apply (Hleast' idx); [lia|done]. }
  simpl. vstep; simpl. vstep; simpl.
  replace (idx =? VOID_IDX) with false by (symmetry; apply Z.eqb_neq; lia).
  vstep; simpl. vstep; simpl.
  apply alloc_tail_spec; try done. apply Hwf.
Qed.

Lemma length_swap_cells s p :
  Z.of_nat (length (pagefile s)) = VMEM_NPAGES * VMEM_PAGESIZE ->
  0 <= p < VMEM_NPAGES ->
  Z.of_nat (length (swap_cells s p)) = VMEM_PAGESIZE.
Proof.
  intros Hpf Hp. pose proof pagesize_pos. apply length_zslice; nia.
Qed.

Lemma length_load_data d idx s p :
  Z.of_nat (length d) = VMEM_NFRAMES * VMEM_PAGESIZE ->
  Z.of_nat (length (pagefile s)) = VMEM_NPAGES * VMEM_PAGESIZE ->
  0 <= idx < VMEM_NFRAMES -> 0 <= p < VMEM_NPAGES ->
  length (zblit d (idx * VMEM_PAGESIZE) (swap_cells s p)) = length d.
Proof.
  intros Hd Hpf Hi Hp. pose proof pagesize_pos.
  pose proof (length_swap_cells s p Hpf Hp).
  apply length_zblit; nia.
Qed.

(** A fault served by an eviction. *)
Lemma allocate_page_evict s :
  wf_system s -> fault_pending s -> all_occupied (vmem s) ->
  returns mmanage.allocate_page s (fun _ s' =>
    exists idx s1 e1,
      mmanage.find_remove_frame (bump_pf_count s) = Ok idx s1 /\
      evicted (bump_pf_count s) idx s1 /\
      zlookup (entries (vmem s1)) (req_pageno (vmem s)) = Some e1 /\
      frame e1 = VOID_IDX /\
      s' = map_page idx (set_frame idx e1) (loaded idx e1 s1)).
Proof.
  intros Hwf (er & Her & Hvoid) Hocc. pose proof void_idx_neg.
  destruct (wf_layout _ Hwf) as (Hle & Hlf & Hld).
  rewrite allocate_page_unfold.
  apply returns_bind. eapply returns_mono.
  { apply find_free_frame_spec, Hwf. }
  intros idx' s1 [(-> & -> & Hnone)|(Hi' & Hfree' & _)];
    [|exfalso; by apply (Hocc idx' VOID_IDX)].
  vstep; simpl. vstep; simpl. rewrite Z.eqb_refl.
  apply returns_bind. unfold alloc_evict.
  apply returns_bind.
  pose proof (find_remove_frame_evicted (bump_pf_count s) (wf_bump_pf_count s Hwf) Hocc)
    as Hev.
  apply returns_Ok in Hev. destruct Hev as (idx & s1 & Hrun & Hev).
  apply returns_Ok. exists idx, s1. split; [done|].
  pose proof Hev as (victim & e & Hi & Hpe & Hnxt & Hreq & Hpf & Hg & Halgo & Hfp & Hdata
                     & Hsem & Hlen & Hent & Hcur & Hevent & Hpagefile & Htrace).
  destruct (Hent _ _ Her) as (e1 & He1 & Hf1 & _).
  assert (frame e1 = VOID_IDX) as Hvoid1 by (rewrite Hf1; by case_decide).
  simpl in Hreq, He1.
  vstep; simpl. vstep; simpl. { apply ltb_false. lia. }
  vstep; simpl. vstep; simpl. { apply geb_false. lia. }
  vstep; simpl. vstep; simpl. vstep; simpl.
  eapply returns_wr_entry; [by rewrite Hreq|]. simpl.
  vstep; simpl. vstep; simpl.
  apply returns_bind. eapply returns_mono.
  { eapply (fetch_page_spec _ (set_frame idx e1)); simpl.
    - rewrite Hreq. apply zlookup_zinsert_eq. by apply zlookup_Some_range in He1.
    - done.
    - rewrite Hreq. apply zlookup_Some_range in Her. lia.
    - by rewrite Hdata.
    - rewrite Hpagefile.
      destruct Hpe as [Hp He]. apply zlookup_Some_range in He. simpl in He.
      rewrite length_written_back; try done; try apply Hwf; simpl; lia. }
  intros _ s2 ->. simpl. vstep; simpl.
  assert (Z.of_nat (length (pagefile s1)) = VMEM_NPAGES * VMEM_PAGESIZE) as Hpf1.
  { rewrite Hpagefile.
    destruct Hpe as [Hp He]. apply zlookup_Some_range in He. simpl in He.
    rewrite length_written_back; try done; try apply Hwf; simpl; lia. }
  eapply returns_mono.
  { apply (alloc_tail_spec idx (set_frame idx e1)); simpl; try done.
    - repeat split; simpl.
      + by rewrite length_zinsert.
      + by rewrite Hfp.
      + rewrite length_load_data; try done; [by rewrite Hdata|by rewrite Hdata|].
        rewrite Hreq. apply zlookup_Some_range in Her. lia.
    - rewrite Hreq. apply zlookup_zinsert_eq. by apply zlookup_Some_range in He1. }
  intros _ s3 ->. exists idx, s1, e1. by repeat split.
Qed.

(** *** What a served fault has changed *)

Lemma consistent_remapped m m' idx er :
  consistent m -> remapped m m' idx ->
  0 <= idx < Z.of_nat (length (framepage m)) ->
  zlookup (entries m) (req_pageno m) = Some er -> frame er = VOID_IDX ->
  consistent m'.
Proof.
  intros [Hc1 Hc2] (Hfp & Hlen & Hent) Hi Her Hvoid. pose proof void_idx_neg.
  split.
  - intros i p Hp Hpv. rewrite Hfp in Hp.
    destruct (decide (i = idx)) as [->|Hne].
    + rewrite zlookup_zinsert_eq in Hp by done. injection Hp as <-.
      destruct (Hent _ _ Her) as (e' & He' & Hf & _).
      exists e'. split; [done|]. rewrite Hf. by case_decide.
    + rewrite zlookup_zinsert_ne in Hp by done.
      destruct (Hc1 i p Hp Hpv) as (e & He & Hfe).
      destruct (Hent _ _ He) as (e' & He' & Hf & _).
      exists e'. split; [done|]. rewrite Hf.
      apply zlookup_Some_range in Hp.
      case_decide as Hreq; [|case_decide; lia].
      subst p. assert (e = er) as -> by congruence. lia.
  - intros q e' He' Hfe'.
    destruct (zlookup_in_range (entries m) q) as [e He].
    { apply zlookup_Some_range in He'. lia. }
    destruct (Hent _ _ He) as (e'' & He'' & Hf & _).
    assert (e'' = e') as -> by congruence.
    rewrite Hfp, Hf. rewrite Hf in Hfe'.
    case_decide as Hreq.
    + subst q. by apply zlookup_zinsert_eq.
    + case_decide as Hidx; [done|].
      rewrite zlookup_zinsert_ne by done. by apply Hc2.
Qed.

Lemma free_frame_unmapped s idx q e :
  wf_system s -> frame_free (vmem s) idx ->
  zlookup (entries (vmem s)) q = Some e -> frame e <> idx.
Proof.
  intros Hwf Hfree He Hf. pose proof void_idx_neg.
  assert (frame e <> VOID_IDX) as Hne.
  { apply zlookup_Some_range in Hfree. lia. }
  pose proof (proj2 (wf_consistent _ Hwf) q e He Hne) as Hq.
  rewrite Hf in Hq. unfold frame_free in Hfree.
  apply zlookup_Some_range in He. assert (q = VOID_IDX) by congruence. lia.
Qed.

Lemma allocate_page_free_served s idx er :
  wf_system s ->
  zlookup (entries (vmem s)) (req_pageno (vmem s)) = Some er ->
  frame er = VOID_IDX ->
  0 <= idx < VMEM_NFRAMES ->
  frame_free (vmem s) idx ->
  served s (map_page idx er
              (bump_pf_count (with_event (set_ev_replaced_page VOID_IDX (event s)) s)))
    idx.
Proof.
  intros Hwf Her Hvoid Hi Hfree.
  destruct (wf_layout _ Hwf) as (Hle & Hlf & Hld).
  split; [done|]. split; [|repeat split; simpl; try done; try apply Hwf].
  - split; [done|]. split; [simpl; by rewrite length_zinsert|].
    intros p e He. simpl. case_decide as Hreq.
    + subst p. assert (e = er) as -> by congruence.
      exists (set_frame idx er).
      rewrite zlookup_zinsert_eq by (by apply zlookup_Some_range in Her).
      split; [done|]. split; [done|]. by apply (wf_ages _ Hwf _ _ Her).
    + exists e. rewrite zlookup_zinsert_ne by done.
      split; [done|]. split; [|by apply (wf_ages _ Hwf _ _ He)].
      case_decide as Hidx; [|done].
      exfalso. by apply (free_frame_unmapped s idx p e).
  - by rewrite length_zinsert.
  - by rewrite length_zinsert.
Qed.

Lemma allocate_page_evict_served s idx s1 e1 er :
  wf_system s ->
  zlookup (entries (vmem s)) (req_pageno (vmem s)) = Some er ->
  frame er = VOID_IDX ->
  evicted (bump_pf_count s) idx s1 ->
  zlookup (entries (vmem s1)) (req_pageno (vmem s)) = Some e1 ->
  served s (map_page idx (set_frame idx e1) (loaded idx e1 s1)) idx.
Proof.
  intros Hwf Her Hvoid Hev He1. pose proof void_idx_neg. pose proof pagesize_pos.
  destruct (wf_layout _ Hwf) as (Hle & Hlf & Hld).
  destruct Hev as (victim & e & Hi & [Hp He] & Hnxt & Hreq & Hpf & Hg & Halgo & Hfp
                   & Hdata & Hsem & Hlen & Hent & Hcur & Hevent & Hpagefile & Htrace).
  simpl in *.
  pose proof (zlookup_Some_range _ _ _ Her) as Hreqr.
  pose proof (zlookup_Some_range _ _ _ He) as Hvr.
  assert (Z.of_nat (length (pagefile s1)) = VMEM_NPAGES * VMEM_PAGESIZE) as Hpf1.
  { rewrite Hpagefile.
    rewrite length_written_back; try done; try apply Hwf; simpl; lia. }
  destruct (proj1 (wf_consistent _ Hwf) idx victim Hp) as (ev' & Hev' & Hfv).
  { apply (zlookup_Some_range) in He. lia. }
  assert (ev' = e) as -> by congruence.
  split; [done|]. split; [|repeat split; simpl; try done; try lia].
  - split; [simpl; by rewrite Hreq, Hfp|].
    split; [simpl; rewrite !length_zinsert; lia|].
    intros p e0 He0. simpl. rewrite Hreq, zinsert_zinsert_eq.
    destruct (Hent _ _ He0) as (e0' & He0' & Hf0 & _ & Ha0).
    destruct (decide (p = req_pageno (vmem s))) as [->|Hr].
    + exists (set_frame idx (set_frame idx e1)).
      rewrite zlookup_zinsert_eq by (by apply zlookup_Some_range in He1).
      split; [done|]. split; [done|].
      simpl. assert (e0' = e1) as -> by congruence. done.
    + exists e0'. rewrite zlookup_zinsert_ne by done.
      split; [done|]. split; [|done]. rewrite Hf0.
      destruct (decide (p = victim)) as [->|Hv].
      * assert (e0 = e) as -> by congruence. by rewrite decide_True.
      * destruct (decide (frame e0 = idx)) as [Hidx|]; [|done]. exfalso. apply Hv.
        assert (frame e0 <> VOID_IDX) as Hne by lia.
        pose proof (proj2 (wf_consistent _ Hwf) p e0 He0 Hne) as Hq.
        rewrite Hidx in Hq. congruence.
  - rewrite !length_zinsert. lia.
  - rewrite length_zinsert, Hfp. done.
  - rewrite length_load_data; try done; rewrite ?Hdata, ?Hreq; try done; lia.
  - intros a Ha. rewrite Hreq, <- Hdata.
    apply zlookup_zblit_out; try lia.
    + rewrite (length_swap_cells s1 _ Hpf1) by lia. rewrite Hdata. nia.
    + rewrite (length_swap_cells s1 _ Hpf1) by lia. lia.
Qed.

Lemma allocate_page_served s :
  wf_system s -> fault_pending s ->
  returns mmanage.allocate_page s (fun _ s' => exists idx, served s s' idx).
Proof.
  intros Hwf Hpend. pose proof Hpend as (er & Her & Hvoid).
  destruct (wf_layout _ Hwf) as (Hle & Hlf & Hld).
  pose proof (find_free_frame_spec s Hlf) as Hfind.
  apply returns_Ok in Hfind.
  destruct Hfind as (idx & s1 & _ & [(-> & -> & Hnone)|(Hi & Hfree & Hleast & ->)]).
  - eapply returns_mono.
    { apply allocate_page_evict; try done. by apply no_free_all_occupied. }
    intros _ s' (idx & s1 & e1 & _ & Hev & He1 & _ & ->).
    exists idx. by apply (allocate_page_evict_served s idx s1 e1 er).
  - eapply returns_mono; [by apply (allocate_page_free s idx er)|].
    intros _ s' ->. exists idx. by apply allocate_page_free_served.
Qed.

(** The two ways a fault is served. *)
Lemma allocate_page_cases s er :
  wf_system s ->
  zlookup (entries (vmem s)) (req_pageno (vmem s)) = Some er ->
  frame er = VOID_IDX ->
  exists s', mmanage.allocate_page s = Ok tt s' /\
    ((exists idx, 0 <= idx < VMEM_NFRAMES /\ frame_free (vmem s) idx /\
        (forall j, 0 <= j < idx -> ~ frame_free (vmem s) j) /\
        s' = map_page idx er
               (bump_pf_count
                  (with_event (set_ev_replaced_page VOID_IDX (event s)) s))) \/
     (all_occupied (vmem s) /\
      exists idx s1 e1,
        mmanage.find_remove_frame (bump_pf_count s) = Ok idx s1 /\
        evicted (bump_pf_count s) idx s1 /\
        zlookup (entries (vmem s1)) (req_pageno (vmem s)) = Some e1 /\
        frame e1 = VOID_IDX /\
        s' = map_page idx (set_frame idx e1) (loaded idx e1 s1))).
Proof.
  intros Hwf Her Hvoid.
  destruct (wf_layout _ Hwf) as (Hle & Hlf & Hld).
  pose proof (find_free_frame_spec s Hlf) as Hfind.
  apply returns_Ok in Hfind.
  destruct Hfind as (idx & s1 & _ & [(-> & -> & Hnone)|(Hi & Hfree & Hleast & ->)]).
  - assert (all_occupied (vmem s)) as Hocc by (by apply no_free_all_occupied).
    pose proof (allocate_page_evict s Hwf ltac:(by exists er) Hocc) as Hrun.
    apply returns_Ok in Hrun. destruct Hrun as ([] & s' & Hrun & Hs').
    exists s'. split; [done|]. by right.
  - pose proof (allocate_page_free s idx er Hwf Her Hi Hfree Hleast) as Hrun.
    apply returns_Ok in Hrun. destruct Hrun as ([] & s' & Hrun & ->).
    eexists. split; [done|]. left. by exists idx.
Qed.

Lemma frame_cells_loaded idx e1 er s1 :
  Z.of_nat (length (data (vmem s1))) = VMEM_NFRAMES * VMEM_PAGESIZE ->
  Z.of_nat (length (pagefile s1)) = VMEM_NPAGES * VMEM_PAGESIZE ->
  0 <= idx < VMEM_NFRAMES -> 0 <= req_pageno (vmem s1) < VMEM_NPAGES ->
  frame_cells (vmem (map_page idx er (loaded idx e1 s1))) idx =
  swap_cells s1 (req_pageno (vmem s1)).
Proof.
  intros Hd Hpf Hi Hreq. pose proof pagesize_pos.
  pose proof (length_swap_cells s1 _ Hpf Hreq) as Hlen.
  unfold frame_cells. simpl.
  apply zslice_zblit_same; [done|nia|nia].
Qed.

(** ** The claims about the manager *)

(** C1: after every completed fault handling the frame table and the
    [frame] fields of the page table agree: for every occupied frame [i],
    holding page [p], the entry of [p] names [i] and no other entry does, and
    no two entries name the same frame. The handler completes whenever a fault
    is pending in a state that satisfies the invariant. *)
Theorem fault_keeps_tables_consistent s :
  wf_system s -> fault_pending s ->
  exists s', mmanage.allocate_page s = Ok tt s' /\
    (forall i p, zlookup (framepage (vmem s')) i = Some p -> p <> VOID_IDX ->
       (exists e, zlookup (entries (vmem s')) p = Some e /\ frame e = i) /\
       (forall q e, zlookup (entries (vmem s')) q = Some e -> frame e = i -> q = p)) /\
    (forall q1 q2 e1 e2,
       zlookup (entries (vmem s')) q1 = Some e1 ->
       zlookup (entries (vmem s')) q2 = Some e2 ->
       frame e1 <> VOID_IDX -> frame e1 = frame e2 -> q1 = q2).
Proof.
  intros Hwf Hpend. pose proof void_idx_neg.
  pose proof (allocate_page_served s Hwf Hpend) as Hs.
  apply returns_Ok in Hs. destruct Hs as ([] & s' & Hrun & idx & Hserved).
  exists s'. split; [done|].
  destruct Hpend as (er & Her & Hvoid).
  destruct Hserved as (Hi & Hremap & _).
  assert (consistent (vmem s')) as [Hc1 Hc2].
  { apply (consistent_remapped (vmem s) (vmem s') idx er); try done; [apply Hwf|].
    destruct (wf_layout _ Hwf) as (_ & Hlf & _). lia. }
  split.
  - intros i p Hp Hpv. split; [by apply Hc1|].
    intros q e He Hf.
    assert (frame e <> VOID_IDX) as Hne by (apply zlookup_Some_range in Hp; lia).
    pose proof (Hc2 q e He Hne) as Hq. rewrite Hf in Hq. congruence.
  - intros q1 q2 e1 e2 He1 He2 Hne Heq.
    pose proof (Hc2 q1 e1 He1 Hne) as Hq1.
    pose proof (Hc2 q2 e2 He2 ltac:(congruence)) as Hq2.
    rewrite <- Heq in Hq2. congruence.
Qed.

(** C2: on every fault the handler increments the fault counter and takes
    the free frame of smallest index if there is one, without invoking a
    policy and without reading the page file; only when no frame is free it
    invokes the replacement policy, and then (and only then) the requested
    page is read from the page file into the chosen frame. *)
Theorem fault_takes_lowest_free_frame s :
  wf_system s -> fault_pending s ->
  exists s' idx, mmanage.allocate_page s = Ok tt s' /\
    pf_count (vmem s') = wrap_int (pf_count (vmem s) + 1) /\
    zlookup (framepage (vmem s')) idx = Some (req_pageno (vmem s)) /\
    ((exists i, frame_free (vmem s) i) ->
       frame_free (vmem s) idx /\
       (forall j, 0 <= j < idx -> ~ frame_free (vmem s) j) /\
       fifo_current s' = fifo_current s /\
       next_alloc_idx (vmem s') = next_alloc_idx (vmem s) /\
       (forall p, p <> req_pageno (vmem s) ->
          zlookup (entries (vmem s')) p = zlookup (entries (vmem s)) p) /\
       data (vmem s') = data (vmem s) /\
       pagefile s' = pagefile s /\
       exists ev, trace s' = trace s ++ [EvLog ev; EvPost (vmem s')]) /\
    ((forall i, ~ frame_free (vmem s) i) ->
       exists s1, mmanage.find_remove_frame (bump_pf_count s) = Ok idx s1 /\
         frame_cells (vmem s') idx = swap_cells s1 (req_pageno (vmem s)) /\
         exists ev, trace s' =
           trace s1 ++ [EvFetch (req_pageno (vmem s)); EvLog ev; EvPost (vmem s')]).
Proof.
  intros Hwf (er & Her & Hvoid).
  destruct (wf_layout _ Hwf) as (Hle & Hlf & Hld).
  pose proof (zlookup_Some_range _ _ _ Her) as Hreq.
  destruct (allocate_page_cases s er Hwf Her Hvoid) as (s' & Hrun & Hcase).
  destruct Hcase as [(idx & Hi & Hfree & Hleast & ->)
                    |(Hocc & idx & s1 & e1 & Hfind & Hev & He1 & Hv1 & ->)].
  - eexists _, idx. split; [exact Hrun|]. simpl.
    split; [done|]. split; [apply zlookup_zinsert_eq; lia|]. split.
    + intros _. repeat split; try done.
      * intros p Hp. by apply zlookup_zinsert_ne.
      * by eexists.
    + intros Hnone. exfalso. by apply (Hnone idx).
  - destruct Hev as (victim & e & Hi & [Hp He] & Hnxt & Hreq1 & Hpf & Hg & Halgo & Hfp
                     & Hdata & Hsem & Hlen & Hent & Hcur & Hevent & Hpagefile & Htrace).
    simpl in *.
    assert (Z.of_nat (length (pagefile s1)) = VMEM_NPAGES * VMEM_PAGESIZE) as Hpf1.
    { rewrite Hpagefile. apply zlookup_Some_range in He.
      rewrite length_written_back; try done; try apply Hwf; simpl; lia. }
    eexists _, idx. split; [exact Hrun|]. simpl.
    split; [done|]. split.
    { rewrite Hreq1, Hfp. apply zlookup_zinsert_eq. lia. }
    split.
    + intros [i Hfree]. exfalso. by apply (Hocc i VOID_IDX).
    + intros _. exists s1. split; [done|]. split.
      * rewrite <- Hreq1. apply frame_cells_loaded; try done; rewrite ?Hdata, ?Hreq1; lia.
      * eexists. rewrite Hreq1, <- app_assoc. done.
Qed.

(** C3: whichever of the three policies is active, an eviction writes the
    victim back to the page file exactly when its DIRTY flag is set, and does
    so before the frame is filled with the requested page; the entry of the
    victim is then marked not resident. *)
Theorem eviction_writes_back_iff_dirty s :
  wf_system s -> fault_pending s -> all_occupied (vmem s) ->
  exists s' idx victim e e',
    mmanage.allocate_page s = Ok tt s' /\
    page_in (vmem s) idx victim e /\
    (exists ev,
       trace s' = trace s ++
         (if flag_set (flags e) PTF_DIRTY
          then [EvStore victim (frame_cells (vmem s) idx)] else []) ++
         [EvFetch (req_pageno (vmem s)); EvLog ev; EvPost (vmem s')]) /\
    (if flag_set (flags e) PTF_DIRTY
     then swap_cells s' victim = frame_cells (vmem s) idx
     else pagefile s' = pagefile s) /\
    zlookup (entries (vmem s')) victim = Some e' /\
    frame e' = VOID_IDX /\
    zlookup (framepage (vmem s')) idx = Some (req_pageno (vmem s)).
Proof.
  intros Hwf (er & Her & Hvoid) Hocc. pose proof void_idx_neg. pose proof pagesize_pos.
  destruct (wf_layout _ Hwf) as (Hle & Hlf & Hld).
  pose proof (zlookup_Some_range _ _ _ Her) as Hreq.
  destruct (allocate_page_cases s er Hwf Her Hvoid) as (s' & Hrun & Hcase).
  destruct Hcase as [(idx & Hi & Hfree & _)
                    |(_ & idx & s1 & e1 & Hfind & Hev & He1 & Hv1 & ->)].
  { exfalso. by apply (Hocc idx VOID_IDX). }
  destruct Hev as (victim & e & Hi & [Hp He] & Hnxt & Hreq1 & Hpf & Hg & Halgo & Hfp
                   & Hdata & Hsem & Hlen & Hent & Hcur & Hevent & Hpagefile & Htrace).
  simpl in *.
  pose proof (zlookup_Some_range _ _ _ He) as Hvr.
  destruct (proj1 (wf_consistent _ Hwf) idx victim Hp (Hocc _ _ Hp)) as (ev' & Hev' & Hfv).
  assert (ev' = e) as -> by congruence.
  assert (victim <> req_pageno (vmem s)) as Hne.
  { intros ->. assert (er = e) as -> by congruence. lia. }
  destruct (Hent _ _ He) as (e' & He' & Hf' & _).
  rewrite decide_True in Hf' by done.
  eexists _, idx, victim, e, e'. split; [exact Hrun|]. simpl.
  split; [done|]. split; [|split; [|split; [|split]]].
  - eexists. rewrite Htrace, Hreq1.
    destruct (flag_set (flags e) PTF_DIRTY); simpl; by rewrite <- !app_assoc.
  - unfold swap_cells. simpl. rewrite Hpagefile.
    destruct (flag_set (flags e) PTF_DIRTY); simpl; [|done].
    pose proof (length_frame_cells (vmem s) idx Hld Hi) as Hfc.
    pose proof (wf_pagefile _ Hwf).
    apply zslice_zblit_same; [done|nia|nia].
  - rewrite Hreq1, zinsert_zinsert_eq. by rewrite zlookup_zinsert_ne.
  - done.
  - rewrite Hreq1, Hfp. apply zlookup_zinsert_eq. lia.
Qed.

(** C9: in every fault-handling episode the page table (the frame table
    slot and the [frame] field of the requested page) and the contents of the
    frame are complete before the semaphore is released: the release is the
    last thing the handler does, the segment it publishes is the final one, and
    it happens exactly once. *)
Theorem release_after_update_exactly_once s :
  wf_system s -> fault_pending s ->
  exists s' idx evs e',
    mmanage.allocate_page s = Ok tt s' /\
    sem s' = sem s + 1 /\
    trace s' = trace s ++ evs ++ [EvPost (vmem s')] /\
    (forall v, EvPost v ∉ evs) /\
    zlookup (framepage (vmem s')) idx = Some (req_pageno (vmem s)) /\
    zlookup (entries (vmem s')) (req_pageno (vmem s)) = Some e' /\
    frame e' = idx /\
    (all_occupied (vmem s) ->
       frame_cells (vmem s') idx = swap_cells s' (req_pageno (vmem s))).
Proof.
  intros Hwf (er & Her & Hvoid).
  destruct (wf_layout _ Hwf) as (Hle & Hlf & Hld).
  pose proof (zlookup_Some_range _ _ _ Her) as Hreq.
  destruct (allocate_page_cases s er Hwf Her Hvoid) as (s' & Hrun & Hcase).
  destruct Hcase as [(idx & Hi & Hfree & Hleast & ->)
                    |(Hocc & idx & s1 & e1 & Hfind & Hev & He1 & Hv1 & ->)].
  - eexists _, idx, [EvLog _], (set_frame idx er). split; [exact Hrun|]. simpl.
    split; [done|]. split; [done|]. split.
    { intros v Hin. apply list_elem_of_singleton in Hin. discriminate. }
    split; [apply zlookup_zinsert_eq; lia|].
    split; [apply zlookup_zinsert_eq; lia|]. split; [done|].
    intros Hocc. exfalso. by apply (Hocc idx VOID_IDX).
  - destruct Hev as (victim & e & Hi & [Hp He] & Hnxt & Hreq1 & Hpf & Hg & Halgo & Hfp
                     & Hdata & Hsem & Hlen & Hent & Hcur & Hevent & Hpagefile & Htrace).
    simpl in *.
    assert (Z.of_nat (length (pagefile s1)) = VMEM_NPAGES * VMEM_PAGESIZE) as Hpf1.
    { rewrite Hpagefile. apply zlookup_Some_range in He.
      rewrite length_written_back; try done; try apply Hwf; simpl; lia. }
    eexists _, idx,
      ((if flag_set (flags e) PTF_DIRTY
        then [EvStore victim (frame_cells (vmem s) idx)] else []) ++
       [EvFetch (req_pageno (vmem s)); EvLog _]),
      (set_frame idx (set_frame idx e1)).
    split; [exact Hrun|]. simpl.
    split; [by rewrite Hsem|]. split.
    { rewrite Htrace, Hreq1.
      destruct (flag_set (flags e) PTF_DIRTY); simpl; by rewrite <- !app_assoc. }
    split.
    { intros v Hin. apply elem_of_app in Hin. destruct Hin as [Hin|Hin].
      - destruct (flag_set (flags e) PTF_DIRTY).
        + apply list_elem_of_singleton in Hin. discriminate.
        + by apply not_elem_of_nil in Hin.
      - apply elem_of_cons in Hin. destruct Hin as [Hin|Hin]; [discriminate|].
        apply list_elem_of_singleton in Hin. discriminate. }
    split; [rewrite Hreq1, Hfp; apply zlookup_zinsert_eq; lia|].
    split.
    { rewrite Hreq1. apply zlookup_zinsert_eq. rewrite length_zinsert. lia. }
    split; [done|].
    intros _. transitivity (swap_cells s1 (req_pageno (vmem s1))); [|by rewrite Hreq1].
    apply (frame_cells_loaded idx e1 (set_frame idx e1) s1);
      try done; rewrite ?Hdata, ?Hreq1; lia.
Qed.

(** C4, as the code has it: with all frames occupied AGING picks a page
    whose age is smallest over all frames, and among the frames of that age
    the one of highest index (the scan replaces its candidate on [<=]); the
    age of the evicted page is reset to its initial value and the page is
    marked absent. *)
Theorem aging_picks_last_youngest s :
  wf_system s -> all_occupied (vmem s) ->
  exists idx s' victim e e',
    mmanage.find_remove_aging s = Ok idx s' /\
    0 <= idx < VMEM_NFRAMES /\
    page_in (vmem s) idx victim e /\
    (forall j aj, 0 <= j < VMEM_NFRAMES -> age_in (vmem s) j aj -> age e <= aj) /\
    (forall j aj, idx < j < VMEM_NFRAMES -> age_in (vmem s) j aj -> age e < aj) /\
    zlookup (entries (vmem s')) victim = Some e' /\
    age e' = age initial_entry /\
    frame e' = VOID_IDX.
Proof.
  intros Hwf Hocc.
  pose proof (find_remove_aging_spec s Hwf Hocc) as Hrun.
  apply returns_Ok in Hrun.
  destruct Hrun as (idx & s' & Hrun & victim & e & Hi & Hpe & Hmin & Hlast & ->).
  eexists idx, _, victim, e, (set_age 128 (set_frame VOID_IDX e)).
  split; [exact Hrun|]. repeat split; try done; try lia.
  - apply Hpe.
  - apply Hpe.
  - destruct Hpe as [_ He]. apply zlookup_Some_range in He.
    destruct (flag_set (flags e) PTF_DIRTY); simpl; by apply zlookup_zinsert_eq.
Qed.

(** C5: CLOCK never evicts a frame whose page is referenced when the cursor
    comes to it: the bit is cleared and the cursor moves on, in a circle; the
    victim is the first frame the cursor comes to whose page is not
    referenced at that moment. Within one lap that is the first frame whose
    bit is clear at the start; when the pages of all frames are referenced it
    is the frame the cursor came to first, after a full lap has cleared every
    bit. *)
Theorem clock_gives_second_chance s :
  wf_system s -> all_occupied (vmem s) ->
  (forall j, (1 <= j)%nat ->
     visit s j = (fifo_current s + Z.of_nat j) mod VMEM_NFRAMES) /\
  (forall k victim e,
     (1 <= k)%nat -> Z.of_nat k <= VMEM_NFRAMES ->
     (forall j, (1 <= j < k)%nat ->
        exists p e0, page_in (vmem s) (visit s j) p e0 /\
                     flag_set (flags e0) PTF_REF = true) ->
     page_in (vmem s) (visit s k) victim e ->
     flag_set (flags e) PTF_REF = false ->
     exists s' e',
       mmanage.find_remove_clock s = Ok (visit s k) s' /\
       fifo_current s' = visit s k /\
       zlookup (entries (vmem s')) victim = Some e' /\
       frame e' = VOID_IDX /\
       forall j, (1 <= j < k)%nat ->
         exists p e0 e1, page_in (vmem s) (visit s j) p e0 /\
           zlookup (entries (vmem s')) p = Some e1 /\
           flag_set (flags e1) PTF_REF = false /\
           frame e1 = frame e0 /\ frame e1 = visit s j) /\
  ((forall j, (1 <= j)%nat -> Z.of_nat j <= VMEM_NFRAMES ->
      exists p e0, page_in (vmem s) (visit s j) p e0 /\
                   flag_set (flags e0) PTF_REF = true) ->
   exists s' victim e',
     mmanage.find_remove_clock s = Ok (visit s 1) s' /\
     fifo_current s' = visit s 1 /\
     zlookup (framepage (vmem s)) (visit s 1) = Some victim /\
     zlookup (entries (vmem s')) victim = Some e' /\
     frame e' = VOID_IDX /\
     flag_set (flags e') PTF_REF = false /\
     forall j, (2 <= j)%nat -> Z.of_nat j <= VMEM_NFRAMES ->
       exists p e0 e1, page_in (vmem s) (visit s j) p e0 /\
         zlookup (entries (vmem s')) p = Some e1 /\
         flag_set (flags e1) PTF_REF = false /\
         frame e1 = frame e0 /\ frame e1 = visit s j).
Proof.
  intros Hwf Hocc. pose proof nframes_pos.
  assert (forall i j p e0 e1, (1 <= i)%nat -> (i < j)%nat -> Z.of_nat j <= VMEM_NFRAMES ->
            page_in (vmem s) (visit s i) p e0 -> page_in (vmem s) (visit s j) p e1 ->
            False) as Hdistinct.
  { intros i j p e0 e1 Hi Hij Hj Hpi Hpj.
    apply (visit_inj s i j); [apply Hwf|lia|lia|lia|].
    by apply (page_in_inj s _ _ p e0 e1 Hwf Hocc). }
  assert (forall i p e0, (1 <= i)%nat -> Z.of_nat i <= VMEM_NFRAMES ->
            page_in (vmem s) (visit s i) p e0 -> frame e0 = visit s i) as Hframe.
  { intros i p e0 Hi Hi' [Hp He0].
    destruct (proj1 (wf_consistent _ Hwf) _ _ Hp (Hocc _ _ Hp)) as (e1 & He1 & Hf).
    congruence. }
  split; [|split].
  - intros j Hj. apply visit_mod; [apply Hwf|done].
  - intros k victim e Hk Hk' Hbefore Hpe Hclear.
    destruct k as [|m]; [lia|].
    assert (~ visited m s victim) as Hnv.
    { intros (j & Hj & Hpj).
      destruct (occupied_page_in s (visit s j) Hwf Hocc) as (p' & e' & [Hp' He'] & _).
      { apply visit_range; [apply Hwf|lia]. }
      assert (p' = victim) as -> by congruence.
      by apply (Hdistinct j (S m) victim e' e); try lia. }
    pose proof (clock_finish m s victim e e Hwf Hocc ltac:(lia)) as Hrun.
    apply returns_Ok in Hrun; [|intros j Hj; apply Hbefore; lia|done|by left|done].
    destruct Hrun as (idx & s' & Hrun & -> & l & [Hlen Hl] & ->).
    eexists _, (set_frame VOID_IDX e). split; [exact Hrun|].
    assert (0 <= victim < Z.of_nat (length l)) as Hvr.
    { rewrite Hlen. destruct Hpe as [_ He]. by apply zlookup_Some_range in He. }
    split; [by destruct (flag_set (flags e) PTF_DIRTY)|].
    split; [destruct (flag_set (flags e) PTF_DIRTY); simpl; by apply zlookup_zinsert_eq|].
    split; [done|].
    intros j Hj. destruct (Hbefore j Hj) as (p & e0 & Hp0 & Hr0).
    exists p, e0, (ref_cleared e0). split; [done|].
    assert (p <> victim) as Hne.
    { intros ->. by apply (Hdistinct j (S m) victim e0 e); try lia. }
    destruct (Hl p e0 (proj2 Hp0)) as (e1 & He1 & _ & Hv & _).
    rewrite (Hv ltac:(exists j; split; [lia|apply Hp0])) in He1.
    split; [destruct (flag_set (flags e) PTF_DIRTY); simpl;
            by rewrite zlookup_zinsert_ne|].
    split; [by apply ref_cleared_ref|]. split; [done|].
    simpl. apply (Hframe j p e0); [lia|lia|done].
  - intros Hall.
    destruct (Hall 1%nat) as (victim & e & Hpe & Hr); [lia|lia|].
    pose proof (clock_finish (Z.to_nat VMEM_NFRAMES) s victim e (ref_cleared e)
                  Hwf Hocc ltac:(lia)) as Hrun.
    apply returns_Ok in Hrun.
    + destruct Hrun as (idx & s' & Hrun & -> & l & [Hlen Hl] & ->).
      rewrite visit_full_lap in * by apply Hwf.
      eexists _, victim, (set_frame VOID_IDX (ref_cleared e)). split; [exact Hrun|].
      assert (0 <= victim < Z.of_nat (length l)) as Hvr.
      { rewrite Hlen. destruct Hpe as [_ He]. by apply zlookup_Some_range in He. }
      split; [by destruct (flag_set (flags (ref_cleared e)) PTF_DIRTY)|].
      split; [apply Hpe|].
      split; [destruct (flag_set (flags (ref_cleared e)) PTF_DIRTY); simpl;
              by apply zlookup_zinsert_eq|].
      split; [done|]. split; [by apply ref_cleared_ref|].
      intros j Hj Hj'. destruct (Hall j) as (p & e0 & Hp0 & Hr0); [lia|lia|].
      exists p, e0, (ref_cleared e0). split; [done|].
      assert (p <> victim) as Hne.
      { intros ->. by apply (Hdistinct 1%nat j victim e e0); try lia. }
      destruct (Hl p e0 (proj2 Hp0)) as (e1 & He1 & _ & Hv & _).
      rewrite (Hv ltac:(exists j; split; [lia|apply Hp0])) in He1.
      split; [destruct (flag_set (flags (ref_cleared e)) PTF_DIRTY); simpl;
              by rewrite zlookup_zinsert_ne|].
      split; [by apply ref_cleared_ref|]. split; [done|].
      simpl. apply (Hframe j p e0); [lia|lia|done].
    + intros j Hj. apply Hall; lia.
    + rewrite visit_full_lap by apply Hwf. done.
    + right. split; [|done]. exists 1%nat. split; [lia|apply Hpe].
    + by apply ref_cleared_ref.
Qed.

End allocator.

(** ** The address translator *)

Global Arguments returns : simpl never.

Section translator.
Context {h : vmem_h} {Hok : vmem_h_ok h}.

Lemma offset_of_mod address :
  vmaccess.offset_of address = address mod VMEM_PAGESIZE.
Proof.
  unfold vmaccess.offset_of. destruct pagesize_pow2 as (k & Hk & ->).
  replace (2 ^ k - 1) with (Z.ones k) by (rewrite Z.ones_equiv; lia).
  by apply Z.land_ones.
Qed.

Lemma page_index_of_div address :
  vmaccess.page_index_of address = address / VMEM_PAGESIZE.
Proof.
  unfold vmaccess.page_index_of. destruct pagesize_pow2 as (k & Hk & ->).
  replace (2 ^ k - 1) with (Z.ones k) by (rewrite Z.ones_equiv; lia).
  rewrite <- Z.ldiff_land, Z.ldiff_ones_r by done.
  rewrite Z.shiftl_mul_pow2, Z.shiftr_div_pow2 by done.
  apply Z.quot_mul. assert (0 < 2 ^ k) by (apply Z.pow_pos_nonneg; lia). lia.
Qed.

Lemma page_index_range address :
  0 <= address < VMEM_NPAGES * VMEM_PAGESIZE <->
  0 <= vmaccess.page_index_of address < VMEM_NPAGES.
Proof.
  rewrite page_index_of_div. pose proof pagesize_pos.
  assert (VMEM_PAGESIZE <> 0) as Hnz by lia.
  pose proof (Z.div_mod address VMEM_PAGESIZE Hnz).
  pose proof (Z.mod_pos_bound address VMEM_PAGESIZE H).
  split; intros; nia.
Qed.

(** [frame * VMEM_PAGESIZE | offset] is the sum: the offset lies below the
    bits of the frame. *)
Lemma physical_address f off :
  0 <= off < VMEM_PAGESIZE ->
  Z.lor (f * VMEM_PAGESIZE) off = f * VMEM_PAGESIZE + off.
Proof.
  destruct pagesize_pow2 as (k & Hk & ->). intros Hoff.
  rewrite <- Z.shiftl_mul_pow2 by done.
  assert (Z.land (Z.shiftl f k) off = 0) as Hland.
  { apply Z.bits_inj'. intros n Hn. rewrite Z.land_spec, Z.bits_0.
    destruct (Z.lt_ge_cases n k).
    + by rewrite Z.shiftl_spec_low.
    + rewrite andb_comm. destruct (Z.eq_dec off 0) as [->|]; [by rewrite Z.bits_0|].
      assert (Z.log2 off < k) by (apply Z.log2_lt_pow2; lia).
      rewrite Z.bits_above_log2; [done|lia|lia]. }
  by rewrite (Z.add_nocarry_lxor _ _ Hland), (Z.lxor_lor _ _ Hland).
Qed.

(** The invariant does not look at flags, counters or the requested page. *)
Lemma wf_with_entries s l :
  wf_system s -> length l = length (entries (vmem s)) ->
  (forall q e, zlookup (entries (vmem s)) q = Some e ->
     exists e', zlookup l q = Some e' /\ frame e' = frame e /\ 0 <= age e' < 256) ->
  wf_system (upd_vmem (with_entries l) s).
Proof.
  intros [Hlay [Hc1 Hc2] Hages Hcur Hpf Hsem] Hlen Hl.
  split; simpl; try done.
  - destruct Hlay as (? & ? & ?). repeat split; simpl; try done. by rewrite Hlen.
  - split; simpl.
    + intros i p Hp Hpv. destruct (Hc1 i p Hp Hpv) as (e & He & Hf).
      destruct (Hl _ _ He) as (e' & He' & Hf' & _). exists e'. split; [done|congruence].
    + intros q e' He' Hf'.
      destruct (zlookup_in_range (entries (vmem s)) q) as [e He].
      { apply zlookup_Some_range in He'. lia. }
      destruct (Hl _ _ He) as (e'' & He'' & Hf'' & _).
      assert (e'' = e') as -> by congruence.
      rewrite Hf''. apply Hc2; [done|congruence].
  - intros p e' He'. simpl in He'.
    destruct (zlookup_in_range (entries (vmem s)) p) as [e He].
    { apply zlookup_Some_range in He'. lia. }
    destruct (Hl _ _ He) as (e'' & He'' & _ & Ha). congruence.
Qed.

Lemma wf_with_entry s q e f :
  wf_system s -> zlookup (entries (vmem s)) q = Some e ->
  frame (f e) = frame e -> 0 <= age (f e) < 256 ->
  wf_system (upd_vmem (with_entries (zinsert q (f e) (entries (vmem s)))) s).
Proof.
  intros Hwf He Hf Ha. apply wf_with_entries; [done|by rewrite length_zinsert|].
  intros p e0 He0. destruct (decide (p = q)) as [->|Hne].
  - assert (e0 = e) as -> by congruence. exists (f e).
    rewrite zlookup_zinsert_eq by (by apply zlookup_Some_range in He). done.
  - exists e0. rewrite zlookup_zinsert_ne by done.
    split; [done|]. split; [done|]. by apply (wf_ages _ Hwf p).
Qed.

Lemma wf_with_req_pageno s r : wf_system s -> wf_system (upd_vmem (with_req_pageno r) s).
Proof. intros []. by split. Qed.

Lemma wf_with_g_count s (f : vmem_struct -> Z) :
  wf_system s -> wf_system (upd_vmem (fun m => with_g_count (f m) m) s).
Proof. intros []. by split. Qed.

Lemma wf_with_data s d :
  wf_system s -> length d = length (data (vmem s)) ->
  wf_system (upd_vmem (with_data d) s).
Proof.
  intros [Hlay ? ? ? ? ?] Hd. split; try done.
  destruct Hlay as (? & ? & ?). repeat split; simpl; try done. by rewrite Hd.
Qed.

(** *** The decay pass of AGING *)

Lemma update_age_reset_ref_unfold :
  vmaccess.update_age_reset_ref =
  (g <- gets (fun s => g_count (vmem s));;
   if Z.rem g UPDATE_AGE_COUNT =? 0
   then for_loop (Z.to_nat VMEM_NFRAMES) 0 decay_body
   else ret tt).
Proof. reflexivity. Qed.

Lemma decayed_frame e : frame (decayed e) = frame e.
Proof. unfold decayed. by destruct (flag_set (flags e) PTF_REF). Qed.

Lemma decayed_count e : count (decayed e) = count e.
Proof. unfold decayed. by destruct (flag_set (flags e) PTF_REF). Qed.

Lemma decayed_age_range e : 0 <= age (decayed e) < 256.
Proof.
  unfold decayed. destruct (flag_set (flags e) PTF_REF); simpl; apply to_uchar_range.
Qed.

Lemma quot2_range a : 0 <= a < 256 -> 0 <= Z.quot a 2 < 128.
Proof.
  intros Ha. rewrite Z.quot_div_nonneg by lia.
  split; [apply Z.div_pos; lia|apply Z.div_lt_upper_bound; lia].
Qed.

(** The age is halved, and the top bit is set when the page was referenced. *)
Lemma decayed_age e :
  0 <= age e < 256 ->
  age (decayed e) =
  if flag_set (flags e) PTF_REF then age e / 2 + 128 else age e / 2.
Proof.
  intros Ha. pose proof (quot2_range _ Ha) as Hq.
  unfold decayed. destruct (flag_set (flags e) PTF_REF); simpl.
  - rewrite (to_uchar_id (Z.quot (age e) 2)) by lia.
    rewrite to_uchar_top_bit by done. by rewrite Z.quot_div_nonneg by lia.
  - rewrite to_uchar_id by lia. by rewrite Z.quot_div_nonneg by lia.
Qed.

Lemma decayed_flags e :
  flags (decayed e) =
  if flag_set (flags e) PTF_REF then Z.lxor (flags e) PTF_REF else flags e.
Proof. unfold decayed. by destruct (flag_set (flags e) PTF_REF). Qed.

Lemma decay_body_occupied i p e s :
  zlookup (framepage (vmem s)) i = Some p -> p <> VOID_IDX ->
  zlookup (entries (vmem s)) p = Some e ->
  returns (decay_body i) s (fun _ s' =>
    s' = upd_vmem (with_entries (zinsert p (decayed e) (entries (vmem s)))) s).
Proof.
  intros Hp Hpv He. pose proof (zlookup_Some_range _ _ _ He) as Hr.
  unfold decay_body.
  apply returns_bind. eapply returns_rd_framepage; [exact Hp|].
  replace (p =? VOID_IDX) with false by (symmetry; by apply Z.eqb_neq).
  simpl negb. cbv iota.
  apply returns_bind. eapply returns_rd_entry; [exact He|].
  apply returns_bind. eapply returns_wr_entry; [exact He|].
  unfold decayed.
  change (Z.land (flags e) PTF_REF =? PTF_REF) with (flag_set (flags e) PTF_REF).
  destruct (flag_set (flags e) PTF_REF).
  - apply returns_bind. eapply returns_wr_entry.
    { simpl. by apply zlookup_zinsert_eq. }
    eapply returns_wr_entry.
    { simpl. apply zlookup_zinsert_eq. by rewrite length_zinsert. }
    simpl. unfold upd_vmem, with_entries. simpl. by rewrite !zinsert_zinsert_eq.
  - apply returns_ret. done.
Qed.

Lemma decay_body_free i s :
  zlookup (framepage (vmem s)) i = Some VOID_IDX ->
  returns (decay_body i) s (fun _ s' => s' = s).
Proof.
  intros Hp. unfold decay_body.
  apply returns_bind. eapply returns_rd_framepage; [exact Hp|].
  rewrite Z.eqb_refl. by apply returns_ret.
Qed.

Lemma upd_entries_id s : upd_vmem (with_entries (entries (vmem s))) s = s.
Proof. by destruct s as [[] ? ? ? ? ?]. Qed.

Lemma decay_pass_spec s :
  wf_system s ->
  returns (for_loop (Z.to_nat VMEM_NFRAMES) 0 decay_body) s (fun _ s' =>
    exists l, s' = upd_vmem (with_entries l) s /\
      length l = length (entries (vmem s)) /\
      forall p e, zlookup (entries (vmem s)) p = Some e ->
        zlookup l p = Some (if decide (frame e = VOID_IDX) then e else decayed e)).
Proof.
  intros Hwf. pose proof void_idx_neg. pose proof nframes_pos.
  destruct (wf_layout _ Hwf) as (Hle & Hlf & Hld).
  destruct (wf_consistent _ Hwf) as [Hc1 Hc2].
  apply (returns_for_loop (fun i s0 =>
    exists l, s0 = upd_vmem (with_entries l) s /\
      length l = length (entries (vmem s)) /\
      forall p e, zlookup (entries (vmem s)) p = Some e ->
        zlookup l p =
        Some (if decide (frame e <> VOID_IDX /\ frame e < i) then decayed e else e))).
  - exists (entries (vmem s)). split; [by rewrite upd_entries_id|]. split; [done|].
    intros p e He. rewrite decide_False; [done|].
    intros [Hne Hlt]. pose proof (Hc2 p e He Hne) as Hq.
    apply zlookup_Some_range in Hq. lia.
  - intros i s0 Hi (l & -> & Hlen & Hl).
    destruct (zlookup_in_range (framepage (vmem s)) i) as [p Hp]; [lia|].
    destruct (decide (p = VOID_IDX)) as [->|Hpv].
    + eapply returns_mono; [by apply decay_body_free|].
      intros _ s1 ->. exists l. split; [done|]. split; [done|].
      intros q e He. rewrite (Hl q e He).
      destruct (decide (frame e = i)) as [Hfi|Hfi].
      * exfalso. assert (frame e <> VOID_IDX) as Hne by lia.
        pose proof (Hc2 q e He Hne) as Hq. rewrite Hfi in Hq.
        apply zlookup_Some_range in He. assert (q = VOID_IDX) by congruence. lia.
      * f_equal. repeat case_decide; try done; lia.
    + destruct (Hc1 i p Hp Hpv) as (e & He & Hf).
      assert (zlookup l p = Some e) as Hlp.
      { rewrite (Hl p e He). rewrite decide_False; [done|]. lia. }
      eapply returns_mono; [by apply (decay_body_occupied i p e)|].
      intros _ s1 ->. exists (zinsert p (decayed e) l).
      split; [done|]. split; [by rewrite length_zinsert|].
      intros q e0 He0. destruct (decide (q = p)) as [->|Hne].
      * assert (e0 = e) as -> by congruence.
        rewrite zlookup_zinsert_eq by (by apply zlookup_Some_range in Hlp).
        rewrite decide_True; [done|]. lia.
      * rewrite zlookup_zinsert_ne by done. rewrite (Hl q e0 He0).
        assert (frame e0 <> i) as Hfi.
        { intros Hfi. assert (frame e0 <> VOID_IDX) as Hne0 by lia.
          pose proof (Hc2 q e0 He0 Hne0) as Hq. rewrite Hfi in Hq. congruence. }
        f_equal. repeat case_decide; try done; lia.
  - intros s1 (l & -> & Hlen & Hl). exists l. split; [done|]. split; [done|].
    intros p e He. rewrite (Hl p e He). f_equal.
    destruct (decide (frame e = VOID_IDX)) as [Hv|Hv].
    + rewrite decide_False; [done|]. tauto.
    + rewrite decide_True; [done|]. split; [done|].
      pose proof (Hc2 p e He Hv) as Hq. apply zlookup_Some_range in Hq. lia.
Qed.

Lemma wf_decay_pass s l :
  wf_system s -> length l = length (entries (vmem s)) ->
  (forall p e, zlookup (entries (vmem s)) p = Some e ->
     zlookup l p = Some (if decide (frame e = VOID_IDX) then e else decayed e)) ->
  wf_system (upd_vmem (with_entries l) s).
Proof.
  intros Hwf Hlen Hl. apply wf_with_entries; try done.
  intros q e He. rewrite (Hl q e He). eexists. split; [done|].
  case_decide.
  - split; [done|]. by apply (wf_ages _ Hwf q).
  - split; [apply decayed_frame|apply decayed_age_range].
Qed.

(** *** A fault as the client sees it *)

Lemma wf_emit ev s : wf_system s -> wf_system (emit ev s).
Proof. intros []. by split. Qed.

Lemma fault_round_trip s :
  wf_system s -> fault_pending s ->
  returns (vmaccess.kill_SIGUSR1;; vmaccess.sem_wait) s (fun _ s' =>
    exists idx, woken s s' idx).
Proof.
  intros Hwf Hpend. pose proof Hpend as (er & Her & Hvoid).
  pose proof (allocate_page_served (emit EvKill s) (wf_emit _ _ Hwf) Hpend) as Hrun.
  apply returns_Ok in Hrun. destruct Hrun as ([] & s1 & Hrun & idx & Hserved).
  apply returns_bind. unfold returns at 1, vmaccess.kill_SIGUSR1. rewrite Hrun.
  destruct Hserved as (Hi & Hremap & Hlay & Hcur & Hpf & Hsem & Hreq & Hg & Halgo
                       & Hpfc & Hdata).
  simpl in *.
  unfold returns, vmaccess.sem_wait. rewrite Hsem, (wf_sem _ Hwf). simpl.
  exists idx.
  refine (conj _ (conj Hi (conj Hremap (conj Hreq (conj Hg (conj Halgo Hdata)))))).
  split; simpl; try done.
  - apply (consistent_remapped (vmem s) (vmem s1) idx er); try done; [apply Hwf|].
    destruct (wf_layout _ Hwf) as (_ & Hlf & _). lia.
  - intros p e' He'. destruct Hremap as (_ & Hlen & Hent).
    destruct (zlookup_in_range (entries (vmem s)) p) as [e He].
    { apply zlookup_Some_range in He'. lia. }
    destruct (Hent _ _ He) as (e'' & He'' & _ & Ha). congruence.
Qed.

Lemma resident_frame_range s q e :
  wf_system s -> zlookup (entries (vmem s)) q = Some e -> frame e <> VOID_IDX ->
  0 <= frame e < VMEM_NFRAMES.
Proof.
  intros Hwf He Hne. pose proof (proj2 (wf_consistent _ Hwf) q e He Hne) as Hq.
  apply zlookup_Some_range in Hq. destruct (wf_layout _ Hwf) as (_ & Hlf & _). lia.
Qed.

Lemma fault_if_absent s e :
  wf_system s ->
  zlookup (entries (vmem s)) (req_pageno (vmem s)) = Some e ->
  returns (if frame e =? VOID_IDX
           then vmaccess.kill_SIGUSR1;; vmaccess.sem_wait else ret tt) s
    (fun _ s' => exists f, made_resident s s' f).
Proof.
  intros Hwf He. pose proof void_idx_neg. pose proof pagesize_pos.
  destruct (Z.eqb_spec (frame e) VOID_IDX) as [Hv|Hv].
  - eapply returns_mono; [apply fault_round_trip; [done|by exists e]|].
    intros _ s' (idx & Hwf' & Hi & (Hfp & Hlen & Hent) & Hreq & Hg & Halgo & Hdata).
    exists idx.
    refine (conj Hwf' (conj Hi (conj Hreq (conj Hg (conj Halgo (conj _ _)))))).
    + destruct (Hent _ _ He) as (e' & He' & Hf & _).
      exists e'. split; [done|]. by rewrite Hf, decide_True.
    + intros q e0 He0 Hne0.
      destruct (Hent _ _ He0) as (e' & He' & Hf & _).
      exists e'. split; [done|].
      assert (q <> req_pageno (vmem s)) as Hq by (intros ->; congruence).
      rewrite decide_False in Hf by done.
      destruct (decide (frame e0 = idx)) as [Hidx|Hidx].
      * split; [by right|]. intros Hsame. congruence.
      * split; [by left|]. intros _ off Hoff. apply Hdata.
        pose proof (resident_frame_range s q e0 Hwf He0 Hne0). nia.
  - apply returns_ret. exists (frame e).
    pose proof (resident_frame_range s _ e Hwf He Hv).
    refine (conj Hwf (conj _ (conj eq_refl (conj eq_refl (conj eq_refl (conj _ _))))));
      [done|by exists e|].
    intros q e0 He0 Hne0. exists e0. split; [done|]. split; [by left|done].
Qed.

(** *** [vmem_read] and [vmem_write] *)

Lemma update_age_reset_ref_spec s :
  wf_system s ->
  exists s', vmaccess.update_age_reset_ref s = Ok tt s' /\
    wf_system s' /\
    data (vmem s') = data (vmem s) /\
    forall q e, zlookup (entries (vmem s)) q = Some e ->
      exists e', zlookup (entries (vmem s')) q = Some e' /\ frame e' = frame e.
Proof.
  intros Hwf. rewrite update_age_reset_ref_unfold. unfold bind, gets.
  destruct (Z.rem (g_count (vmem s)) UPDATE_AGE_COUNT =? 0).
  - pose proof (decay_pass_spec s Hwf) as Hrun. apply returns_Ok in Hrun.
    destruct Hrun as ([] & s' & Hrun & l & -> & Hlen & Hl).
    eexists. split; [exact Hrun|]. split; [by apply wf_decay_pass|]. split; [done|].
    intros q e He. simpl. rewrite (Hl q e He). eexists. split; [done|].
    case_decide; [done|apply decayed_frame].
  - exists s. split; [done|]. split; [done|]. split; [done|].
    intros q e He. by exists e.
Qed.

Lemma aging_hook_spec s1 :
  wf_system s1 ->
  returns
    (match page_rep_algo (vmem s1) with
     | VMEM_ALGO_AGING => vmaccess.update_age_reset_ref
     | _ => ret tt
     end) s1 (fun _ s' => aged s1 s').
Proof.
  intros Hwf. unfold aged.
  destruct (page_rep_algo (vmem s1)).
  - apply returns_ret. split; [done|]. split; [done|]. split; [done|].
    intros q e He. by exists e.
  - apply returns_ret. split; [done|]. split; [done|]. split; [done|].
    intros q e He. by exists e.
  - destruct (update_age_reset_ref_spec s1 Hwf) as (s' & Hrun & Hrest).
    apply returns_Ok. exists tt, s'. by split.
Qed.

Lemma vmem_read_spec address s :
  wf_system s -> 0 <= address < VMEM_NPAGES * VMEM_PAGESIZE ->
  returns (vmaccess.vmem_read address) s (fun v s' =>
    exists s1 f, read_done s address s1 f v /\ aged s1 s').
Proof.
  intros Hwf Ha. pose proof pagesize_pos as Hps. pose proof physmem_bound.
  pose proof (proj1 (page_index_range address) Ha) as Hp.
  destruct (wf_layout _ Hwf) as (Hle & Hlf & Hld).
  destruct (zlookup_in_range (entries (vmem s)) (vmaccess.page_index_of address))
    as [e He]; [lia|].
  assert (0 <= address mod VMEM_PAGESIZE < VMEM_PAGESIZE) as Hoff
    by (by apply Z.mod_pos_bound).
  unfold vmaccess.vmem_read, vmaccess.vmem_init.
  do 4 (vstep; simpl). rewrite He. simpl.
  vsteps; [apply ltb_false; lia|apply geb_false; lia|].
  eapply returns_wr_entry; [exact He|]. simpl.
  apply returns_bind, returns_ret.
  set (e0 := set_flags (Z.lor PTF_REF (flags e)) e).
  set (s0 := upd_vmem (with_entries _) _).
  assert (wf_system s0) as Hwf0.
  { apply (wf_with_entry
             (upd_vmem (with_req_pageno (vmaccess.page_index_of address)) s)
             (vmaccess.page_index_of address) e
             (fun e => set_flags (Z.lor PTF_REF (flags e)) e)).
    - by apply wf_with_req_pageno.
    - exact He.
    - done.
    - apply (wf_ages _ Hwf _ e He). }
  assert (zlookup (entries (vmem s0)) (req_pageno (vmem s0)) = Some e0) as He0.
  { simpl. apply zlookup_zinsert_eq. lia. }
  apply returns_bind. eapply returns_mono.
  { apply (fault_if_absent s0 e0 Hwf0 He0). }
  intros _ s2 (f & Hwf2 & Hf & Hreq2 & Hg2 & Halgo2 & (e2 & He2 & Hf2) & Hkept).
  simpl in Hreq2, Hg2, Halgo2, He2.
  destruct (wf_layout _ Hwf2) as (Hle2 & Hlf2 & Hld2).
  apply returns_bind. eapply returns_rd_entry; [exact He2|].
  rewrite Hf2, offset_of_mod, physical_address by done.
  destruct (zlookup_in_range (data (vmem s2))
              (f * VMEM_PAGESIZE + address mod VMEM_PAGESIZE)) as [v Hv]; [nia|].
  apply returns_bind. eapply returns_rd_data; [exact Hv|].
  vsteps; [apply ltb_false; nia|apply geb_false; nia|].
  set (s1 := upd_vmem _ s2).
  assert (wf_system s1) as Hwf1 by (by apply wf_with_g_count).
  apply returns_bind.
  eapply returns_mono; [apply (aging_hook_spec s1 Hwf1)|].
  intros [] s' Haged. apply returns_ret.
  exists s1, f. split; [|done].
  split; [done|]. split; [done|]. split; [simpl; by rewrite Hg2|].
  split; [simpl; by rewrite Halgo2|]. split.
  { exists e2. rewrite <- page_index_of_div. by split. }
  split; [done|].
  intros q eq Heq Hne. simpl.
  destruct (decide (q = vmaccess.page_index_of address)) as [->|Hq].
  - assert (eq = e) as -> by congruence.
    apply (Hkept _ e0); [exact He0|done].
  - apply (Hkept q eq); [|done]. simpl. by rewrite zlookup_zinsert_ne.
Qed.

Lemma vmem_write_spec address v s :
  wf_system s -> 0 <= address < VMEM_NPAGES * VMEM_PAGESIZE ->
  returns (vmaccess.vmem_write address v) s (fun _ s' =>
    exists s1 f, write_done s address v s1 f /\ aged s1 s').
Proof.
  intros Hwf Ha. pose proof pagesize_pos as Hps. pose proof physmem_bound.
  pose proof void_idx_neg.
  pose proof (proj1 (page_index_range address) Ha) as Hp.
  destruct (wf_layout _ Hwf) as (Hle & Hlf & Hld).
  destruct (zlookup_in_range (entries (vmem s)) (vmaccess.page_index_of address))
    as [e He]; [lia|].
  assert (0 <= address mod VMEM_PAGESIZE < VMEM_PAGESIZE) as Hoff
    by (by apply Z.mod_pos_bound).
  unfold vmaccess.vmem_write, vmaccess.vmem_init.
  vsteps; [apply ltb_false; lia|apply geb_false; lia|].
  eapply returns_rd_entry; [exact He|]. simpl.
  apply returns_bind. eapply returns_wr_entry; [exact He|]. simpl.
  set (e0 := set_flags (Z.lor (Z.lor PTF_DIRTY PTF_REF) (flags e)) e).
  set (s0 := upd_vmem (with_entries _) _).
  assert (wf_system s0) as Hwf0.
  { apply (wf_with_entry
             (upd_vmem (with_req_pageno (vmaccess.page_index_of address)) s)
             (vmaccess.page_index_of address) e
             (fun e => set_flags (Z.lor (Z.lor PTF_DIRTY PTF_REF) (flags e)) e)).
    - by apply wf_with_req_pageno.
    - exact He.
    - done.
    - apply (wf_ages _ Hwf _ e He). }
  assert (zlookup (entries (vmem s0)) (req_pageno (vmem s0)) = Some e0) as He0.
  { simpl. apply zlookup_zinsert_eq. lia. }
  apply returns_bind. eapply returns_mono.
  { apply (fault_if_absent s0 e0 Hwf0 He0). }
  intros _ s2 (f & Hwf2 & Hf & Hreq2 & Hg2 & Halgo2 & (e2 & He2 & Hf2) & Hkept).
  simpl in Hreq2, Hg2, Halgo2, He2.
  destruct (wf_layout _ Hwf2) as (Hle2 & Hlf2 & Hld2).
  apply returns_bind. eapply returns_rd_entry; [exact He2|].
  rewrite Hf2, offset_of_mod, physical_address by done.
  set (page := f * VMEM_PAGESIZE + address mod VMEM_PAGESIZE).
  assert (0 <= page < Z.of_nat (length (data (vmem s2)))) as Hpage
    by (unfold page; nia).
  destruct (zlookup_in_range (data (vmem s2)) page) as [v0 Hv0]; [done|].
  vsteps; [apply ltb_false; lia|apply geb_false; unfold page; nia|].
  eapply returns_wr_data; [exact Hv0|]. simpl.
  vsteps.
  set (s1 := upd_vmem _ (upd_vmem _ s2)).
  assert (wf_system s1) as Hwf1.
  { apply wf_with_g_count, wf_with_data; [done|by rewrite length_zinsert]. }
  apply (aging_hook_spec s1) in Hwf1 as Hhook.
  eapply returns_mono; [exact Hhook|].
  intros [] s' Haged.
  exists s1, f. split; [|done].
  split; [done|]. split; [done|]. split; [simpl; by rewrite Hg2|].
  split; [simpl; by rewrite Halgo2|]. split.
  { exists e2. rewrite <- page_index_of_div. by split. }
  split; [simpl; by apply zlookup_zinsert_eq|].
  intros q eq Heq Hne. simpl.
  assert (exists e', zlookup (entries (vmem s2)) q = Some e' /\
            (frame e' = frame eq \/ frame e' = VOID_IDX) /\
            (frame e' = frame eq ->
             forall off, 0 <= off < VMEM_PAGESIZE ->
               zlookup (data (vmem s2)) (frame eq * VMEM_PAGESIZE + off) =
               zlookup (data (vmem s)) (frame eq * VMEM_PAGESIZE + off)))
    as (e' & He' & Hor & Hsame).
  { destruct (decide (q = vmaccess.page_index_of address)) as [->|Hq].
    - assert (eq = e) as -> by congruence.
      apply (Hkept _ e0); [exact He0|done].
    - apply (Hkept q eq); [|done]. simpl. by rewrite zlookup_zinsert_ne. }
  exists e'. split; [done|]. split; [done|].
  intros Hfe off Hoff' Haddr.
  rewrite zlookup_zinsert_ne; [by apply Hsame|].
  unfold page. intros Hcell.
  assert (f = frame eq /\ address mod VMEM_PAGESIZE = off) as [-> Hoffeq].
  { apply (cell_inj VMEM_PAGESIZE); [done|done|]. exact Hcell. }
  assert (q = vmaccess.page_index_of address) as ->.
  { pose proof (proj2 (wf_consistent _ Hwf2) q e' He' ltac:(congruence)) as Hq1.
    pose proof (proj2 (wf_consistent _ Hwf2) _ e2 He2 ltac:(congruence)) as Hq2.
    rewrite Hfe in Hq1. rewrite Hf2 in Hq2. congruence. }
  apply Haddr. rewrite page_index_of_div, <- Hoffeq.
  assert (VMEM_PAGESIZE <> 0) as Hnz by lia.
  pose proof (Z.div_mod address VMEM_PAGESIZE Hnz). lia.
Qed.

(** *** Addresses outside the virtual memory *)

Lemma vmem_write_out_of_range address v s :
  ~ (0 <= address < VMEM_NPAGES * VMEM_PAGESIZE) ->
  vmaccess.vmem_write address v s = Exit s.
Proof.
  intros Ha. rewrite page_index_range in Ha.
  unfold vmaccess.vmem_write, vmaccess.vmem_init, bind, ret, TEST_AND_EXIT.
  destruct (Z.ltb_spec (vmaccess.page_index_of address) 0); [done|].
  rewrite Z.geb_leb.
  destruct (Z.leb_spec VMEM_NPAGES (vmaccess.page_index_of address)); [done|lia].
Qed.

(** [vmem_read] has stored the page number when it leaves; for an index far
    outside the table this is the model's account only (see [vmem_read]), and
    it is used for nothing but to tell that such a read does not return. *)
Lemma vmem_read_out_of_range address s :
  ~ (0 <= address < VMEM_NPAGES * VMEM_PAGESIZE) ->
  vmaccess.vmem_read address s =
  Exit (upd_vmem (with_req_pageno (vmaccess.page_index_of address)) s).
Proof.
  intros Ha. rewrite page_index_range in Ha.
  unfold vmaccess.vmem_read, vmaccess.vmem_init, bind, ret, gets, modify, TEST_AND_EXIT.
  destruct (Z.ltb_spec (vmaccess.page_index_of address) 0); [done|].
  rewrite Z.geb_leb.
  destruct (Z.leb_spec VMEM_NPAGES (vmaccess.page_index_of address)); [done|lia].
Qed.

(** *** Write, then read *)

Lemma holds_after_write address v s s' :
  wf_system s -> 0 <= address < VMEM_NPAGES * VMEM_PAGESIZE ->
  vmaccess.vmem_write address v s = Ok tt s' ->
  holds address v s'.
Proof.
  intros Hwf Ha Hrun. pose proof void_idx_neg.
  pose proof (vmem_write_spec address v s Hwf Ha) as Hspec.
  unfold returns in Hspec. rewrite Hrun in Hspec.
  destruct Hspec as (s1 & f & (Hwf1 & Hf & _ & _ & (e1 & He1 & Hf1) & Hv & _)
                     & (_ & Hwf' & Hdata & Hframes)).
  split; [done|].
  destruct (Hframes _ _ He1) as (e' & He' & Hfe').
  exists e'. split; [done|]. split; [lia|]. by rewrite Hdata, Hfe', Hf1.
Qed.

Lemma holds_step address v op s s' :
  holds address v s ->
  writes_to address op = false ->
  do_access op s = Ok tt s' ->
  resident (address / VMEM_PAGESIZE) s' = true ->
  holds address v s'.
Proof.
  intros (Hwf & e & He & Hne & Hv) Hnw Hrun Hres.
  pose proof pagesize_pos as Hps.
  assert (0 <= address mod VMEM_PAGESIZE < VMEM_PAGESIZE) as Hoff
    by (by apply Z.mod_pos_bound).
  assert (exists s1,
            (exists e1, zlookup (entries (vmem s1)) (address / VMEM_PAGESIZE) = Some e1 /\
               (frame e1 = frame e \/ frame e1 = VOID_IDX) /\
               (frame e1 = frame e ->
                zlookup (data (vmem s1))
                  (frame e * VMEM_PAGESIZE + address mod VMEM_PAGESIZE) = Some v)) /\
            aged s1 s') as (s1 & (e1 & He1 & Hor & Hsame) & (_ & Hwf' & Hdata & Hframes)).
  { destruct op as [b|b w]; simpl in Hrun, Hnw.
    - destruct (decide (0 <= b < VMEM_NPAGES * VMEM_PAGESIZE)) as [Hb|Hb].
      + pose proof (vmem_read_spec b s Hwf Hb) as Hspec.
        unfold returns in Hspec. unfold bind in Hrun.
        destruct (vmaccess.vmem_read b s) as [v' s''| | | |]; try done.
        injection Hrun as <-.
        destruct Hspec as (s1 & f & (_ & _ & _ & _ & _ & _ & Hkept) & Haged).
        exists s1. split; [|done].
        destruct (Hkept _ e He Hne) as (e1 & He1 & Hor & Hsame).
        exists e1. split; [done|]. split; [done|].
        intros Hfe. by rewrite Hsame.
      + unfold bind in Hrun. by rewrite vmem_read_out_of_range in Hrun.
    - destruct (decide (0 <= b < VMEM_NPAGES * VMEM_PAGESIZE)) as [Hb|Hb].
      + pose proof (vmem_write_spec b w s Hwf Hb) as Hspec.
        unfold returns in Hspec. rewrite Hrun in Hspec.
        destruct Hspec as (s1 & f & (_ & _ & _ & _ & _ & _ & Hkept) & Haged).
        exists s1. split; [|done].
        destruct (Hkept _ e He Hne) as (e1 & He1 & Hor & Hsame).
        exists e1. split; [done|]. split; [done|].
        intros Hfe. rewrite Hsame; try done.
        apply Z.eqb_neq in Hnw.
        assert (VMEM_PAGESIZE <> 0) as Hnz by lia.
        pose proof (Z.div_mod address VMEM_PAGESIZE Hnz). lia.
      + by rewrite vmem_write_out_of_range in Hrun. }
  split; [done|].
  destruct (Hframes _ _ He1) as (e' & He' & Hfe').
  unfold resident in Hres. rewrite He' in Hres.
  apply negb_true_iff, Z.eqb_neq in Hres.
  assert (frame e1 = frame e) as Hkeep by (destruct Hor; congruence).
  exists e'. split; [done|]. split; [done|].
  rewrite Hdata, Hfe', Hkeep. by apply Hsame.
Qed.

Lemma holds_run address v ops s s' :
  holds address v s ->
  run_keeping (address / VMEM_PAGESIZE) address ops s = Some s' ->
  holds address v s'.
Proof.
  revert s. induction ops as [|op ops IH]; intros s Hh Hrun; simpl in Hrun.
  - by injection Hrun as <-.
  - destruct (writes_to address op) eqn:Hnw; [done|].
    destruct (do_access op s) as [[] s1| | | |] eqn:Hop; try done.
    destruct (resident (address / VMEM_PAGESIZE) s1) eqn:Hres; [|done].
    apply (IH s1); [|done]. by apply (holds_step address v op s s1).
Qed.

Lemma read_what_holds address v s :
  holds address v s -> 0 <= address < VMEM_NPAGES * VMEM_PAGESIZE ->
  exists s', vmaccess.vmem_read address s = Ok v s'.
Proof.
  intros (Hwf & e & He & Hne & Hv) Ha. pose proof void_idx_neg.
  pose proof (vmem_read_spec address s Hwf Ha) as Hspec.
  apply returns_Ok in Hspec.
  destruct Hspec as (v' & s' & Hrun & s1 & f & (_ & Hf & _ & _ & (e1 & He1 & Hf1) & Hv'
                     & Hkept) & _).
  exists s'. rewrite Hrun. f_equal.
  destruct (Hkept _ e He Hne) as (e1' & He1' & Hor & Hsame).
  assert (e1' = e1) as -> by congruence.
  assert (frame e1 = frame e) as Hkeep by (destruct Hor; lia).
  rewrite <- Hf1, Hkeep, Hsame in Hv'; [|done|].
  - congruence.
  - apply Z.mod_pos_bound, pagesize_pos.
Qed.

(** Every access that returns keeps the invariant. *)
Lemma do_access_wf op s s' :
  wf_system s -> do_access op s = Ok tt s' -> wf_system s'.
Proof.
  intros Hwf Hrun. destruct op as [b|b w]; simpl in Hrun.
  - destruct (decide (0 <= b < VMEM_NPAGES * VMEM_PAGESIZE)) as [Hb|Hb].
    + pose proof (vmem_read_spec b s Hwf Hb) as Hspec.
      unfold returns in Hspec. unfold bind in Hrun.
      destruct (vmaccess.vmem_read b s) as [v' s''| | | |]; try done.
      injection Hrun as <-.
      by destruct Hspec as (s1 & f & _ & (_ & Hwf' & _)).
    + unfold bind in Hrun. by rewrite vmem_read_out_of_range in Hrun.
  - destruct (decide (0 <= b < VMEM_NPAGES * VMEM_PAGESIZE)) as [Hb|Hb].
    + pose proof (vmem_write_spec b w s Hwf Hb) as Hspec.
      unfold returns in Hspec. rewrite Hrun in Hspec.
      by destruct Hspec as (s1 & f & _ & (_ & Hwf' & _)).
    + by rewrite vmem_write_out_of_range in Hrun.
Qed.

Lemma do_accesses_wf ops s s' :
  wf_system s -> do_accesses ops s = Ok tt s' -> wf_system s'.
Proof.
  revert s. induction ops as [|op ops IH]; intros s Hwf Hrun; simpl in Hrun.
  - by injection Hrun as <-.
  - unfold bind in Hrun.
    destruct (do_access op s) as [[] s1| | | |] eqn:Hop; try done.
    apply (IH s1); [|done]. by apply (do_access_wf op s).
Qed.

(** The manager has started: the invariant holds. *)
Lemma main_init_wf shmid pid arg s :
  layout (vmem s) ->
  Z.of_nat (length (pagefile s)) = VMEM_NPAGES * VMEM_PAGESIZE ->
  -1 <= fifo_current s < VMEM_NFRAMES ->
  returns (mmanage.main_init shmid pid arg) s (fun _ s' =>
    wf_system s' /\
    page_rep_algo (vmem s') = default VMEM_ALGO_FIFO arg /\
    (forall p, 0 <= p < VMEM_NPAGES ->
       zlookup (entries (vmem s')) p = Some initial_entry) /\
    (forall i, 0 <= i < VMEM_NFRAMES ->
       zlookup (framepage (vmem s')) i = Some VOID_IDX) /\
    pf_count (vmem s') = pf_count (vmem s) /\
    g_count (vmem s') = g_count (vmem s) /\
    sem s' = 0).
Proof.
  intros Hlay Hpf Hcur. pose proof void_idx_neg.
  unfold mmanage.main_init.
  apply returns_bind. eapply returns_mono; [by apply vmem_init_spec|].
  intros [] s1 (Hlay1 & Hent & Hfp & Hpfc & Hg & Halgo & Hreq & Hnxt & Hdata & Hsem
                & Hcur1 & Hev & Hpf1 & Htr).
  apply returns_bind, returns_modify.
  assert (forall a, wf_system (upd_vmem (with_page_rep_algo a) s1)) as Hwf.
  { intros a. destruct Hlay1 as (Hle & Hlf & Hld).
    split; simpl; try done; try congruence.
    - split; simpl.
      + intros i p Hp Hpv. pose proof (zlookup_Some_range _ _ _ Hp).
        rewrite Hfp in Hp by lia. congruence.
      + intros q e He Hf. pose proof (zlookup_Some_range _ _ _ He).
        rewrite Hent in He by lia. injection He as <-. done.
    - intros p e He. simpl in He. pose proof (zlookup_Some_range _ _ _ He).
      rewrite Hent in He by lia. injection He as <-. simpl. lia. }
  destruct arg as [a|]; [apply returns_modify|apply returns_ret]; simpl;
    (split; [apply Hwf|by repeat split]).
Qed.

(** ** The claims about the translator *)

(** C6: when AGING is active every read and every write counts one access
    and then calls the decay pass, which runs exactly when the access counter
    is a multiple of the constant [UPDATE_AGE_COUNT]. A pass halves the age of
    every resident page; where the page was referenced it also sets the top
    bit of the age and clears REFERENCED. Pages that are not resident, and
    everything but the page table, are unchanged. *)
Theorem aging_decay_pass s :
  wf_system s ->
  (Z.rem (g_count (vmem s)) UPDATE_AGE_COUNT <> 0 ->
   vmaccess.update_age_reset_ref s = Ok tt s) /\
  (Z.rem (g_count (vmem s)) UPDATE_AGE_COUNT = 0 ->
   exists l, vmaccess.update_age_reset_ref s = Ok tt (upd_vmem (with_entries l) s) /\
     length l = length (entries (vmem s)) /\
     forall p e, zlookup (entries (vmem s)) p = Some e ->
       exists e', zlookup l p = Some e' /\
         frame e' = frame e /\ count e' = count e /\
         (frame e = VOID_IDX -> e' = e) /\
         (frame e <> VOID_IDX -> flag_set (flags e) PTF_REF = true ->
            age e' = Z.lor (age e / 2) 128 /\
            flag_set (flags e') PTF_REF = false /\
            flag_set (flags e') PTF_DIRTY = flag_set (flags e) PTF_DIRTY) /\
         (frame e <> VOID_IDX -> flag_set (flags e) PTF_REF = false ->
            age e' = age e / 2 /\ flags e' = flags e)) /\
  (page_rep_algo (vmem s) = VMEM_ALGO_AGING ->
   forall address, 0 <= address < VMEM_NPAGES * VMEM_PAGESIZE ->
     (exists v s1 s', vmaccess.vmem_read address s = Ok v s' /\
        g_count (vmem s1) = wrap_int (g_count (vmem s) + 1) /\
        vmaccess.update_age_reset_ref s1 = Ok tt s') /\
     (forall v, exists s1 s', vmaccess.vmem_write address v s = Ok tt s' /\
        g_count (vmem s1) = wrap_int (g_count (vmem s) + 1) /\
        vmaccess.update_age_reset_ref s1 = Ok tt s')).
Proof.
  intros Hwf. split; [|split].
  - intros Hrem. rewrite update_age_reset_ref_unfold. unfold bind, gets.
    by replace (_ =? 0) with false by (symmetry; by apply Z.eqb_neq).
  - intros Hrem. rewrite update_age_reset_ref_unfold. unfold bind, gets.
    rewrite Hrem. simpl.
    pose proof (decay_pass_spec s Hwf) as Hrun. apply returns_Ok in Hrun.
    destruct Hrun as ([] & s' & Hrun & l & -> & Hlen & Hl).
    exists l. split; [exact Hrun|]. split; [done|].
    intros p e He. rewrite (Hl p e He). eexists. split; [done|].
    pose proof (wf_ages _ Hwf p e He) as Ha.
    case_decide as Hv.
    + repeat split; try done.
    + split; [apply decayed_frame|]. split; [apply decayed_count|].
      split; [done|]. split.
      * intros _ Hr. rewrite decayed_age, decayed_flags, Hr by done.
        split; [|split].
        -- apply top_bit_lor. split; [apply Z.div_pos; lia|].
           apply Z.div_lt_upper_bound; lia.
        -- fold (ref_cleared e). by apply ref_cleared_ref.
        -- fold (ref_cleared e). apply ref_cleared_dirty.
      * intros _ Hr. by rewrite decayed_age, decayed_flags, Hr.
  - intros Halgo address Ha. split.
    + pose proof (vmem_read_spec address s Hwf Ha) as Hspec.
      apply returns_Ok in Hspec.
      destruct Hspec as (v & s' & Hrun & s1 & f & (_ & _ & Hg & Halgo1 & _) & (Haged & _)).
      rewrite Halgo1, Halgo in Haged. by exists v, s1, s'.
    + intros v.
      pose proof (vmem_write_spec address v s Hwf Ha) as Hspec.
      apply returns_Ok in Hspec.
      destruct Hspec as ([] & s' & Hrun & s1 & f & (_ & _ & Hg & Halgo1 & _) & (Haged & _)).
      rewrite Halgo1, Halgo in Haged. by exists s1, s'.
Qed.

(** C7, with the side condition the claim leaves out: for every valid
    address the two masks compute the offset [address mod VMEM_PAGESIZE] and
    the page number [address / VMEM_PAGESIZE]; a write of [v] returns, and a
    later read of the same address returns [v], after any sequence of reads
    and writes that return, do not write to this address and do not evict its
    page. *)
Theorem write_then_read address v s :
  wf_system s -> 0 <= address < VMEM_NPAGES * VMEM_PAGESIZE ->
  vmaccess.offset_of address = address mod VMEM_PAGESIZE /\
  vmaccess.page_index_of address = address / VMEM_PAGESIZE /\
  exists s1, vmaccess.vmem_write address v s = Ok tt s1 /\
    forall ops s2,
      run_keeping (vmaccess.page_index_of address) address ops s1 = Some s2 ->
      exists s3, vmaccess.vmem_read address s2 = Ok v s3.
Proof.
  intros Hwf Ha. split; [apply offset_of_mod|]. split; [apply page_index_of_div|].
  pose proof (vmem_write_spec address v s Hwf Ha) as Hspec.
  apply returns_Ok in Hspec. destruct Hspec as ([] & s1 & Hrun & _).
  exists s1. split; [done|]. intros ops s2 Hops.
  rewrite page_index_of_div in Hops.
  apply read_what_holds; [|done].
  apply (holds_run address v ops s1); [|done].
  by apply (holds_after_write address v s).
Qed.

End translator.

(** * Further properties of the code *)

(** ** Page transfers *)

Section pagefile_props.
Context {h : vmem_h} {Hok : vmem_h_ok h}.

Lemma store_page_to_pagefile_run pt_idx frame_start s :
  0 <= pt_idx < VMEM_NPAGES ->
  0 <= frame_start -> frame_start + VMEM_PAGESIZE <= Z.of_nat (length (data (vmem s))) ->
  Z.of_nat (length (pagefile s)) = VMEM_NPAGES * VMEM_PAGESIZE ->
  pagefile.store_page_to_pagefile pt_idx frame_start s =
  Ok tt (emit (EvStore pt_idx (window (data (vmem s)) frame_start))
           (with_pagefile (zblit (pagefile s) (pt_idx * VMEM_PAGESIZE)
                             (window (data (vmem s)) frame_start)) s)).
Proof.
  intros Hp Hf0 Hf1 Hpf. pose proof pagesize_pos.
  unfold pagefile.store_page_to_pagefile, bind, TEST_AND_EXIT, gets, modify.
  rewrite ltb_false, geb_false by lia.
  replace (0 <=? frame_start) with true by (symmetry; apply Z.leb_le; lia).
  replace (frame_start + VMEM_PAGESIZE <=? _) with true by (symmetry; apply Z.leb_le; lia).
  simpl.
  replace (pt_idx * VMEM_PAGESIZE + VMEM_PAGESIZE <=? _) with true
    by (symmetry; apply Z.leb_le; nia).
  done.
Qed.

Lemma fetch_page_from_pagefile_run pt_idx frame_start s :
  0 <= pt_idx < VMEM_NPAGES ->
  0 <= frame_start -> frame_start + VMEM_PAGESIZE <= Z.of_nat (length (data (vmem s))) ->
  Z.of_nat (length (pagefile s)) = VMEM_NPAGES * VMEM_PAGESIZE ->
  pagefile.fetch_page_from_pagefile pt_idx frame_start s =
  Ok tt (emit (EvFetch pt_idx)
           (upd_vmem (with_data (zblit (data (vmem s)) frame_start
                                   (window (pagefile s) (pt_idx * VMEM_PAGESIZE)))) s)).
Proof.
  intros Hp Hf0 Hf1 Hpf. pose proof pagesize_pos.
  unfold pagefile.fetch_page_from_pagefile, bind, TEST_AND_EXIT, gets, modify.
  rewrite ltb_false, geb_false by lia. simpl.
  rewrite length_zslice by nia. rewrite Z.eqb_refl. simpl.
  replace (0 <=? frame_start) with true by (symmetry; apply Z.leb_le; lia).
  replace (frame_start + VMEM_PAGESIZE <=? _) with true by (symmetry; apply Z.leb_le; lia).
  done.
Qed.

Lemma length_window l i :
  0 <= i -> i + VMEM_PAGESIZE <= Z.of_nat (length l) ->
  Z.of_nat (length (window l i)) = VMEM_PAGESIZE.
Proof. intros. pose proof pagesize_pos. apply length_zslice; lia. Qed.

(** X1: a page stored from one place of the frame data and fetched to another
    arrives unchanged. *)
Theorem page_store_fetch_round_trip pt_idx src dst s :
  0 <= pt_idx < VMEM_NPAGES ->
  0 <= src -> src + VMEM_PAGESIZE <= Z.of_nat (length (data (vmem s))) ->
  0 <= dst -> dst + VMEM_PAGESIZE <= Z.of_nat (length (data (vmem s))) ->
  Z.of_nat (length (pagefile s)) = VMEM_NPAGES * VMEM_PAGESIZE ->
  exists s1 s2,
    pagefile.store_page_to_pagefile pt_idx src s = Ok tt s1 /\
    pagefile.fetch_page_from_pagefile pt_idx dst s1 = Ok tt s2 /\
    window (pagefile s1) (pt_idx * VMEM_PAGESIZE) = window (data (vmem s)) src /\
    window (data (vmem s2)) dst = window (data (vmem s)) src /\
    pagefile s2 = pagefile s1.
Proof.
  intros Hp Hs0 Hs1 Hd0 Hd1 Hpf. pose proof pagesize_pos.
  pose proof (length_window (data (vmem s)) src Hs0 Hs1) as Hw.
  eexists _, _. split; [by apply store_page_to_pagefile_run|].
  assert (window (zblit (pagefile s) (pt_idx * VMEM_PAGESIZE) (window (data (vmem s)) src))
            (pt_idx * VMEM_PAGESIZE) = window (data (vmem s)) src) as Hback.
  { apply zslice_zblit_same; [done|nia|nia]. }
  split.
  { apply fetch_page_from_pagefile_run; simpl; try done.
    rewrite length_zblit; [done|nia|nia]. }
  simpl. split; [done|]. split; [|done].
  rewrite Hback. apply zslice_zblit_same; [done|lia|lia].
Qed.

(** X2: an index that is no page number is fatal for both transfers, and nothing
    has been transferred; every other index is served. *)
Theorem page_transfer_bounds pt_idx frame_start s :
  0 <= frame_start -> frame_start + VMEM_PAGESIZE <= Z.of_nat (length (data (vmem s))) ->
  Z.of_nat (length (pagefile s)) = VMEM_NPAGES * VMEM_PAGESIZE ->
  (~ (0 <= pt_idx < VMEM_NPAGES) ->
     pagefile.store_page_to_pagefile pt_idx frame_start s = Exit s /\
     pagefile.fetch_page_from_pagefile pt_idx frame_start s = Exit s) /\
  (0 <= pt_idx < VMEM_NPAGES ->
     (exists s', pagefile.store_page_to_pagefile pt_idx frame_start s = Ok tt s') /\
     (exists s', pagefile.fetch_page_from_pagefile pt_idx frame_start s = Ok tt s')).
Proof.
  intros Hf0 Hf1 Hpf. split.
  - intros Hp.
    unfold pagefile.store_page_to_pagefile, pagefile.fetch_page_from_pagefile,
      bind, TEST_AND_EXIT.
    destruct (Z.ltb_spec pt_idx 0); [done|].
    rewrite Z.geb_leb. destruct (Z.leb_spec VMEM_NPAGES pt_idx); [done|lia].
  - intros Hp. split; eexists.
    + by apply store_page_to_pagefile_run.
    + by apply fetch_page_from_pagefile_run.
Qed.

(** X3: a store changes the cells of its page in the page file and nothing else;
    a fetch changes the cells of its frame and nothing else. *)
Theorem page_transfer_is_local pt_idx frame_start s :
  0 <= pt_idx < VMEM_NPAGES ->
  0 <= frame_start -> frame_start + VMEM_PAGESIZE <= Z.of_nat (length (data (vmem s))) ->
  Z.of_nat (length (pagefile s)) = VMEM_NPAGES * VMEM_PAGESIZE ->
  (exists s', pagefile.store_page_to_pagefile pt_idx frame_start s = Ok tt s' /\
     vmem s' = vmem s /\
     length (pagefile s') = length (pagefile s) /\
     forall c, ~ in_window (pt_idx * VMEM_PAGESIZE) c ->
       zlookup (pagefile s') c = zlookup (pagefile s) c) /\
  (exists s', pagefile.fetch_page_from_pagefile pt_idx frame_start s = Ok tt s' /\
     pagefile s' = pagefile s /\
     entries (vmem s') = entries (vmem s) /\
     framepage (vmem s') = framepage (vmem s) /\
     length (data (vmem s')) = length (data (vmem s)) /\
     forall c, ~ in_window frame_start c ->
       zlookup (data (vmem s')) c = zlookup (data (vmem s)) c).
Proof.
  intros Hp Hf0 Hf1 Hpf. pose proof pagesize_pos.
  pose proof (length_window (data (vmem s)) frame_start Hf0 Hf1) as Hw.
  assert (Z.of_nat (length (window (pagefile s) (pt_idx * VMEM_PAGESIZE)))
          = VMEM_PAGESIZE) as Hw' by (apply length_window; nia).
  split; eexists; (split; [by (apply store_page_to_pagefile_run
                               || apply fetch_page_from_pagefile_run)|]); simpl.
  - split; [done|]. split; [apply length_zblit; nia|].
    intros c Hc. apply zlookup_zblit_out; [nia|nia|]. unfold in_window in Hc. lia.
  - do 3 (split; [done|]). split; [apply length_zblit; lia|].
    intros c Hc. apply zlookup_zblit_out; [lia|lia|]. unfold in_window in Hc. lia.
Qed.

End pagefile_props.

(** ** The fault handler, from outside *)

Section allocator_props.
Context {h : vmem_h} {Hok : vmem_h_ok h}.

Lemma allocate_page_outcome s :
  wf_system s -> fault_pending s ->
  exists s' idx, mmanage.allocate_page s = Ok tt s' /\
    served s s' idx /\ fault_outcome s s' idx.
Proof.
  intros Hwf (er & Her & Hvoid). pose proof void_idx_neg.
  destruct (wf_layout _ Hwf) as (Hle & Hlf & Hld).
  pose proof (zlookup_Some_range _ _ _ Her) as Hreq.
  destruct (allocate_page_cases s er Hwf Her Hvoid) as (s' & Hrun & Hcase).
  destruct Hcase as [(idx & Hi & Hfree & Hleast & ->)
                    |(Hocc & idx & s1 & e1 & Hfind & Hev & He1 & Hv1 & ->)].
  - eexists _, idx. split; [exact Hrun|].
    split; [by apply allocate_page_free_served|].
    split; [|split; [done|left; by repeat split]].
    intros p e He. simpl.
    destruct (decide (p = req_pageno (vmem s))) as [->|Hp].
    + rewrite zlookup_zinsert_eq by lia. eexists. split; [done|].
      assert (e = er) as -> by congruence. done.
    + rewrite zlookup_zinsert_ne by done. by exists e.
  - eexists _, idx. split; [exact Hrun|].
    split; [by apply (allocate_page_evict_served s idx s1 e1 er)|].
    destruct Hev as (victim & e & Hi & [Hp He] & Hnxt & Hreq1 & Hpf & Hg & Halgo & Hfp
                     & Hdata & Hsem & Hlen & Hent & Hcur & Hevent & Hpagefile & Htrace).
    simpl in *.
    split; [|split].
    + intros p e0 He0. simpl. destruct (Hent _ _ He0) as (e1' & He1' & _ & Hd & _).
      rewrite Hreq1, zinsert_zinsert_eq.
      destruct (decide (p = req_pageno (vmem s))) as [->|Hpr].
      * rewrite zlookup_zinsert_eq by lia. eexists. split; [done|].
        assert (e1' = e1) as -> by congruence. done.
      * rewrite zlookup_zinsert_ne by done. by exists e1'.
    + simpl. by rewrite Hreq1, Hpf, Hg.
    + right. split; [done|]. exists victim, e. split; [done|]. simpl.
      split; [by rewrite Hevent|].
      split; [rewrite Hpagefile; by destruct (flag_set (flags e) PTF_DIRTY)|].
      split; [by rewrite Hdata, Hreq1|].
      rewrite Htrace, Hreq1, <- app_assoc.
      by destruct (flag_set (flags e) PTF_DIRTY).
Qed.

(** X4: [find_free_frame] answers [VOID_IDX] exactly when every frame is
    occupied; it reads the frame table and writes nothing but the field
    [replaced_page] of the record, which it resets when it has found a frame
    and leaves as the last fault set it when it has not. *)
Theorem find_free_frame_full_or_free s :
  Z.of_nat (length (framepage (vmem s))) = VMEM_NFRAMES ->
  exists idx s', mmanage.find_free_frame s = Ok idx s' /\
    vmem s' = vmem s /\ pagefile s' = pagefile s /\ trace s' = trace s /\
    fifo_current s' = fifo_current s /\ sem s' = sem s /\
    (idx = VOID_IDX <-> all_occupied (vmem s)) /\
    (idx = VOID_IDX -> event s' = event s) /\
    (idx <> VOID_IDX ->
       0 <= idx < VMEM_NFRAMES /\ frame_free (vmem s) idx /\
       event s' = set_ev_replaced_page VOID_IDX (event s)).
Proof.
  intros Hlf. pose proof void_idx_neg.
  pose proof (find_free_frame_spec s Hlf) as Hrun. apply returns_Ok in Hrun.
  destruct Hrun as (idx & s' & Hrun & [(-> & -> & Hnone)|(Hi & Hfree & Hleast & ->)]).
  - exists VOID_IDX, s. split; [done|]. do 5 (split; [done|]).
    split; [|split; [done|done]].
    split; [intros _; by apply no_free_all_occupied|done].
  - eexists idx, _. split; [exact Hrun|]. simpl. do 5 (split; [done|]).
    split; [|split; [lia|done]].
    split; [lia|]. intros Hocc. exfalso. by apply (Hocc idx VOID_IDX).
Qed.

(** X5: FIFO looks at no flag and no age: with all frames occupied the fault is
    served by the frame after the cursor, circularly, the cursor stops there,
    and the page that frame held is the one marked absent. *)
Theorem fifo_takes_next_frame s :
  wf_system s -> fault_pending s -> all_occupied (vmem s) ->
  page_rep_algo (vmem s) = VMEM_ALGO_FIFO ->
  exists s' victim e e',
    mmanage.allocate_page s = Ok tt s' /\
    page_in (vmem s) ((fifo_current s + 1) mod VMEM_NFRAMES) victim e /\
    fifo_current s' = (fifo_current s + 1) mod VMEM_NFRAMES /\
    zlookup (framepage (vmem s')) ((fifo_current s + 1) mod VMEM_NFRAMES)
    = Some (req_pageno (vmem s)) /\
    zlookup (entries (vmem s')) victim = Some e' /\
    frame e' = VOID_IDX /\ flags e' = flags e /\ age e' = age e.
Proof.
  intros Hwf (er & Her & Hvoid) Hocc Halgo. pose proof void_idx_neg.
  destruct (wf_layout _ Hwf) as (Hle & Hlf & Hld).
  pose proof (zlookup_Some_range _ _ _ Her) as Hreq.
  rewrite <- (advance_mod (fifo_current s)) by apply Hwf.
  pose proof (advance_range _ (wf_cursor _ Hwf)) as Hadv.
  destruct (occupied_page_in s _ Hwf Hocc Hadv) as (victim & e & Hpe & Hfe & Hv & _).
  destruct (allocate_page_cases s er Hwf Her Hvoid) as (s' & Hrun & Hcase).
  destruct Hcase as [(idx & Hi & Hfree & _)
                    |(_ & idx & s1 & e1 & Hfind & _ & He1 & Hv1 & ->)].
  { exfalso. by apply (Hocc idx VOID_IDX). }
  pose proof (find_remove_fifo_spec (bump_pf_count s) victim e
                (wf_bump_pf_count _ Hwf) Hpe) as Hfifo.
  apply returns_Ok in Hfifo. destruct Hfifo as (idx' & s1' & Hfifo & Hidx & Hs1).
  unfold mmanage.find_remove_frame, bind, gets in Hfind. simpl in Hfind.
  rewrite Halgo, Hfifo in Hfind. injection Hfind as -> ->.
  simpl in Hidx. subst idx. subst s1.
  assert (victim <> req_pageno (vmem s)) as Hne.
  { intros ->. destruct Hpe as [_ He]. assert (er = e) as -> by congruence. lia. }
  eexists _, victim, e, (set_frame VOID_IDX e).
  split; [exact Hrun|]. split; [done|].
  destruct (flag_set (flags e) PTF_DIRTY); simpl.
  - split; [done|]. split; [apply zlookup_zinsert_eq; lia|].
    split; [|done].
    rewrite zinsert_zinsert_eq, zlookup_zinsert_ne by done.
    apply zlookup_zinsert_eq. lia.
  - split; [done|]. split; [apply zlookup_zinsert_eq; lia|].
    split; [|done].
    rewrite zinsert_zinsert_eq, zlookup_zinsert_ne by done.
    apply zlookup_zinsert_eq. lia.
Qed.

(** X6: every fault hands one record to the logger, just before the semaphore
    is released: it names the requested page, the frame that now holds it, the
    fault count after this fault and the access count, and as replaced page
    [VOID_IDX] when a free frame was taken and the evicted page otherwise. *)
Theorem fault_is_logged s :
  wf_system s -> fault_pending s ->
  exists s' evs ev,
    mmanage.allocate_page s = Ok tt s' /\
    trace s' = trace s ++ evs ++ [EvLog ev; EvPost (vmem s')] /\
    (forall l, EvLog l ∉ evs) /\
    ev_req_pageno ev = req_pageno (vmem s) /\
    zlookup (framepage (vmem s')) (ev_alloc_frame ev) = Some (req_pageno (vmem s)) /\
    ev_pf_count ev = wrap_int (pf_count (vmem s) + 1) /\
    ev_g_count ev = g_count (vmem s) /\
    ((exists i, frame_free (vmem s) i) -> ev_replaced_page ev = VOID_IDX) /\
    (all_occupied (vmem s) ->
       exists e e', page_in (vmem s) (ev_alloc_frame ev) (ev_replaced_page ev) e /\
         zlookup (entries (vmem s')) (ev_replaced_page ev) = Some e' /\
         frame e' = VOID_IDX).
Proof.
  intros Hwf Hpend. pose proof void_idx_neg.
  destruct (wf_layout _ Hwf) as (Hle & Hlf & Hld).
  destruct (allocate_page_outcome s Hwf Hpend)
    as (s' & idx & Hrun & Hserved & Hdirty & Hevent & Hcase).
  destruct Hserved as (Hi & (Hfp & Hlen & Hent) & _ & _ & _ & _ & _ & _ & _ & Hpfc & _).
  destruct Hpend as (er & Her & Hvoid).
  assert (zlookup (framepage (vmem s')) idx = Some (req_pageno (vmem s))) as Hidx.
  { rewrite Hfp. apply zlookup_zinsert_eq. lia. }
  destruct Hcase as [(Hfree & _ & Hrep & _ & _ & _ & Htrace)
                    |(Hocc & victim & e & Hpe & Hrep & _ & _ & Htrace)].
  - exists s', [], (event s'). split; [exact Hrun|]. split; [done|].
    split; [intros l Hl; by apply not_elem_of_nil in Hl|].
    rewrite Hevent. simpl. do 4 (split; [done|]). split; [done|].
    intros Hocc. exfalso. by apply (Hocc idx VOID_IDX).
  - exists s',
      ((if flag_set (flags e) PTF_DIRTY
        then [EvStore victim (frame_cells (vmem s) idx)] else [])
       ++ [EvFetch (req_pageno (vmem s))]), (event s').
    split; [exact Hrun|]. split.
    { rewrite Htrace. destruct (flag_set (flags e) PTF_DIRTY); simpl;
        by rewrite <- ?app_assoc. }
    split.
    { intros l Hl. apply elem_of_app in Hl. destruct Hl as [Hl|Hl].
      - destruct (flag_set (flags e) PTF_DIRTY).
        + apply list_elem_of_singleton in Hl. discriminate.
        + by apply not_elem_of_nil in Hl.
      - apply list_elem_of_singleton in Hl. discriminate. }
    rewrite Hevent. simpl. do 4 (split; [done|]). split.
    { intros [i Hfree]. exfalso. by apply (Hocc i VOID_IDX). }
    intros _. rewrite Hrep.
    destruct Hpe as [Hp He].
    destruct (Hent _ _ He) as (e' & He' & Hf' & _).
    exists e, e'. split; [done|]. split; [done|].
    destruct (proj1 (wf_consistent _ Hwf) idx victim Hp (Hocc _ _ Hp)) as (e0 & He0 & Hf0).
    assert (e0 = e) as -> by congruence.
    assert (victim <> req_pageno (vmem s)) as Hne.
    { intros ->. assert (er = e) as -> by congruence. lia. }
    rewrite decide_False in Hf' by done. by rewrite decide_True in Hf'.
Qed.

End allocator_props.

(** ** The course of an access *)

Section translator_props.
Context {h : vmem_h} {Hok : vmem_h_ok h}.

Lemma fault_if_absent_run s0 e0 :
  wf_system s0 ->
  zlookup (entries (vmem s0)) (req_pageno (vmem s0)) = Some e0 ->
  returns (if frame e0 =? VOID_IDX
           then vmaccess.kill_SIGUSR1;; vmaccess.sem_wait else ret tt) s0
    (fun _ s2 => page_ready e0 s0 s2 /\ exists f, made_resident s0 s2 f).
Proof.
  intros Hwf He. apply returns_conj; [|by apply fault_if_absent].
  destruct (Z.eqb_spec (frame e0) VOID_IDX) as [Hv|Hv].
  - assert (fault_pending (emit EvKill s0)) as Hpend by (by exists e0).
    destruct (allocate_page_outcome _ (wf_emit EvKill _ Hwf) Hpend)
      as (s' & idx & Hrun & Hserved & Hout).
    unfold returns, bind, vmaccess.kill_SIGUSR1. rewrite Hrun.
    unfold vmaccess.sem_wait.
    assert (sem s' = 1) as Hsem.
    { destruct Hserved as (_ & _ & _ & _ & _ & Hsem & _). simpl in Hsem.
      rewrite Hsem, (wf_sem _ Hwf). done. }
    rewrite Hsem. simpl. unfold page_ready. rewrite decide_True by done.
    exists s', idx. unfold woke. by rewrite Hsem.
  - apply returns_ret. unfold page_ready. by rewrite decide_False.
Qed.

Lemma wf_touch fl p e s :
  wf_system s -> zlookup (entries (vmem s)) p = Some e ->
  wf_system (touch fl p e s).
Proof.
  intros Hwf He.
  apply (wf_with_entry (upd_vmem (with_req_pageno p) s) p e
           (fun e => set_flags (Z.lor fl (flags e)) e)).
  - by apply wf_with_req_pageno.
  - exact He.
  - done.
  - apply (wf_ages _ Hwf _ e He).
Qed.

Lemma vmem_read_run address s :
  wf_system s -> 0 <= address < VMEM_NPAGES * VMEM_PAGESIZE ->
  exists e s2 e2 v s',
    zlookup (entries (vmem s)) (address / VMEM_PAGESIZE) = Some e /\
    page_ready e (touch PTF_REF (address / VMEM_PAGESIZE) e s) s2 /\
    wf_system s2 /\
    zlookup (entries (vmem s2)) (address / VMEM_PAGESIZE) = Some e2 /\
    frame e2 <> VOID_IDX /\
    zlookup (data (vmem s2)) (frame e2 * VMEM_PAGESIZE + address mod VMEM_PAGESIZE)
    = Some v /\
    aged (count_access s2) s' /\
    vmaccess.vmem_read address s = Ok v s'.
Proof.
  intros Hwf Ha. pose proof pagesize_pos as Hps. pose proof physmem_bound.
  pose proof void_idx_neg.
  pose proof (proj1 (page_index_range address) Ha) as Hp.
  rewrite page_index_of_div in Hp.
  destruct (wf_layout _ Hwf) as (Hle & Hlf & Hld).
  destruct (zlookup_in_range (entries (vmem s)) (address / VMEM_PAGESIZE))
    as [e He]; [lia|].
  assert (0 <= address mod VMEM_PAGESIZE < VMEM_PAGESIZE) as Hoff
    by (by apply Z.mod_pos_bound).
  cut (returns (vmaccess.vmem_read address) s (fun v s' =>
         exists s2 e2,
           page_ready e (touch PTF_REF (address / VMEM_PAGESIZE) e s) s2 /\
           wf_system s2 /\
           zlookup (entries (vmem s2)) (address / VMEM_PAGESIZE) = Some e2 /\
           frame e2 <> VOID_IDX /\
           zlookup (data (vmem s2))
             (frame e2 * VMEM_PAGESIZE + address mod VMEM_PAGESIZE) = Some v /\
           aged (count_access s2) s')).
  { intros Hrun. apply returns_Ok in Hrun.
    destruct Hrun as (v & s' & Hrun & s2 & e2 & Hrest).
    exists e, s2, e2, v, s'. split; [done|]. by destruct Hrest as (?&?&?&?&?&?). }
  unfold vmaccess.vmem_read, vmaccess.vmem_init.
  rewrite page_index_of_div, offset_of_mod.
  do 4 (vstep; simpl). rewrite He. simpl.
  vsteps; [apply ltb_false; lia|apply geb_false; lia|].
  eapply returns_wr_entry; [exact He|]. simpl.
  apply returns_bind, returns_ret.
  fold (touch PTF_REF (address / VMEM_PAGESIZE) e s).
  set (e0 := set_flags (Z.lor PTF_REF (flags e)) e).
  set (s0 := touch PTF_REF (address / VMEM_PAGESIZE) e s).
  assert (wf_system s0) as Hwf0 by (by apply wf_touch).
  assert (zlookup (entries (vmem s0)) (req_pageno (vmem s0)) = Some e0) as He0.
  { simpl. apply zlookup_zinsert_eq. lia. }
  apply returns_bind. eapply returns_mono.
  { apply (fault_if_absent_run s0 e0 Hwf0 He0). }
  intros _ s2 (Hready & f & Hwf2 & Hf & Hreq2 & Hg2 & Halgo2 & (e2 & He2 & Hf2) & Hkept).
  simpl in Hreq2, Hg2, Halgo2, He2.
  destruct (wf_layout _ Hwf2) as (Hle2 & Hlf2 & Hld2).
  apply returns_bind. eapply returns_rd_entry; [exact He2|].
  rewrite Hf2, physical_address by done.
  destruct (zlookup_in_range (data (vmem s2))
              (f * VMEM_PAGESIZE + address mod VMEM_PAGESIZE)) as [v Hv]; [nia|].
  apply returns_bind. eapply returns_rd_data; [exact Hv|].
  vsteps; [apply ltb_false; nia|apply geb_false; nia|].
  fold (count_access s2).
  assert (wf_system (count_access s2)) as Hwf1 by (by apply wf_with_g_count).
  apply returns_bind.
  eapply returns_mono; [apply (aging_hook_spec _ Hwf1)|].
  intros [] s' Haged. apply returns_ret.
  exists s2, e2. rewrite Hf2.
  refine (conj _ (conj Hwf2 (conj He2 (conj _ (conj Hv Haged))))); [exact Hready|lia].
Qed.

Lemma vmem_write_run address v s :
  wf_system s -> 0 <= address < VMEM_NPAGES * VMEM_PAGESIZE ->
  exists e s2 e2 s',
    zlookup (entries (vmem s)) (address / VMEM_PAGESIZE) = Some e /\
    page_ready e (touch (Z.lor PTF_DIRTY PTF_REF) (address / VMEM_PAGESIZE) e s) s2 /\
    wf_system s2 /\
    zlookup (entries (vmem s2)) (address / VMEM_PAGESIZE) = Some e2 /\
    frame e2 <> VOID_IDX /\
    aged (count_access
            (upd_vmem (with_data
               (zinsert (frame e2 * VMEM_PAGESIZE + address mod VMEM_PAGESIZE) v
                  (data (vmem s2)))) s2)) s' /\
    vmaccess.vmem_write address v s = Ok tt s'.
Proof.
  intros Hwf Ha. pose proof pagesize_pos as Hps. pose proof physmem_bound.
  pose proof void_idx_neg.
  pose proof (proj1 (page_index_range address) Ha) as Hp.
  rewrite page_index_of_div in Hp.
  destruct (wf_layout _ Hwf) as (Hle & Hlf & Hld).
  destruct (zlookup_in_range (entries (vmem s)) (address / VMEM_PAGESIZE))
    as [e He]; [lia|].
  assert (0 <= address mod VMEM_PAGESIZE < VMEM_PAGESIZE) as Hoff
    by (by apply Z.mod_pos_bound).
  cut (returns (vmaccess.vmem_write address v) s (fun _ s' =>
         exists s2 e2,
           page_ready e
             (touch (Z.lor PTF_DIRTY PTF_REF) (address / VMEM_PAGESIZE) e s) s2 /\
           wf_system s2 /\
           zlookup (entries (vmem s2)) (address / VMEM_PAGESIZE) = Some e2 /\
           frame e2 <> VOID_IDX /\
           aged (count_access
                   (upd_vmem (with_data
                      (zinsert (frame e2 * VMEM_PAGESIZE + address mod VMEM_PAGESIZE) v
                         (data (vmem s2)))) s2)) s')).
  { intros Hrun. apply returns_Ok in Hrun.
    destruct Hrun as ([] & s' & Hrun & s2 & e2 & Hrest).
    exists e, s2, e2, s'. split; [done|]. by destruct Hrest as (?&?&?&?&?). }
  unfold vmaccess.vmem_write, vmaccess.vmem_init.
  rewrite page_index_of_div, offset_of_mod.
  vsteps; [apply ltb_false; lia|apply geb_false; lia|].
  eapply returns_rd_entry; [exact He|]. simpl.
  apply returns_bind. eapply returns_wr_entry; [exact He|]. simpl.
  fold (touch (Z.lor PTF_DIRTY PTF_REF) (address / VMEM_PAGESIZE) e s).
  set (e0 := set_flags (Z.lor (Z.lor PTF_DIRTY PTF_REF) (flags e)) e).
  set (s0 := touch (Z.lor PTF_DIRTY PTF_REF) (address / VMEM_PAGESIZE) e s).
  assert (wf_system s0) as Hwf0 by (by apply wf_touch).
  assert (zlookup (entries (vmem s0)) (req_pageno (vmem s0)) = Some e0) as He0.
  { simpl. apply zlookup_zinsert_eq. lia. }
  apply returns_bind. eapply returns_mono.
  { apply (fault_if_absent_run s0 e0 Hwf0 He0). }
  intros _ s2 (Hready & f & Hwf2 & Hf & Hreq2 & Hg2 & Halgo2 & (e2 & He2 & Hf2) & Hkept).
  simpl in Hreq2, Hg2, Halgo2, He2.
  destruct (wf_layout _ Hwf2) as (Hle2 & Hlf2 & Hld2).
  apply returns_bind. eapply returns_rd_entry; [exact He2|].
  rewrite Hf2, physical_address by done.
  set (page := f * VMEM_PAGESIZE + address mod VMEM_PAGESIZE).
  assert (0 <= page < Z.of_nat (length (data (vmem s2)))) as Hpage
    by (unfold page; nia).
  destruct (zlookup_in_range (data (vmem s2)) page) as [v0 Hv0]; [done|].
  vsteps; [apply ltb_false; lia|apply geb_false; unfold page; nia|].
  eapply returns_wr_data; [exact Hv0|]. simpl.
  vsteps.
  fold (count_access (upd_vmem (with_data (zinsert page v (data (vmem s2)))) s2)).
  set (s1 := count_access _).
  assert (wf_system s1) as Hwf1.
  { apply wf_with_g_count, wf_with_data; [done|by rewrite length_zinsert]. }
  apply (aging_hook_spec s1) in Hwf1 as Hhook.
  eapply returns_mono; [exact Hhook|].
  intros [] s' Haged.
  exists s2, e2. rewrite Hf2.
  refine (conj _ (conj Hwf2 (conj He2 (conj _ Haged)))); [exact Hready|lia].
Qed.

(** The decay pass, when it runs, rewrites page table entries only, and of
    those neither the frame nor the DIRTY flag. *)
Lemma aged_effect s1 s' :
  wf_system s1 -> aged s1 s' ->
  exists l, s' = upd_vmem (with_entries l) s1 /\
    length l = length (entries (vmem s1)) /\
    forall q e, zlookup (entries (vmem s1)) q = Some e ->
      exists e', zlookup l q = Some e' /\
        frame e' = frame e /\
        flag_set (flags e') PTF_DIRTY = flag_set (flags e) PTF_DIRTY /\
        (page_rep_algo (vmem s1) <> VMEM_ALGO_AGING -> e' = e).
Proof.
  intros Hwf (Hrun & _).
  assert (s' = s1 -> exists l, s' = upd_vmem (with_entries l) s1 /\
    length l = length (entries (vmem s1)) /\
    forall q e, zlookup (entries (vmem s1)) q = Some e ->
      exists e', zlookup l q = Some e' /\
        frame e' = frame e /\
        flag_set (flags e') PTF_DIRTY = flag_set (flags e) PTF_DIRTY /\
        (page_rep_algo (vmem s1) <> VMEM_ALGO_AGING -> e' = e)) as Hid.
  { intros ->. exists (entries (vmem s1)). split; [by rewrite upd_entries_id|].
    split; [done|]. intros q e He. by exists e. }
  destruct (page_rep_algo (vmem s1)) eqn:Halgo; [by apply Hid|by apply Hid|].
  rewrite update_age_reset_ref_unfold in Hrun. unfold bind, gets in Hrun.
  destruct (Z.rem (g_count (vmem s1)) UPDATE_AGE_COUNT =? 0).
  - pose proof (decay_pass_spec s1 Hwf) as Hpass. unfold returns in Hpass.
    rewrite Hrun in Hpass. destruct Hpass as (l & -> & Hlen & Hl).
    exists l. split; [done|]. split; [done|].
    intros q e He. rewrite (Hl q e He). eexists. split; [done|].
    case_decide; [done|].
    split; [apply decayed_frame|]. split; [|done].
    rewrite decayed_flags.
    destruct (flag_set (flags e) PTF_REF); [apply ref_cleared_dirty|done].
  - apply Hid. by injection Hrun as <-.
Qed.

(** The course of an access that returns, for [vmem_read] and [vmem_write]
    alike. *)
Lemma do_access_run op s s' :
  wf_system s -> do_access op s = Ok tt s' ->
  in_range (address_of op) /\
  exists e s2 e2,
    zlookup (entries (vmem s)) (address_of op / VMEM_PAGESIZE) = Some e /\
    page_ready e (touch (flags_of op) (address_of op / VMEM_PAGESIZE) e s) s2 /\
    wf_system s2 /\
    zlookup (entries (vmem s2)) (address_of op / VMEM_PAGESIZE) = Some e2 /\
    frame e2 <> VOID_IDX /\
    wf_system (landed op (frame e2) s2) /\
    aged (landed op (frame e2) s2) s'.
Proof.
  intros Hwf Hrun. destruct op as [b|b w]; simpl in *.
  - destruct (decide (0 <= b < VMEM_NPAGES * VMEM_PAGESIZE)) as [Hb|Hb].
    + split; [done|].
      destruct (vmem_read_run b s Hwf Hb)
        as (e & s2 & e2 & v & s'' & He & Hready & Hwf2 & He2 & Hf2 & Hv & Haged & Hrd).
      unfold bind in Hrun. rewrite Hrd in Hrun. injection Hrun as <-.
      exists e, s2, e2. do 5 (split; [done|]). split; [|done].
      by apply wf_with_g_count.
    + unfold bind in Hrun. by rewrite vmem_read_out_of_range in Hrun.
  - destruct (decide (0 <= b < VMEM_NPAGES * VMEM_PAGESIZE)) as [Hb|Hb].
    + split; [done|].
      destruct (vmem_write_run b w s Hwf Hb)
        as (e & s2 & e2 & s'' & He & Hready & Hwf2 & He2 & Hf2 & Haged & Hwr).
      rewrite Hwr in Hrun. injection Hrun as <-.
      exists e, s2, e2. do 5 (split; [done|]). split; [|done].
      apply wf_with_g_count, wf_with_data; [done|by rewrite length_zinsert].
    + by rewrite vmem_write_out_of_range in Hrun.
Qed.

End translator_props.

(** ** The virtual memory as a memory *)

Section memory.
Context {h : vmem_h} {Hok : vmem_h_ok h}.

Lemma flag_set_lor_keep fl f :
  flag_set f PTF_DIRTY = true -> flag_set (Z.lor fl f) PTF_DIRTY = true.
Proof.
  destruct dirty_not_ref_bit as (d & r & Hd & _ & _ & -> & _).
  rewrite !flag_set_testbit by done. rewrite Z.lor_spec. intros ->.
  apply orb_true_r.
Qed.

Lemma address_split a : a = a / VMEM_PAGESIZE * VMEM_PAGESIZE + a mod VMEM_PAGESIZE.
Proof.
  pose proof pagesize_pos.
  assert (VMEM_PAGESIZE <> 0) as Hnz by lia.
  pose proof (Z.div_mod a VMEM_PAGESIZE Hnz). lia.
Qed.

Lemma in_window_page q p off :
  0 <= off < VMEM_PAGESIZE -> in_window (q * VMEM_PAGESIZE) (p * VMEM_PAGESIZE + off) ->
  p = q.
Proof.
  unfold in_window. intros Hoff Hw.
  apply (cell_inj VMEM_PAGESIZE p off q (p * VMEM_PAGESIZE + off - q * VMEM_PAGESIZE));
    [done|lia|lia].
Qed.

Lemma written_back_other b victim idx s c :
  Z.of_nat (length (data (vmem s))) = VMEM_NFRAMES * VMEM_PAGESIZE ->
  Z.of_nat (length (pagefile s)) = VMEM_NPAGES * VMEM_PAGESIZE ->
  0 <= idx < VMEM_NFRAMES -> 0 <= victim < VMEM_NPAGES ->
  ~ in_window (victim * VMEM_PAGESIZE) c ->
  zlookup (pagefile (written_back b victim idx s)) c = zlookup (pagefile s) c.
Proof.
  intros Hld Hpf Hi Hv Hc. pose proof pagesize_pos.
  destruct b; [|done]. simpl.
  pose proof (length_frame_cells (vmem s) idx Hld Hi).
  apply zlookup_zblit_out; [nia|nia|]. unfold in_window in Hc. lia.
Qed.

Lemma written_back_same victim idx s off :
  Z.of_nat (length (data (vmem s))) = VMEM_NFRAMES * VMEM_PAGESIZE ->
  Z.of_nat (length (pagefile s)) = VMEM_NPAGES * VMEM_PAGESIZE ->
  0 <= idx < VMEM_NFRAMES -> 0 <= victim < VMEM_NPAGES ->
  0 <= off < VMEM_PAGESIZE ->
  zlookup (pagefile (written_back true victim idx s)) (victim * VMEM_PAGESIZE + off)
  = zlookup (data (vmem s)) (idx * VMEM_PAGESIZE + off).
Proof.
  intros Hld Hpf Hi Hv Hoff. simpl.
  pose proof (length_frame_cells (vmem s) idx Hld Hi).
  rewrite zlookup_zblit_in by nia.
  replace (victim * VMEM_PAGESIZE + off - victim * VMEM_PAGESIZE) with off by lia.
  unfold frame_cells. apply zlookup_zslice; [nia|done].
Qed.

Lemma all_occupied_zinsert m idx p l :
  all_occupied m -> p <> VOID_IDX -> l = zinsert idx p (framepage m) ->
  forall i x, zlookup l i = Some x -> x <> VOID_IDX.
Proof.
  intros Hocc Hp -> i x. rewrite zlookup_zinsert.
  case_decide; [congruence|]. apply Hocc.
Qed.

Lemma stored_touch a v fl q eo s :
  stored a v s -> zlookup (entries (vmem s)) q = Some eo ->
  stored a v (touch fl q eo s).
Proof.
  intros (Hwf & ep & Hep & Hdirty & Hval) Heq.
  split; [by apply wf_touch|]. simpl.
  pose proof (zlookup_Some_range _ _ _ Heq) as Hq.
  destruct (decide (q = a / VMEM_PAGESIZE)) as [->|Hne].
  - assert (eo = ep) as -> by congruence.
    eexists. split; [by apply zlookup_zinsert_eq|]. simpl.
    split; [by apply flag_set_lor_keep|done].
  - exists ep. by rewrite zlookup_zinsert_ne.
Qed.

Lemma resident_not_absent s q1 q2 e1 e2 i :
  wf_system s ->
  zlookup (framepage (vmem s)) i = Some q1 -> q1 <> VOID_IDX ->
  zlookup (entries (vmem s)) q1 = Some e1 ->
  zlookup (entries (vmem s)) q2 = Some e2 -> frame e2 = VOID_IDX ->
  q1 <> q2.
Proof.
  intros Hwf Hfp Hq1 He1 He2 Hv2 ->. pose proof void_idx_neg.
  destruct (proj1 (wf_consistent _ Hwf) i q2 Hfp Hq1) as (e & He & Hf).
  apply zlookup_Some_range in Hfp.
  assert (e = e2) as -> by congruence. lia.
Qed.

Lemma stored_fault a v s0 s' idx e0 :
  stored a v s0 ->
  zlookup (entries (vmem s0)) (req_pageno (vmem s0)) = Some e0 ->
  frame e0 = VOID_IDX ->
  served (emit EvKill s0) s' idx -> fault_outcome (emit EvKill s0) s' idx ->
  wf_system (woke s') ->
  stored a v (woke s').
Proof.
  intros (Hwf & ep & Hep & Hdirty & Hval) He0 Hv0 Hserved Hout Hwf2.
  pose proof void_idx_neg. pose proof pagesize_pos as Hps.
  destruct (wf_layout _ Hwf) as (Hle & Hlf & Hld).
  pose proof (wf_pagefile _ Hwf) as Hpfl.
  destruct Hserved as (Hi & (Hfp & Hlen & Hent) & Hlay' & _ & Hpf' & _ & _ & _ & _ & _
                       & Hdata).
  destruct Hout as (Hd & _ & Hcase).
  simpl in Hfp, Hlen, Hent, Hdata, Hd, Hcase.
  pose proof (zlookup_Some_range _ _ _ Hep) as Hp.
  pose proof (zlookup_Some_range _ _ _ He0) as Hreq.
  assert (0 <= a mod VMEM_PAGESIZE < VMEM_PAGESIZE) as Hoff
    by (by apply Z.mod_pos_bound).
  assert (all_occupied (vmem s0) -> all_occupied (vmem s')) as Hocc'.
  { intros Hocc. unfold all_occupied.
    apply (all_occupied_zinsert (vmem s0) idx (req_pageno (vmem s0))); [done|lia|done]. }
  split; [done|].
  destruct (Hent _ _ Hep) as (e' & He' & Hf' & _).
  destruct (Hd _ _ Hep) as (e'' & He'' & Hd'').
  assert (e'' = e') as -> by congruence.
  exists e'. split; [done|]. split; [congruence|]. simpl.
  destruct (decide (a / VMEM_PAGESIZE = req_pageno (vmem s0))) as [Hpr|Hpr].
  - (* the page is the one brought in *)
    assert (ep = e0) as -> by congruence.
    rewrite decide_True in Hval by done. destruct Hval as [Hocc Hv].
    rewrite Hf', decide_False by lia.
    destruct Hcase as [(Hfree & _)|(_ & victim & e & [Hvf Hve] & _ & Hpagefile & Hdata' & _)].
    { exfalso. by apply (Hocc idx VOID_IDX). }
    pose proof (zlookup_Some_range _ _ _ Hve) as Hvr.
    pose proof (length_swap_cells s' (req_pageno (vmem s0)) Hpf' ltac:(lia)) as Hsw.
    rewrite Hdata', zlookup_zblit_in by nia.
    replace (idx * VMEM_PAGESIZE + a mod VMEM_PAGESIZE - idx * VMEM_PAGESIZE)
      with (a mod VMEM_PAGESIZE) by lia.
    unfold swap_cells. rewrite zlookup_zslice by nia.
    rewrite <- Hpr, <- address_split, Hpagefile.
    rewrite (written_back_other _ victim idx (emit EvKill s0)); simpl;
      [done|done|done|done|lia|].
    intros Hw. rewrite (address_split a) in Hw. apply in_window_page in Hw; [|done].
    apply (resident_not_absent s0 victim (a / VMEM_PAGESIZE) e e0 idx); try done.
    by apply (Hocc idx).
  - destruct (decide (frame ep = VOID_IDX)) as [Hvp|Hvp].
    + (* the page is in the page file and stays there *)
      destruct Hval as [Hocc Hv].
      assert (frame e' = VOID_IDX) as -> by (case_decide; congruence).
      rewrite decide_True by done. split; [by apply Hocc'|].
      destruct Hcase as [(Hfree & _)|(_ & victim & e & [Hvf Hve] & _ & Hpagefile & _)].
      { exfalso. by apply (Hocc idx VOID_IDX). }
      pose proof (zlookup_Some_range _ _ _ Hve) as Hvr.
      rewrite Hpagefile.
      rewrite (written_back_other _ victim idx (emit EvKill s0)); simpl;
        [done|done|done|done|lia|].
      intros Hw. rewrite (address_split a) in Hw. apply in_window_page in Hw; [|done].
      apply (resident_not_absent s0 victim (a / VMEM_PAGESIZE) e ep idx); try done.
      by apply (Hocc idx).
    + destruct (decide (frame ep = idx)) as [Hfi|Hfi].
      * (* the page is the victim *)
        rewrite Hf', decide_True by done.
        pose proof (proj2 (wf_consistent _ Hwf) _ ep Hep Hvp) as Hback.
        rewrite Hfi in Hback.
        destruct Hcase as [(Hfree & _)|(Hocc & victim & e & [Hvf Hve] & _ & Hpagefile & _)].
        { unfold frame_free in Hfree. rewrite Hback in Hfree.
          injection Hfree as Hfree. lia. }
        assert (victim = a / VMEM_PAGESIZE) as -> by congruence.
        assert (e = ep) as -> by congruence.
        split; [by apply Hocc'|].
        rewrite Hpagefile, Hdirty.
        assert (0 <= a / VMEM_PAGESIZE < VMEM_NPAGES) as Hp' by lia.
        pose proof (written_back_same (a / VMEM_PAGESIZE) idx (emit EvKill s0)
                      (a mod VMEM_PAGESIZE) Hld Hpfl Hi Hp' Hoff) as Hsame.
        rewrite <- address_split in Hsame. rewrite Hsame. simpl.
        by rewrite <- Hfi.
      * (* the page stays in its frame *)
        rewrite Hf', decide_False by done. rewrite Hdata; [done|].
        intros Hw. apply Hfi.
        by apply (in_window_page idx (frame ep) (a mod VMEM_PAGESIZE)).
Qed.

Lemma stored_page_ready a v e0 s0 s2 :
  stored a v s0 ->
  zlookup (entries (vmem s0)) (req_pageno (vmem s0)) = Some e0 ->
  page_ready e0 s0 s2 -> wf_system s2 ->
  stored a v s2.
Proof.
  intros Hst He0 Hready Hwf2. unfold page_ready in Hready.
  destruct (decide (frame e0 = VOID_IDX)) as [Hv|Hv]; [|by subst].
  destruct Hready as (s' & idx & _ & Hserved & Hout & ->).
  by apply (stored_fault a v s0 s' idx e0).
Qed.

Lemma stored_count_access a v s :
  stored a v s -> stored a v (count_access s).
Proof.
  intros (Hwf & Hrest). split; [by apply wf_with_g_count|done].
Qed.

Lemma stored_landed a v op f e2 s2 :
  stored a v s2 -> writes_to a op = false ->
  zlookup (entries (vmem s2)) (address_of op / VMEM_PAGESIZE) = Some e2 ->
  frame e2 = f -> f <> VOID_IDX ->
  stored a v (landed op f s2).
Proof.
  intros Hst Hnw He2 <- Hf. destruct op as [b|b w]; simpl in *.
  { by apply stored_count_access. }
  pose proof pagesize_pos as Hps.
  assert (stored a v
            (upd_vmem (with_data
               (zinsert (frame e2 * VMEM_PAGESIZE + b mod VMEM_PAGESIZE) w
                  (data (vmem s2)))) s2)) as Hst'; [|by apply stored_count_access].
  destruct Hst as (Hwf & ep & Hep & Hdirty & Hval).
  split; [apply wf_with_data; [done|by rewrite length_zinsert]|].
  exists ep. split; [done|]. split; [done|]. simpl.
  case_decide as Hvp; [done|].
  rewrite zlookup_zinsert_ne; [done|]. intros Hcell.
  assert (0 <= a mod VMEM_PAGESIZE < VMEM_PAGESIZE) by (by apply Z.mod_pos_bound).
  assert (0 <= b mod VMEM_PAGESIZE < VMEM_PAGESIZE) by (by apply Z.mod_pos_bound).
  apply cell_inj in Hcell as [Hfr Hoff]; [|done|done].
  pose proof (proj2 (wf_consistent _ Hwf) _ ep Hep Hvp) as Hb1.
  pose proof (proj2 (wf_consistent _ Hwf) _ e2 He2 Hf) as Hb2.
  rewrite Hfr in Hb2.
  assert (b / VMEM_PAGESIZE = a / VMEM_PAGESIZE) as Hpg by congruence.
  apply Z.eqb_neq in Hnw. apply Hnw.
  rewrite (address_split a), (address_split b). by rewrite Hpg, Hoff.
Qed.

Lemma stored_aged a v s1 s' :
  stored a v s1 -> aged s1 s' -> stored a v s'.
Proof.
  intros (Hwf & ep & Hep & Hdirty & Hval) Haged.
  destruct (aged_effect s1 s' Hwf Haged) as (l & -> & Hlen & Hl).
  split; [apply Haged|]. simpl.
  destruct (Hl _ _ Hep) as (e' & He' & Hf' & Hd' & _).
  exists e'. split; [done|]. split; [congruence|]. by rewrite Hf'.
Qed.

(** The value stays where it is, or moves between frame and page file,
    through every access that does not write to the address. *)
Lemma stored_step a v op s s' :
  stored a v s -> writes_to a op = false -> do_access op s = Ok tt s' ->
  stored a v s'.
Proof.
  intros Hst Hnw Hrun. pose proof Hst as (Hwf & _).
  destruct (do_access_run op s s' Hwf Hrun)
    as (Hin & e & s2 & e2 & He & Hready & Hwf2 & He2 & Hf2 & Hwf1 & Haged).
  apply (stored_aged a v (landed op (frame e2) s2)); [|done].
  apply (stored_landed a v op (frame e2) e2); try done.
  apply (stored_page_ready a v
           (set_flags (Z.lor (flags_of op) (flags e)) e)
           (touch (flags_of op) (address_of op / VMEM_PAGESIZE) e s)); try done.
  - by apply stored_touch.
  - simpl. apply zlookup_zinsert_eq. by apply zlookup_Some_range in He.
Qed.

Lemma stored_run a v ops s s' :
  stored a v s -> Forall (fun op => writes_to a op = false) ops ->
  do_accesses ops s = Ok tt s' ->
  stored a v s'.
Proof.
  intros Hst Hops. revert s Hst.
  induction Hops as [|op ops Hop _ IH]; intros s Hst Hrun; simpl in Hrun.
  - by injection Hrun as <-.
  - unfold bind in Hrun.
    destruct (do_access op s) as [[] s1| | | |] eqn:Hstep; try done.
    apply (IH s1); [|done]. by apply (stored_step a v op s).
Qed.

Lemma stored_after_write a v s s' :
  wf_system s -> vmaccess.vmem_write a v s = Ok tt s' -> stored a v s'.
Proof.
  intros Hwf Hrun. pose proof void_idx_neg. pose proof pagesize_pos as Hps.
  destruct (do_access_run (Write a v) s s' Hwf Hrun)
    as (Hin & e & s2 & e2 & He & Hready & Hwf2 & He2 & Hf2 & Hwf1 & Haged).
  simpl in *.
  apply (stored_aged a v
           (count_access
              (upd_vmem (with_data
                 (zinsert (frame e2 * VMEM_PAGESIZE + a mod VMEM_PAGESIZE) v
                    (data (vmem s2)))) s2))); [|done].
  split; [done|]. simpl. exists e2. split; [done|].
  pose proof (resident_frame_range s2 _ e2 Hwf2 He2 Hf2) as Hfr.
  assert (0 <= a mod VMEM_PAGESIZE < VMEM_PAGESIZE) by (by apply Z.mod_pos_bound).
  destruct (wf_layout _ Hwf2) as (_ & _ & Hld2).
  split; [|rewrite decide_False by done; apply zlookup_zinsert_eq; nia].
  (* the flag set by the write is still there *)
  pose proof (zlookup_Some_range _ _ _ He) as Hp.
  set (e0 := set_flags (Z.lor (Z.lor PTF_DIRTY PTF_REF) (flags e)) e) in *.
  assert (flag_set (flags e0) PTF_DIRTY = true) as Hd0.
  { destruct dirty_not_ref_bit as (d & r & Hd & Hr & Hdr & HD & HR).
    unfold e0. simpl. rewrite <- Z.lor_assoc, HD. by apply flag_set_lor_same. }
  assert (zlookup (entries (vmem (touch (Z.lor PTF_DIRTY PTF_REF) (a / VMEM_PAGESIZE) e s)))
            (a / VMEM_PAGESIZE) = Some e0) as He0.
  { simpl. by apply zlookup_zinsert_eq. }
  unfold page_ready in Hready.
  destruct (decide (frame e = VOID_IDX)) as [Hv|Hv].
  - destruct Hready as (sf & idx & _ & _ & (Hd & _) & ->). simpl in Hd, He2.
    destruct (Hd _ _ He0) as (e2' & He2' & Hd2). simpl in He2'.
    assert (e2' = e2) as -> by congruence. congruence.
  - subst s2. assert (e2 = e0) as -> by congruence. done.
Qed.

Lemma read_stored a v s :
  stored a v s -> in_range a -> exists s', vmaccess.vmem_read a s = Ok v s'.
Proof.
  intros Hst Ha. pose proof Hst as (Hwf & _).
  destruct (vmem_read_run a s Hwf Ha)
    as (e & s2 & e2 & v' & s' & He & Hready & Hwf2 & He2 & Hf2 & Hv' & _ & Hrun).
  exists s'. rewrite Hrun. f_equal.
  assert (stored a v s2) as (_ & e2' & He2' & _ & Hval).
  { apply (stored_page_ready a v
             (set_flags (Z.lor PTF_REF (flags e)) e)
             (touch PTF_REF (a / VMEM_PAGESIZE) e s)); try done.
    - by apply stored_touch.
    - simpl. apply zlookup_zinsert_eq. by apply zlookup_Some_range in He. }
  assert (e2' = e2) as -> by congruence.
  rewrite decide_False in Hval by done. congruence.
Qed.

(** Every access inside the virtual memory returns. *)
Lemma do_access_returns op s :
  wf_system s -> in_range (address_of op) ->
  exists s', do_access op s = Ok tt s' /\ wf_system s'.
Proof.
  intros Hwf Hin. destruct op as [b|b w]; simpl in *.
  - destruct (vmem_read_run b s Hwf Hin)
      as (e & s2 & e2 & v' & s' & _ & _ & _ & _ & _ & _ & Haged & Hrun).
    exists s'. unfold bind. rewrite Hrun. split; [done|apply Haged].
  - destruct (vmem_write_run b w s Hwf Hin)
      as (e & s2 & e2 & s' & _ & _ & _ & _ & _ & Haged & Hrun).
    exists s'. split; [done|apply Haged].
Qed.

Lemma do_accesses_return ops s :
  wf_system s -> Forall (fun op => in_range (address_of op)) ops ->
  exists s', do_accesses ops s = Ok tt s' /\ wf_system s'.
Proof.
  intros Hwf Hops. revert s Hwf.
  induction Hops as [|op ops Hop _ IH]; intros s Hwf; simpl.
  - by exists s.
  - destruct (do_access_returns op s Hwf Hop) as (s1 & Hrun & Hwf1).
    destruct (IH s1 Hwf1) as (s' & Hrun' & Hwf').
    exists s'. unfold bind. by rewrite Hrun.
Qed.

End memory.

(** ** What an access does and does not do *)

Section memory_theorems.
Context {h : vmem_h} {Hok : vmem_h_ok h}.

(** X7: a value written to the virtual memory is read back from its address,
    whatever is read and written elsewhere in between and however often the
    page is evicted and brought back. *)
Theorem written_value_survives a v ops s :
  wf_system s -> in_range a ->
  Forall (fun op => in_range (address_of op) /\ writes_to a op = false) ops ->
  exists s1 s2 s3,
    vmaccess.vmem_write a v s = Ok tt s1 /\
    do_accesses ops s1 = Ok tt s2 /\
    vmaccess.vmem_read a s2 = Ok v s3.
Proof.
  intros Hwf Ha Hops.
  destruct (do_access_returns (Write a v) s Hwf Ha) as (s1 & Hwr & Hwf1).
  simpl in Hwr.
  assert (Forall (fun op => in_range (address_of op)) ops) as Hin.
  { eapply Forall_impl; [exact Hops|]. by intros op [? _]. }
  assert (Forall (fun op => writes_to a op = false) ops) as Hnw.
  { eapply Forall_impl; [exact Hops|]. by intros op [_ ?]. }
  destruct (do_accesses_return ops s1 Hwf1 Hin) as (s2 & Hrun & _).
  pose proof (stored_after_write a v s s1 Hwf Hwr) as Hst.
  pose proof (stored_run a v ops s1 s2 Hst Hnw Hrun) as Hst2.
  destruct (read_stored a v s2 Hst2 Ha) as (s3 & Hrd).
  by exists s1, s2, s3.
Qed.

(** X8: once the manager has initialised the segment, every sequence of reads
    and writes inside the virtual memory runs to its end: no access leaves
    through a bounds test, waits for ever or touches an array outside its
    bounds, and the tables are consistent afterwards. *)
Theorem accesses_in_range_return shmid pid arg ops s :
  layout (vmem s) ->
  Z.of_nat (length (pagefile s)) = VMEM_NPAGES * VMEM_PAGESIZE ->
  -1 <= fifo_current s < VMEM_NFRAMES ->
  Forall (fun op => in_range (address_of op)) ops ->
  exists s0 s',
    mmanage.main_init shmid pid arg s = Ok tt s0 /\
    do_accesses ops s0 = Ok tt s' /\
    wf_system s'.
Proof.
  intros Hlay Hpf Hcur Hops.
  pose proof (main_init_wf shmid pid arg s Hlay Hpf Hcur) as Hinit.
  apply returns_Ok in Hinit. destruct Hinit as ([] & s0 & Hinit & Hwf0 & _).
  destruct (do_accesses_return ops s0 Hwf0 Hops) as (s' & Hrun & Hwf').
  by exists s0, s'.
Qed.

Lemma landed_tables op f s :
  entries (vmem (landed op f s)) = entries (vmem s) /\
  framepage (vmem (landed op f s)) = framepage (vmem s).
Proof. by destruct op. Qed.

(** X9: the DIRTY flag of a page is set by a write to the page and by nothing
    else, and it is never cleared: not by the write-back, not by the eviction,
    not when the page is read in again. *)
Theorem dirty_flag_is_never_cleared op s s' :
  wf_system s -> do_access op s = Ok tt s' ->
  forall q e, zlookup (entries (vmem s)) q = Some e ->
    exists e', zlookup (entries (vmem s')) q = Some e' /\
      flag_set (flags e') PTF_DIRTY = flag_set (flags e) PTF_DIRTY || dirties op q.
Proof.
  intros Hwf Hrun q eo Heo.
  destruct (do_access_run op s s' Hwf Hrun)
    as (Hin & e & s2 & e2 & He & Hready & Hwf2 & He2 & Hf2 & Hwf1 & Haged).
  set (p := address_of op / VMEM_PAGESIZE) in *.
  set (s0 := touch (flags_of op) p e s) in *.
  pose proof (zlookup_Some_range _ _ _ He) as Hp.
  assert (exists e0, zlookup (entries (vmem s0)) q = Some e0 /\
            flag_set (flags e0) PTF_DIRTY = flag_set (flags eo) PTF_DIRTY || dirties op q)
    as (e0 & He0 & Hd0).
  { simpl. destruct (decide (q = p)) as [->|Hqp].
    - assert (eo = e) as -> by congruence.
      rewrite zlookup_zinsert_eq by done. eexists. split; [done|]. simpl.
      destruct dirty_not_ref_bit as (d & r & Hd & Hr & Hdr & HD & HR).
      destruct op as [b|b w]; simpl.
      + rewrite orb_false_r, HD, HR. apply flag_set_lor_other; [done|done|congruence].
      + fold p. rewrite Z.eqb_refl, orb_true_r.
        rewrite <- Z.lor_assoc, HD. by apply flag_set_lor_same.
    - rewrite zlookup_zinsert_ne by done. exists eo. split; [done|].
      destruct op as [b|b w]; simpl; [by rewrite orb_false_r|].
      replace (b / VMEM_PAGESIZE =? q) with false; [by rewrite orb_false_r|].
      symmetry. apply Z.eqb_neq. intros Hx. apply Hqp. by rewrite <- Hx. }
  assert (exists e1, zlookup (entries (vmem s2)) q = Some e1 /\
            flag_set (flags e1) PTF_DIRTY = flag_set (flags e0) PTF_DIRTY)
    as (e1 & He1 & Hd1).
  { unfold page_ready in Hready.
    destruct (decide (frame e = VOID_IDX)).
    - destruct Hready as (sf & idx & _ & _ & (Hd & _) & ->). simpl in Hd.
      by apply Hd.
    - subst s2. by exists e0. }
  destruct (aged_effect _ s' Hwf1 Haged) as (l & -> & _ & Hl).
  rewrite (proj1 (landed_tables op (frame e2) s2)) in Hl.
  destruct (Hl _ _ He1) as (e' & He' & _ & Hd' & _).
  exists e'. split; [done|]. congruence.
Qed.

(** X10: no access ever frees a frame: a frame that holds a page holds a page
    afterwards. *)
Theorem frames_are_never_freed ops s s' :
  wf_system s -> do_accesses ops s = Ok tt s' ->
  forall i p, zlookup (framepage (vmem s)) i = Some p -> p <> VOID_IDX ->
    exists p', zlookup (framepage (vmem s')) i = Some p' /\ p' <> VOID_IDX.
Proof.
  revert s. induction ops as [|op ops IH]; intros s Hwf Hrun i x Hx Hne; simpl in Hrun.
  { injection Hrun as <-. by exists x. }
  unfold bind in Hrun.
  destruct (do_access op s) as [[] s1| | | |] eqn:Hstep; try done.
  pose proof (do_access_wf op s s1 Hwf Hstep) as Hwf1.
  cut (exists x1, zlookup (framepage (vmem s1)) i = Some x1 /\ x1 <> VOID_IDX).
  { intros (x1 & Hx1 & Hne1). by apply (IH s1 Hwf1 Hrun i x1). }
  clear IH Hrun. pose proof void_idx_neg.
  destruct (do_access_run op s s1 Hwf Hstep)
    as (Hin & e & s2 & e2 & He & Hready & Hwf2 & He2 & Hf2 & Hwfl & Haged).
  pose proof (zlookup_Some_range _ _ _ He) as Hp.
  destruct (aged_effect _ s1 Hwfl Haged) as (l & -> & _ & _). simpl.
  rewrite (proj2 (landed_tables op (frame e2) s2)).
  unfold page_ready in Hready.
  destruct (decide (frame e = VOID_IDX)).
  - destruct Hready as (sf & idx & _ & (_ & (Hfp & _) & _) & _ & ->). simpl in *.
    rewrite Hfp, zlookup_zinsert. case_decide.
    + eexists. split; [done|]. lia.
    + by exists x.
  - subst s2. by exists x.
Qed.

(** X11: an access to a resident page is served by the client alone: no signal
    is sent, and the trace, the page file, the frame table, the fault counter
    and the cursor are as before. A read returns the cell of the frame and
    leaves the frame data alone; a write changes that one cell. *)
Theorem resident_access_leaves_manager_idle a s e :
  wf_system s -> in_range a ->
  zlookup (entries (vmem s)) (a / VMEM_PAGESIZE) = Some e -> frame e <> VOID_IDX ->
  (exists v s', vmaccess.vmem_read a s = Ok v s' /\
     zlookup (data (vmem s)) (frame e * VMEM_PAGESIZE + a mod VMEM_PAGESIZE) = Some v /\
     manager_idle s s' /\
     data (vmem s') = data (vmem s) /\
     g_count (vmem s') = wrap_int (g_count (vmem s) + 1)) /\
  (forall v, exists s', vmaccess.vmem_write a v s = Ok tt s' /\
     manager_idle s s' /\
     data (vmem s') =
       zinsert (frame e * VMEM_PAGESIZE + a mod VMEM_PAGESIZE) v (data (vmem s)) /\
     g_count (vmem s') = wrap_int (g_count (vmem s) + 1)).
Proof.
  intros Hwf Ha He Hres. pose proof (zlookup_Some_range _ _ _ He) as Hp. split.
  - destruct (vmem_read_run a s Hwf Ha)
      as (e' & s2 & e2 & v & s' & He' & Hready & Hwf2 & He2 & Hf2 & Hv & Haged & Hrun).
    assert (e' = e) as -> by congruence.
    unfold page_ready in Hready. rewrite decide_False in Hready by done. subst s2.
    simpl in He2, Hv. rewrite zlookup_zinsert_eq in He2 by done.
    injection He2 as <-. simpl in Hv.
    assert (wf_system (count_access (touch PTF_REF (a / VMEM_PAGESIZE) e s))) as Hwf1
      by (by apply wf_with_g_count).
    destruct (aged_effect _ s' Hwf1 Haged) as (l & -> & _ & _).
    eexists v, _. split; [exact Hrun|]. split; [done|]. by repeat split.
  - intros v.
    destruct (vmem_write_run a v s Hwf Ha)
      as (e' & s2 & e2 & s' & He' & Hready & Hwf2 & He2 & Hf2 & Haged & Hrun).
    assert (e' = e) as -> by congruence.
    unfold page_ready in Hready. rewrite decide_False in Hready by done. subst s2.
    simpl in He2. rewrite zlookup_zinsert_eq in He2 by done.
    injection He2 as <-. simpl in Haged.
    pose proof (proj1 (proj2 Haged)) as Hwf'.
    match type of Haged with aged ?s1 _ =>
      assert (wf_system s1) as Hwf1 end.
    { apply wf_with_g_count, wf_with_data; [by apply wf_touch|].
      by rewrite length_zinsert. }
    destruct (aged_effect _ s' Hwf1 Haged) as (l & -> & _ & _).
    eexists. split; [exact Hrun|]. by repeat split.
Qed.

(** X12: an access to a page that is not resident costs exactly one fault: the
    client sends one signal, the manager stores, fetches and logs, releases
    the semaphore once with the page mapped, and the client passes its wait;
    the fault counter has grown by one and the semaphore is back at zero. *)
Theorem absent_access_one_handshake op s e :
  wf_system s -> in_range (address_of op) ->
  zlookup (entries (vmem s)) (address_of op / VMEM_PAGESIZE) = Some e ->
  frame e = VOID_IDX ->
  exists s' evs m em,
    do_access op s = Ok tt s' /\
    trace s' = trace s ++ EvKill :: evs ++ [EvPost m; EvWait] /\
    Forall manager_event evs /\
    pf_count (vmem s') = wrap_int (pf_count (vmem s) + 1) /\
    sem s' = 0 /\
    zlookup (entries m) (address_of op / VMEM_PAGESIZE) = Some em /\
    frame em <> VOID_IDX /\
    zlookup (framepage m) (frame em) = Some (address_of op / VMEM_PAGESIZE).
Proof.
  intros Hwf Hin He Hv. pose proof void_idx_neg.
  destruct (do_access_returns op s Hwf Hin) as (s' & Hrun & _).
  destruct (do_access_run op s s' Hwf Hrun)
    as (_ & e' & s2 & e2 & He' & Hready & Hwf2 & He2 & Hf2 & Hwf1 & Haged).
  assert (e' = e) as -> by congruence.
  pose proof (zlookup_Some_range _ _ _ He) as Hp.
  destruct (wf_layout _ Hwf) as (_ & Hlf & _).
  unfold page_ready in Hready. rewrite decide_True in Hready by done.
  destruct Hready as (sf & idx & _ & Hserved & (_ & _ & Hcase) & ->).
  destruct Hserved as (Hi & (Hfp & _ & Hent) & _ & _ & _ & Hsem & _ & _ & _ & Hpfc & _).
  simpl in Hfp, Hent, Hsem, Hpfc, Hcase.
  destruct (Hent (address_of op / VMEM_PAGESIZE)
              (set_flags (Z.lor (flags_of op) (flags e)) e)) as (em & Hem & Hfm & _).
  { by apply zlookup_zinsert_eq. }
  rewrite decide_True in Hfm by done.
  destruct (aged_effect _ s' Hwf1 Haged) as (l & -> & _ & _).
  assert (exists evs, Forall manager_event evs /\
            trace sf = trace s ++ EvKill :: evs ++ [EvPost (vmem sf)]) as (evs & Hevs & Htr).
  { destruct Hcase as [(_ & _ & _ & _ & _ & _ & Htr)
                      |(_ & victim & ev & _ & _ & _ & _ & Htr)].
    - exists [EvLog (event sf)]. split; [by repeat constructor|].
      rewrite Htr, <- app_assoc. done.
    - destruct (flag_set (flags ev) PTF_DIRTY); simpl in Htr.
      + eexists [EvStore _ _; EvFetch _; EvLog _]. split; [by repeat constructor|].
        rewrite Htr, <- !app_assoc. done.
      + eexists [EvFetch _; EvLog _]. split; [by repeat constructor|].
        rewrite Htr, <- !app_assoc. done. }
  eexists _, evs, (vmem sf), em. split; [exact Hrun|].
  split.
  { destruct op; simpl; rewrite Htr, <- !app_assoc; simpl;
      by rewrite <- !app_assoc. }
  split; [done|]. split; [by destruct op|].
  split; [destruct op; simpl; rewrite Hsem, (wf_sem _ Hwf); lia|].
  split; [done|]. split; [lia|].
  rewrite Hfm, Hfp. apply zlookup_zinsert_eq. lia.
Qed.

(** X13: what a read finds when its page has to be brought in. When a frame is
    free the page is not read from the page file: the read returns what the
    lowest free frame held before. When all frames are occupied the read
    returns the cell of the address in the page file. *)
Theorem faulting_read_returns a s e :
  wf_system s -> in_range a ->
  zlookup (entries (vmem s)) (a / VMEM_PAGESIZE) = Some e -> frame e = VOID_IDX ->
  exists v s', vmaccess.vmem_read a s = Ok v s' /\
    ((exists i, frame_free (vmem s) i) ->
       exists idx, frame_free (vmem s) idx /\
         (forall j, 0 <= j < idx -> ~ frame_free (vmem s) j) /\
         zlookup (data (vmem s)) (idx * VMEM_PAGESIZE + a mod VMEM_PAGESIZE) = Some v /\
         pagefile s' = pagefile s) /\
    (all_occupied (vmem s) -> zlookup (pagefile s) a = Some v).
Proof.
  intros Hwf Ha He Hv. pose proof void_idx_neg. pose proof pagesize_pos as Hps.
  destruct (wf_layout _ Hwf) as (Hle & Hlf & Hld).
  pose proof (wf_pagefile _ Hwf) as Hpfl.
  pose proof (zlookup_Some_range _ _ _ He) as Hp.
  assert (0 <= a mod VMEM_PAGESIZE < VMEM_PAGESIZE) as Hoff
    by (by apply Z.mod_pos_bound).
  destruct (vmem_read_run a s Hwf Ha)
    as (e' & s2 & e2 & v & s' & He' & Hready & Hwf2 & He2 & Hf2 & Hval & Haged & Hrun).
  assert (e' = e) as -> by congruence.
  unfold page_ready in Hready. rewrite decide_True in Hready by done.
  destruct Hready as (sf & idx & _ & Hserved & (_ & _ & Hcase) & ->).
  destruct Hserved as (Hi & (Hfp & _ & Hent) & _ & _ & Hpf' & _).
  simpl in Hfp, Hent, Hcase, He2, Hval.
  destruct (Hent (a / VMEM_PAGESIZE) (set_flags (Z.lor PTF_REF (flags e)) e))
    as (em & Hem & Hfm & _).
  { by apply zlookup_zinsert_eq. }
  rewrite decide_True in Hfm by done.
  assert (em = e2) as -> by congruence. rewrite Hfm in Hval.
  assert (wf_system (count_access (woke sf))) as Hwf1 by (by apply wf_with_g_count).
  destruct (aged_effect _ s' Hwf1 Haged) as (l & -> & _ & _).
  eexists v, _. split; [exact Hrun|]. simpl.
  destruct Hcase as [(Hfree & Hleast & _ & Hdata & Hpagefile & _)
                    |(Hocc & victim & ev & [Hvf Hve] & _ & Hpagefile & Hdata & _)].
  - split.
    + intros _. exists idx. rewrite Hdata in Hval. by repeat split.
    + intros Hocc. exfalso. by apply (Hocc idx VOID_IDX).
  - split.
    + intros [i Hfree]. exfalso. by apply (Hocc i VOID_IDX).
    + intros _.
      pose proof (zlookup_Some_range _ _ _ Hve) as Hvr.
      simpl in Hvr. rewrite length_zinsert in Hvr.
      assert (0 <= a / VMEM_PAGESIZE < VMEM_NPAGES) as Hp' by lia.
      pose proof (length_swap_cells sf (a / VMEM_PAGESIZE) Hpf' Hp') as Hsw.
      rewrite Hdata, zlookup_zblit_in in Hval by nia.
      replace (idx * VMEM_PAGESIZE + a mod VMEM_PAGESIZE - idx * VMEM_PAGESIZE)
        with (a mod VMEM_PAGESIZE) in Hval by lia.
      unfold swap_cells in Hval. rewrite zlookup_zslice in Hval by nia.
      rewrite <- address_split, Hpagefile in Hval.
      rewrite (written_back_other _ victim idx
                 (emit EvKill (touch PTF_REF (a / VMEM_PAGESIZE) e s))) in Hval;
        simpl; [done|done|done|done|lia|].
      intros Hw. rewrite (address_split a) in Hw. apply in_window_page in Hw; [|done].
      apply (resident_not_absent (touch PTF_REF (a / VMEM_PAGESIZE) e s) victim
               (a / VMEM_PAGESIZE) ev (set_flags (Z.lor PTF_REF (flags e)) e) idx);
        try done.
      * by apply wf_touch.
      * by apply (Hocc idx).
      * simpl. by apply zlookup_zinsert_eq.
Qed.

(** X14: AGING approximates least-recently-used: right after a decay pass the
    page it evicts is one that had not been referenced since the pass before,
    if any frame holds such a page. *)
Theorem aging_spares_referenced s :
  wf_system s -> all_occupied (vmem s) ->
  Z.rem (g_count (vmem s)) UPDATE_AGE_COUNT = 0 ->
  (exists i p e, page_in (vmem s) i p e /\ flag_set (flags e) PTF_REF = false) ->
  exists s1 idx s2 victim e,
    vmaccess.update_age_reset_ref s = Ok tt s1 /\
    mmanage.find_remove_aging s1 = Ok idx s2 /\
    page_in (vmem s) idx victim e /\
    flag_set (flags e) PTF_REF = false.
Proof.
  intros Hwf Hocc Hrem (i & p & e0 & [Hfi Hei] & Hr0). pose proof void_idx_neg.
  pose proof (decay_pass_spec s Hwf) as Hpass. apply returns_Ok in Hpass.
  destruct Hpass as ([] & s1 & Hpass & l & -> & Hlen & Hl).
  assert (vmaccess.update_age_reset_ref s = Ok tt (upd_vmem (with_entries l) s)) as Hrun.
  { rewrite update_age_reset_ref_unfold. unfold bind, gets. by rewrite Hrem. }
  pose proof (wf_decay_pass s l Hwf Hlen Hl) as Hwf1.
  pose proof (find_remove_aging_spec _ Hwf1 Hocc) as Hfind. apply returns_Ok in Hfind.
  destruct Hfind as (idx & s2 & Hfind & victim & e1 & Hi & [Hvf Hve] & Hmin & _).
  simpl in Hvf, Hve, Hmin.
  destruct (proj1 (wf_consistent _ Hwf) idx victim Hvf (Hocc _ _ Hvf)) as (e & He & Hfe).
  eexists _, idx, s2, victim, e. split; [exact Hrun|]. split; [exact Hfind|].
  split; [done|].
  (* the ages after the pass *)
  rewrite (Hl _ _ He), decide_False in Hve by lia. injection Hve as <-.
  destruct (proj1 (wf_consistent _ Hwf) i p Hfi (Hocc _ _ Hfi)) as (e0' & He0' & Hf0).
  assert (e0' = e0) as -> by congruence.
  pose proof (zlookup_Some_range _ _ _ Hfi) as Hir.
  destruct (wf_layout _ Hwf) as (_ & Hlf & _).
  assert (age (decayed e) <= age (decayed e0)) as Hle.
  { apply (Hmin i); [lia|]. exists p, (decayed e0). split; [|done].
    split; [done|]. simpl. rewrite (Hl _ _ Hei). by rewrite decide_False by lia. }
  pose proof (wf_ages _ Hwf _ _ He) as Ha. pose proof (wf_ages _ Hwf _ _ Hei) as Ha0.
  rewrite !decayed_age, Hr0 in Hle by done.
  destruct (flag_set (flags e) PTF_REF); [|done].
  exfalso. pose proof (Z.div_pos (age e) 2).
  assert (age e0 / 2 < 128) by (apply Z.div_lt_upper_bound; lia). lia.
Qed.

End memory_theorems.

(** ** Policies and frames *)

Section policies.
Context {h : vmem_h} {Hok : vmem_h_ok h}.

(** X15: CLOCK is FIFO as long as it meets no referenced page: when the page in
    the frame after the cursor is not referenced, both policies evict that
    page and leave the same state. *)
Theorem clock_is_fifo_without_reference s victim e :
  wf_system s ->
  page_in (vmem s) ((fifo_current s + 1) mod VMEM_NFRAMES) victim e ->
  flag_set (flags e) PTF_REF = false ->
  exists s', mmanage.find_remove_fifo s = Ok ((fifo_current s + 1) mod VMEM_NFRAMES) s' /\
    mmanage.find_remove_clock s = mmanage.find_remove_fifo s.
Proof.
  intros Hwf Hpe Href.
  rewrite <- (advance_mod (fifo_current s)) in * by apply Hwf.
  pose proof (find_remove_fifo_spec s victim e Hwf Hpe) as Hfifo.
  apply returns_Ok in Hfifo. destruct Hfifo as (idx & s' & Hfifo & -> & ->).
  pose proof (clock_evict_step (length (entries (vmem s))) s victim e
                (wf_layout _ Hwf) (wf_pagefile _ Hwf) (wf_cursor _ Hwf) Hpe Href) as Hclock.
  apply returns_Ok in Hclock. destruct Hclock as (idx & s' & Hclock & -> & ->).
  eexists. split; [exact Hfifo|].
  unfold mmanage.find_remove_clock, bind, gets. by rewrite Hclock, Hfifo.
Qed.

Lemma not_visited_absent m s q e :
  wf_system s -> all_occupied (vmem s) ->
  zlookup (entries (vmem s)) q = Some e -> frame e = VOID_IDX ->
  ~ visited m s q.
Proof.
  intros Hwf Hocc He Hv (j & _ & Hj).
  destruct (zlookup_in_range (entries (vmem s)) q) as [e' He'];
    [by apply zlookup_Some_range in He|].
  by apply (resident_not_absent s q q e e (visit s j) Hwf Hj (Hocc _ _ Hj) He He Hv).
Qed.

(** No policy touches the entry of a page that is not resident. *)
Lemma find_remove_frame_keeps_absent s q e0 :
  wf_system s -> all_occupied (vmem s) ->
  zlookup (entries (vmem s)) q = Some e0 -> frame e0 = VOID_IDX ->
  returns mmanage.find_remove_frame s (fun _ s' =>
    zlookup (entries (vmem s')) q = Some e0).
Proof.
  intros Hwf Hocc He0 Hv0. pose proof nframes_pos.
  unfold mmanage.find_remove_frame. apply returns_bind, returns_gets.
  destruct (page_rep_algo (vmem s)).
  - pose proof (advance_range _ (wf_cursor _ Hwf)) as Hadv.
    destruct (occupied_page_in s _ Hwf Hocc Hadv) as (victim & e & Hpe & _).
    eapply returns_mono; [by apply (find_remove_fifo_spec s victim e)|].
    intros idx s' (-> & ->). simpl. rewrite zlookup_zinsert_ne; [done|].
    destruct Hpe as [Hvf Hve].
    by apply (resident_not_absent s victim q e e0 _ Hwf Hvf (Hocc _ _ Hvf)).
  - destruct (clock_first_clear s (Z.to_nat VMEM_NFRAMES) Hwf Hocc)
      as [(k & victim & e & Hk & Hbefore & Hpe & Hr)|Hall]; [lia| |].
    + destruct k as [|m]; [lia|].
      assert (~ visited m s victim) as Hnv.
      { intros (j & Hj & Hpj).
        destruct (occupied_page_in s (visit s j) Hwf Hocc) as (p' & e' & [Hp' He'] & _).
        { apply visit_range; [apply Hwf|lia]. }
        assert (p' = victim) as -> by congruence.
        apply (visit_inj s j (S m)); [apply Hwf|lia|lia|lia|].
        by apply (page_in_inj s _ _ victim e' e Hwf Hocc). }
      eapply returns_mono.
      { apply (clock_finish m s victim e e); try done; try lia.
        - intros j Hj. apply Hbefore. lia.
        - by left. }
      intros idx s' (-> & l & [Hlen Hl] & ->). simpl.
      destruct Hpe as [Hvf Hve].
      rewrite zlookup_zinsert_ne
        by (by apply (resident_not_absent s victim q e e0 _ Hwf Hvf (Hocc _ _ Hvf))).
      destruct (Hl q e0 He0) as (e1 & He1 & _ & _ & Hsame).
      rewrite He1, Hsame; [done|]. by apply (not_visited_absent m s q e0).
    + destruct (Hall 1%nat) as (victim & e & Hpe & Hr); [lia|].
      eapply returns_mono.
      { apply (clock_finish (Z.to_nat VMEM_NFRAMES) s victim e (ref_cleared e));
          try done; try lia.
        - rewrite visit_full_lap by apply Hwf. done.
        - right. split; [|done]. exists 1%nat. split; [lia|]. apply Hpe.
        - by apply ref_cleared_ref. }
      intros idx s' (-> & l & [Hlen Hl] & ->). simpl.
      destruct Hpe as [Hvf Hve].
      rewrite zlookup_zinsert_ne
        by (by apply (resident_not_absent s victim q e e0 _ Hwf Hvf (Hocc _ _ Hvf))).
      destruct (Hl q e0 He0) as (e1 & He1 & _ & _ & Hsame).
      rewrite He1, Hsame; [done|].
      by apply (not_visited_absent (Z.to_nat VMEM_NFRAMES) s q e0).
  - eapply returns_mono; [by apply find_remove_aging_spec|].
    intros idx s' (victim & e & Hi & [Hvf Hve] & _ & _ & ->). simpl.
    rewrite zlookup_zinsert_ne; [done|].
    by apply (resident_not_absent s victim q e e0 _ Hwf Hvf (Hocc _ _ Hvf)).
Qed.

(** The handler changes nothing in the entry of the requested page but the
    frame. *)
Lemma allocate_page_entry s er :
  wf_system s ->
  zlookup (entries (vmem s)) (req_pageno (vmem s)) = Some er -> frame er = VOID_IDX ->
  exists s' idx, mmanage.allocate_page s = Ok tt s' /\
    0 <= idx < VMEM_NFRAMES /\
    zlookup (entries (vmem s')) (req_pageno (vmem s)) = Some (set_frame idx er).
Proof.
  intros Hwf Her Hvoid.
  destruct (wf_layout _ Hwf) as (Hle & Hlf & Hld).
  pose proof (zlookup_Some_range _ _ _ Her) as Hreq.
  destruct (allocate_page_cases s er Hwf Her Hvoid) as (s' & Hrun & Hcase).
  destruct Hcase as [(idx & Hi & Hfree & Hleast & ->)
                    |(Hocc & idx & s1 & e1 & Hfind & Hev & He1 & Hv1 & ->)].
  - eexists _, idx. split; [exact Hrun|]. split; [done|]. simpl.
    by apply zlookup_zinsert_eq.
  - pose proof (find_remove_frame_keeps_absent (bump_pf_count s)
                  (req_pageno (vmem s)) er (wf_bump_pf_count _ Hwf) Hocc Her Hvoid) as Hk.
    unfold returns in Hk. rewrite Hfind in Hk.
    assert (e1 = er) as -> by congruence.
    destruct Hev as (victim & e & Hi & _ & _ & Hreq1 & _ & _ & _ & _ & _ & _ & Hlen & _).
    eexists _, idx. split; [exact Hrun|]. split; [done|]. simpl.
    rewrite Hreq1. simpl. rewrite zinsert_zinsert_eq.
    apply zlookup_zinsert_eq. lia.
Qed.

(** X16: after every access its page is resident and the two tables name each
    other. A page that was resident is in the frame it was in. Unless AGING is
    active, the entry is the old one with the flags of the access set and the
    frame filled in: a read sets REFERENCED, a write sets REFERENCED and
    DIRTY, and neither touches [count] or [age]. *)
Theorem accessed_page_is_resident op s s' e :
  wf_system s -> do_access op s = Ok tt s' ->
  zlookup (entries (vmem s)) (address_of op / VMEM_PAGESIZE) = Some e ->
  exists e', zlookup (entries (vmem s')) (address_of op / VMEM_PAGESIZE) = Some e' /\
    frame e' <> VOID_IDX /\
    zlookup (framepage (vmem s')) (frame e') = Some (address_of op / VMEM_PAGESIZE) /\
    (frame e <> VOID_IDX -> frame e' = frame e) /\
    (page_rep_algo (vmem s) <> VMEM_ALGO_AGING ->
       e' = set_frame (frame e') (set_flags (Z.lor (flags_of op) (flags e)) e)).
Proof.
  intros Hwf Hrun He. pose proof void_idx_neg.
  destruct (do_access_run op s s' Hwf Hrun)
    as (Hin & e0 & s2 & e2 & He0 & Hready & Hwf2 & He2 & Hf2 & Hwf1 & Haged).
  assert (e0 = e) as -> by congruence.
  set (p := address_of op / VMEM_PAGESIZE) in *.
  pose proof (zlookup_Some_range _ _ _ He) as Hp.
  pose proof (proj1 (proj2 Haged)) as Hwf'.
  assert ((frame e <> VOID_IDX -> frame e2 = frame e) /\
          e2 = set_frame (frame e2) (set_flags (Z.lor (flags_of op) (flags e)) e) /\
          page_rep_algo (vmem s2) = page_rep_algo (vmem s)) as (Hkeep & Hexact & Halgo).
  { unfold page_ready in Hready.
    destruct (decide (frame e = VOID_IDX)) as [Hv|Hv].
    - destruct Hready as (sf & idx & Halloc & Hserved & _ & ->).
      destruct (allocate_page_entry (emit EvKill (touch (flags_of op) p e s))
                  (set_flags (Z.lor (flags_of op) (flags e)) e))
        as (sf' & idx' & Halloc' & _ & Hentry).
      + by apply wf_emit, wf_touch.
      + simpl. by apply zlookup_zinsert_eq.
      + done.
      + rewrite Halloc in Halloc'. injection Halloc' as <-.
        simpl in Hentry, He2.
        assert (e2 = set_frame idx'
                       (set_flags (Z.lor (flags_of op) (flags e)) e)) as -> by congruence.
        split; [done|]. split; [done|].
        destruct Hserved as (_ & _ & _ & _ & _ & _ & _ & _ & Ha & _). exact Ha.
    - subst s2. simpl in He2. rewrite zlookup_zinsert_eq in He2 by done.
      injection He2 as <-. by destruct e. }
  destruct (aged_effect _ s' Hwf1 Haged) as (l & -> & _ & Hl).
  rewrite (proj1 (landed_tables op (frame e2) s2)) in Hl.
  destruct (Hl _ _ He2) as (e' & He' & Hf' & _ & Hsame).
  exists e'. split; [done|]. split; [congruence|]. split.
  { rewrite Hf'. pose proof (proj2 (wf_consistent _ Hwf2) _ e2 He2 Hf2) as Hback.
    simpl. by rewrite (proj2 (landed_tables op (frame e2) s2)). }
  split; [intros Hres; rewrite Hf'; by apply Hkeep|].
  intros Hna. rewrite Hsame, <- Hexact; [done|].
  replace (page_rep_algo (vmem (landed op (frame e2) s2)))
    with (page_rep_algo (vmem s)); [done|].
  rewrite <- Halgo. by destruct op.
Qed.

(** X17: frames are handed out in the order of their index: when the occupied
    frames are the first [k], an access to a resident page leaves it so, and an
    access to a page that is not resident takes frame [k], or, when [k] is the
    number of frames, one of the occupied frames. *)
Theorem frames_fill_in_order op s s' k e :
  wf_system s -> 0 <= k <= VMEM_NFRAMES -> filled k (vmem s) ->
  do_access op s = Ok tt s' ->
  zlookup (entries (vmem s)) (address_of op / VMEM_PAGESIZE) = Some e ->
  (frame e <> VOID_IDX -> framepage (vmem s') = framepage (vmem s)) /\
  (frame e = VOID_IDX -> k < VMEM_NFRAMES ->
     filled (k + 1) (vmem s') /\
     zlookup (framepage (vmem s')) k = Some (address_of op / VMEM_PAGESIZE)) /\
  (frame e = VOID_IDX -> k = VMEM_NFRAMES -> filled k (vmem s')).
Proof.
  intros Hwf Hk Hfill Hrun He. pose proof void_idx_neg.
  destruct (do_access_run op s s' Hwf Hrun)
    as (Hin & e0 & s2 & e2 & He0 & Hready & Hwf2 & He2 & Hf2 & Hwf1 & Haged).
  assert (e0 = e) as -> by congruence.
  set (p := address_of op / VMEM_PAGESIZE) in *.
  pose proof (zlookup_Some_range _ _ _ He) as Hp.
  destruct (wf_layout _ Hwf) as (_ & Hlf & _).
  destruct (aged_effect _ s' Hwf1 Haged) as (l & -> & _ & _).
  assert (framepage (vmem (upd_vmem (with_entries l) (landed op (frame e2) s2)))
          = framepage (vmem s2)) as Hfp'.
  { simpl. by rewrite (proj2 (landed_tables op (frame e2) s2)). }
  unfold filled, frame_free. rewrite Hfp'. clear Hfp'.
  unfold page_ready in Hready.
  destruct (decide (frame e = VOID_IDX)) as [Hv|Hv]; [|by subst s2].
  destruct Hready as (sf & idx & _ & (Hi & (Hfp & _) & _) & (_ & _ & Hcase) & ->).
  simpl in Hfp, Hcase. simpl. rewrite Hfp.
  split; [done|]. split.
  - intros _ Hkn.
    assert (idx = k) as ->.
    { destruct Hcase as [(Hfree & Hleast & _)|(Hocc & _)].
      - destruct (Z.lt_trichotomy idx k) as [Hlt|[Heq|Hgt]]; [|done|].
        + destruct (proj1 (Hfill idx Hi) Hlt) as (x & Hx & Hne).
          unfold frame_free in Hfree. simpl in Hfree. congruence.
        + exfalso. apply (Hleast k); [lia|]. apply (Hfill k); lia.
      - exfalso. apply (Hocc k VOID_IDX); [|done]. apply (Hfill k); lia. }
    split; [|apply zlookup_zinsert_eq; lia].
    intros i Hir. rewrite zlookup_zinsert. split.
    + intros Hlt. case_decide as Hd.
      * eexists. split; [done|]. lia.
      * apply (Hfill i Hir). lia.
    + intros Hge. rewrite decide_False by lia. apply (Hfill i Hir). lia.
  - intros _ ->. intros i Hir. rewrite zlookup_zinsert. split; [|lia].
    intros _. case_decide as Hd.
    + eexists. split; [done|]. lia.
    + apply (Hfill i Hir). lia.
Qed.

(** X18: the handler does not look whether the requested page is absent. A
    signal that arrives while the page is resident and a frame is free gives
    the page a second frame: both frames name the page, its entry names the new
    one only, the tables are no longer consistent, and the semaphore is left
    at one. *)
Theorem stray_signal_maps_page_twice s er idx :
  wf_system s ->
  zlookup (entries (vmem s)) (req_pageno (vmem s)) = Some er ->
  frame er <> VOID_IDX ->
  frame_free (vmem s) idx ->
  (forall j, 0 <= j < idx -> ~ frame_free (vmem s) j) ->
  exists s' er', mmanage.allocate_page s = Ok tt s' /\
    zlookup (framepage (vmem s')) idx = Some (req_pageno (vmem s)) /\
    zlookup (framepage (vmem s')) (frame er) = Some (req_pageno (vmem s)) /\
    zlookup (entries (vmem s')) (req_pageno (vmem s)) = Some er' /\
    frame er' = idx /\ idx <> frame er /\
    ~ consistent (vmem s') /\
    sem s' = 1.
Proof.
  intros Hwf Her Hres Hfree Hleast. pose proof void_idx_neg.
  destruct (wf_layout _ Hwf) as (Hle & Hlf & Hld).
  pose proof (zlookup_Some_range _ _ _ Her) as Hreq.
  pose proof (zlookup_Some_range _ _ _ Hfree) as Hi.
  pose proof (proj2 (wf_consistent _ Hwf) _ er Her Hres) as Hback.
  assert (idx <> frame er) as Hne.
  { intros ->. unfold frame_free in Hfree. rewrite Hback in Hfree.
    injection Hfree as Hfree. lia. }
  pose proof (allocate_page_free s idx er Hwf Her ltac:(lia) Hfree Hleast) as Hrun.
  apply returns_Ok in Hrun. destruct Hrun as ([] & s' & Hrun & ->).
  eexists _, (set_frame idx er). split; [exact Hrun|]. simpl.
  assert (zlookup (zinsert idx (req_pageno (vmem s)) (framepage (vmem s))) (frame er)
          = Some (req_pageno (vmem s))) as Hold by (by rewrite zlookup_zinsert_ne).
  assert (zlookup (zinsert (req_pageno (vmem s)) (set_frame idx er) (entries (vmem s)))
            (req_pageno (vmem s)) = Some (set_frame idx er)) as Hnew
    by (by apply zlookup_zinsert_eq).
  split; [apply zlookup_zinsert_eq; lia|]. split; [done|]. split; [done|].
  split; [done|]. split; [done|]. split; [|rewrite (wf_sem _ Hwf); done].
  intros [Hc _]. simpl in Hc.
  destruct (Hc (frame er) (req_pageno (vmem s)) Hold ltac:(lia)) as (e' & He' & Hf').
  rewrite Hnew in He'. injection He' as <-. simpl in Hf'. done.
Qed.

End policies.

(** ** The model at work: the sample configuration *)

Lemma sample_ok : vmem_h_ok sample_vmem_h.
Proof.
  split; simpl; try lia.
  - exists 3. by split.
  - exists 1. by split.
  - exists 2. by split.
Qed.

Lemma all_occupiedb_sound {h : vmem_h} m : all_occupiedb m = true -> all_occupied m.
Proof.
  unfold all_occupiedb. rewrite forallb_forall. intros Hall i p Hp.
  unfold zlookup in Hp. case_decide; [|done].
  apply list_elem_of_lookup_2, list_elem_of_In, Hall in Hp.
  by apply negb_true_iff, Z.eqb_neq in Hp.
Qed.

Lemma raw_layout : @layout sample_vmem_h (vmem (@raw_system sample_vmem_h 0 0)).
Proof. (split; [|split]; vm_compute; reflexivity). Qed.

Lemma raw_pagefile : Z.of_nat (length (pagefile (@raw_system sample_vmem_h 0 0))) = @VMEM_NPAGES sample_vmem_h * @VMEM_PAGESIZE sample_vmem_h.
Proof. (vm_compute; reflexivity). Qed.

Lemma raw_cursor : -1 <= fifo_current (@raw_system sample_vmem_h 0 0) < @VMEM_NFRAMES sample_vmem_h.
Proof. (split; vm_compute; congruence). Qed.

Lemma start_state_wf arg : @wf_system sample_vmem_h (start_state arg).
Proof.
  pose proof (@main_init_wf sample_vmem_h sample_ok 7 42 arg
                (@raw_system sample_vmem_h 0 0) raw_layout raw_pagefile raw_cursor) as Hinit.
  destruct (proj1 (returns_Ok _ _ _) Hinit) as ([] & s' & Hrun & Hwf & _).
  unfold start_state, booted, exec. rewrite Hrun. exact Hwf.
Qed.

Lemma run_wf ops s : @wf_system sample_vmem_h s -> @wf_system sample_vmem_h (run ops s).
Proof.
  intros Hwf. unfold run.
  destruct (do_accesses ops s) as [[] s'| | | |] eqn:Hrun; try exact Hwf.
  exact (@do_accesses_wf sample_vmem_h sample_ok ops s s' Hwf Hrun).
Qed.

Lemma full_state_wf algo : @wf_system sample_vmem_h (full_state algo).
Proof. unfold full_state. apply run_wf. apply start_state_wf. Qed.

Lemma full_state_occupied algo : @all_occupied sample_vmem_h (vmem (full_state algo)).
Proof. apply all_occupiedb_sound. (destruct algo; vm_compute; reflexivity). Qed.

#[local] Existing Instance sample_vmem_h.

Lemma pending_16_wf algo : wf_system (pending_16 algo).
Proof. unfold pending_16. apply (@wf_with_req_pageno sample_vmem_h). apply full_state_wf. Qed.

Lemma pending_16_pending algo : fault_pending (pending_16 algo).
Proof.
  exists (mk_pt_entry 0 (-1) 0 128). by destruct algo; split; vm_compute.
Qed.

Lemma pending_16_occupied algo : all_occupied (vmem (pending_16 algo)).
Proof. apply all_occupiedb_sound. by destruct algo; vm_compute. Qed.

Lemma start_state_pending : fault_pending (start_state None).
Proof. exists (mk_pt_entry 0 (-1) 0 128). by split; vm_compute. Qed.

Lemma fault_keeps_tables_consistent_witness :
  wf_system (pending_16 VMEM_ALGO_CLOCK) /\
  fault_pending (pending_16 VMEM_ALGO_CLOCK) /\
  exists s', mmanage.allocate_page (pending_16 VMEM_ALGO_CLOCK) = Ok tt s' /\
    (forall i p, zlookup (framepage (vmem s')) i = Some p -> p <> VOID_IDX ->
       (exists e, zlookup (entries (vmem s')) p = Some e /\ frame e = i) /\
       (forall q e, zlookup (entries (vmem s')) q = Some e -> frame e = i -> q = p)) /\
    (forall q1 q2 e1 e2,
       zlookup (entries (vmem s')) q1 = Some e1 ->
       zlookup (entries (vmem s')) q2 = Some e2 ->
       frame e1 <> VOID_IDX -> frame e1 = frame e2 -> q1 = q2).
Proof.
  pose proof (pending_16_wf VMEM_ALGO_CLOCK) as Hwf.
  pose proof (pending_16_pending VMEM_ALGO_CLOCK) as Hpend.
  split; [exact Hwf|]. split; [exact Hpend|].
  exact (@fault_keeps_tables_consistent sample_vmem_h sample_ok _ Hwf Hpend).
Defined.

Lemma fault_takes_lowest_free_frame_witness :
  wf_system (start_state None) /\
  fault_pending (start_state None) /\
  exists s' idx, mmanage.allocate_page (start_state None) = Ok tt s' /\
    pf_count (vmem s') = wrap_int (pf_count (vmem (start_state None)) + 1) /\
    zlookup (framepage (vmem s')) idx = Some (req_pageno (vmem (start_state None))) /\
    ((exists i, frame_free (vmem (start_state None)) i) ->
       frame_free (vmem (start_state None)) idx /\
       (forall j, 0 <= j < idx -> ~ frame_free (vmem (start_state None)) j) /\
       fifo_current s' = fifo_current (start_state None) /\
       next_alloc_idx (vmem s') = next_alloc_idx (vmem (start_state None)) /\
       (forall p, p <> req_pageno (vmem (start_state None)) ->
          zlookup (entries (vmem s')) p = zlookup (entries (vmem (start_state None))) p) /\
       data (vmem s') = data (vmem (start_state None)) /\
       pagefile s' = pagefile (start_state None) /\
       exists ev, trace s' = trace (start_state None) ++ [EvLog ev; EvPost (vmem s')]) /\
    ((forall i, ~ frame_free (vmem (start_state None)) i) ->
       exists s1,
         mmanage.find_remove_frame (bump_pf_count (start_state None)) = Ok idx s1 /\
         frame_cells (vmem s') idx =
         swap_cells s1 (req_pageno (vmem (start_state None))) /\
         exists ev, trace s' =
           trace s1 ++ [EvFetch (req_pageno (vmem (start_state None))); EvLog ev;
                        EvPost (vmem s')]).
Proof.
  pose proof (start_state_wf None) as Hwf.
  pose proof start_state_pending as Hpend.
  split; [exact Hwf|]. split; [exact Hpend|].
  exact (@fault_takes_lowest_free_frame sample_vmem_h sample_ok _ Hwf Hpend).
Defined.

Lemma eviction_writes_back_iff_dirty_witness :
  wf_system (pending_16 VMEM_ALGO_AGING) /\
  fault_pending (pending_16 VMEM_ALGO_AGING) /\
  all_occupied (vmem (pending_16 VMEM_ALGO_AGING)) /\
  exists s' idx victim e e',
    mmanage.allocate_page (pending_16 VMEM_ALGO_AGING) = Ok tt s' /\
    page_in (vmem (pending_16 VMEM_ALGO_AGING)) idx victim e /\
    (exists ev,
       trace s' = trace (pending_16 VMEM_ALGO_AGING) ++
         (if flag_set (flags e) PTF_DIRTY
          then [EvStore victim (frame_cells (vmem (pending_16 VMEM_ALGO_AGING)) idx)]
          else []) ++
         [EvFetch (req_pageno (vmem (pending_16 VMEM_ALGO_AGING))); EvLog ev;
          EvPost (vmem s')]) /\
    (if flag_set (flags e) PTF_DIRTY
     then swap_cells s' victim = frame_cells (vmem (pending_16 VMEM_ALGO_AGING)) idx
     else pagefile s' = pagefile (pending_16 VMEM_ALGO_AGING)) /\
    zlookup (entries (vmem s')) victim = Some e' /\
    frame e' = VOID_IDX /\
    zlookup (framepage (vmem s')) idx =
    Some (req_pageno (vmem (pending_16 VMEM_ALGO_AGING))).
Proof.
  pose proof (pending_16_wf VMEM_ALGO_AGING) as Hwf.
  pose proof (pending_16_pending VMEM_ALGO_AGING) as Hpend.
  pose proof (pending_16_occupied VMEM_ALGO_AGING) as Hocc.
  split; [exact Hwf|]. split; [exact Hpend|]. split; [exact Hocc|].
  exact (@eviction_writes_back_iff_dirty sample_vmem_h sample_ok _ Hwf Hpend Hocc).
Defined.

Lemma release_after_update_exactly_once_witness :
  wf_system (pending_16 VMEM_ALGO_FIFO) /\
  fault_pending (pending_16 VMEM_ALGO_FIFO) /\
  exists s' idx evs e',
    mmanage.allocate_page (pending_16 VMEM_ALGO_FIFO) = Ok tt s' /\
    sem s' = sem (pending_16 VMEM_ALGO_FIFO) + 1 /\
    trace s' = trace (pending_16 VMEM_ALGO_FIFO) ++ evs ++ [EvPost (vmem s')] /\
    (forall v, EvPost v ∉ evs) /\
    zlookup (framepage (vmem s')) idx =
    Some (req_pageno (vmem (pending_16 VMEM_ALGO_FIFO))) /\
    zlookup (entries (vmem s')) (req_pageno (vmem (pending_16 VMEM_ALGO_FIFO)))
    = Some e' /\
    frame e' = idx /\
    (all_occupied (vmem (pending_16 VMEM_ALGO_FIFO)) ->
       frame_cells (vmem s') idx =
       swap_cells s' (req_pageno (vmem (pending_16 VMEM_ALGO_FIFO)))).
Proof.
  pose proof (pending_16_wf VMEM_ALGO_FIFO) as Hwf.
  pose proof (pending_16_pending VMEM_ALGO_FIFO) as Hpend.
  split; [exact Hwf|]. split; [exact Hpend|].
  exact (@release_after_update_exactly_once sample_vmem_h sample_ok _ Hwf Hpend).
Defined.

Lemma aging_picks_last_youngest_witness :
  wf_system (full_state VMEM_ALGO_AGING) /\
  all_occupied (vmem (full_state VMEM_ALGO_AGING)) /\
  exists idx s' victim e e',
    mmanage.find_remove_aging (full_state VMEM_ALGO_AGING) = Ok idx s' /\
    0 <= idx < VMEM_NFRAMES /\
    page_in (vmem (full_state VMEM_ALGO_AGING)) idx victim e /\
    (forall j aj, 0 <= j < VMEM_NFRAMES ->
       age_in (vmem (full_state VMEM_ALGO_AGING)) j aj -> age e <= aj) /\
    (forall j aj, idx < j < VMEM_NFRAMES ->
       age_in (vmem (full_state VMEM_ALGO_AGING)) j aj -> age e < aj) /\
    zlookup (entries (vmem s')) victim = Some e' /\
    age e' = age initial_entry /\
    frame e' = VOID_IDX.
Proof.
  pose proof (full_state_wf VMEM_ALGO_AGING) as Hwf.
  pose proof (full_state_occupied VMEM_ALGO_AGING) as Hocc.
  split; [exact Hwf|]. split; [exact Hocc|].
  exact (@aging_picks_last_youngest sample_vmem_h sample_ok _ Hwf Hocc).
Defined.

Lemma second_lap_wf : wf_system second_lap.
Proof. unfold second_lap. apply run_wf. apply start_state_wf. Qed.

Lemma second_lap_occupied : all_occupied (vmem second_lap).
Proof. apply all_occupiedb_sound. by vm_compute. Qed.

Lemma second_chance_due_wf : wf_system second_chance_due.
Proof. unfold second_chance_due. apply run_wf. apply second_lap_wf. Qed.

Lemma second_chance_due_occupied : all_occupied (vmem second_chance_due).
Proof. apply all_occupiedb_sound. by vm_compute. Qed.

(** The cursor stands on frame 0. Frame 1 holds page 1, which is referenced:
    it is passed with its bit cleared and stays in its frame. Frame 2 holds
    page 2, which is not referenced: it is the victim, where FIFO would have
    taken frame 1. *)
Lemma clock_gives_second_chance_witness :
  wf_system second_chance_due /\
  all_occupied (vmem second_chance_due) /\
  visit second_chance_due 1 = 1 /\
  visit second_chance_due 2 = 2 /\
  page_in (vmem second_chance_due) (visit second_chance_due 1) 1
    (mk_pt_entry 4 1 0 128) /\
  flag_set (flags (mk_pt_entry 4 1 0 128)) PTF_REF = true /\
  page_in (vmem second_chance_due) (visit second_chance_due 2) 2
    (mk_pt_entry 0 2 0 128) /\
  flag_set (flags (mk_pt_entry 0 2 0 128)) PTF_REF = false /\
  exists s' e' e1,
    mmanage.find_remove_clock second_chance_due = Ok (visit second_chance_due 2) s' /\
    fifo_current s' = visit second_chance_due 2 /\
    zlookup (entries (vmem s')) 2 = Some e' /\
    frame e' = VOID_IDX /\
    zlookup (entries (vmem s')) 1 = Some e1 /\
    flag_set (flags e1) PTF_REF = false /\
    frame e1 = visit second_chance_due 1.
Proof.
  pose proof second_chance_due_wf as Hwf.
  pose proof second_chance_due_occupied as Hocc.
  assert (page_in (vmem second_chance_due) (visit second_chance_due 1) 1
            (mk_pt_entry 4 1 0 128)) as Hp1 by (split; vm_compute; reflexivity).
  assert (flag_set (flags (mk_pt_entry 4 1 0 128)) PTF_REF = true) as Hr1
    by (vm_compute; reflexivity).
  assert (page_in (vmem second_chance_due) (visit second_chance_due 2) 2
            (mk_pt_entry 0 2 0 128)) as Hp2 by (split; vm_compute; reflexivity).
  assert (flag_set (flags (mk_pt_entry 0 2 0 128)) PTF_REF = false) as Hr2
    by (vm_compute; reflexivity).
  split; [exact Hwf|]. split; [exact Hocc|].
  split; [vm_compute; reflexivity|]. split; [vm_compute; reflexivity|].
  split; [exact Hp1|]. split; [exact Hr1|]. split; [exact Hp2|]. split; [exact Hr2|].
  destruct (@clock_gives_second_chance sample_vmem_h sample_ok _ Hwf Hocc)
    as (_ & Hfirst & _).
  destruct (Hfirst 2%nat 2 (mk_pt_entry 0 2 0 128))
    as (s' & e' & Hrun & Hcur & He' & Hf' & Hpassed).
  - lia.
  - vm_compute. congruence.
  - intros j Hj. assert (j = 1%nat) as -> by lia.
    exists 1, (mk_pt_entry 4 1 0 128). split; [exact Hp1|exact Hr1].
  - exact Hp2.
  - exact Hr2.
  - destruct (Hpassed 1%nat) as (p & e0 & e1 & [Hfp _] & He1 & Hc1 & _ & Hf1); [lia|].
    assert (p = 1) as ->.
    { destruct Hp1 as [Hfp1 _]. rewrite Hfp1 in Hfp. by injection Hfp as <-. }
    exists s', e', e1.
    split; [exact Hrun|]. split; [exact Hcur|]. split; [exact He'|].
    split; [exact Hf'|]. split; [exact He1|]. split; [exact Hc1|exact Hf1].
Defined.

Lemma decay_due_wf : wf_system decay_due.
Proof.
  unfold decay_due.
  apply (@wf_with_g_count sample_vmem_h (full_state VMEM_ALGO_AGING) (fun _ => 20)).
  apply full_state_wf.
Qed.

Lemma aging_decay_pass_witness :
  wf_system decay_due /\
  exists l,
    vmaccess.update_age_reset_ref decay_due = Ok tt (upd_vmem (with_entries l) decay_due) /\
    length l = length (entries (vmem decay_due)).
Proof.
  pose proof decay_due_wf as Hwf.
  split; [exact Hwf|].
  destruct (@aging_decay_pass sample_vmem_h sample_ok _ Hwf) as (_ & Hpass & _).
  destruct Hpass as (l & Hrun & Hlen & _); [vm_compute; reflexivity|].
  exists l. by split.
Defined.

Lemma write_then_read_witness :
  wf_system (start_state None) /\
  0 <= 9 < VMEM_NPAGES * VMEM_PAGESIZE /\
  vmaccess.offset_of 9 = 9 mod VMEM_PAGESIZE /\
  vmaccess.page_index_of 9 = 9 / VMEM_PAGESIZE /\
  exists s1, vmaccess.vmem_write 9 77 (start_state None) = Ok tt s1 /\
    forall ops s2,
      run_keeping (vmaccess.page_index_of 9) 9 ops s1 = Some s2 ->
      exists s3, vmaccess.vmem_read 9 s2 = Ok 77 s3.
Proof.
  pose proof (start_state_wf None) as Hwf.
  assert (0 <= 9 < VMEM_NPAGES * VMEM_PAGESIZE) as Ha by (vm_compute; split; congruence).
  split; [exact Hwf|]. split; [exact Ha|].
  exact (@write_then_read sample_vmem_h sample_ok 9 77 _ Hwf Ha).
Defined.

(** C4, the claim as stated fails: after one read in each of the pages 0 to
    15 all sixteen frames hold pages of the same age, and AGING takes frame 15,
    not frame 0. *)
Lemma aging_tie_goes_to_highest_frame :
  map (age_of_frame (vmem (full_state VMEM_ALGO_AGING))) (seqZ 0 16)
  = replicate 16 (Some 128) /\
  exists s', mmanage.find_remove_aging (full_state VMEM_ALGO_AGING) = Ok 15 s'.
Proof.
  split; [vm_compute; reflexivity|].
  eexists. vm_compute. reflexivity.
Qed.

(** C7, the claim as stated fails: a write of 1 to address 9, then a write
    of 2 to the same address, which evicts nothing; the read returns 2. *)
Lemma overwritten_cell_reads_new_value :
  exists s1 s2 s3,
    vmaccess.vmem_write 9 1 (start_state None) = Ok tt s1 /\
    do_accesses [Write 9 2] s1 = Ok tt s2 /\
    resident (vmaccess.page_index_of 9) s1 = true /\
    resident (vmaccess.page_index_of 9) s2 = true /\
    vmaccess.vmem_read 9 s2 = Ok 2 s3.
Proof.
  eexists _, _, _.
  split; [vm_compute; reflexivity|].
  split; [vm_compute; reflexivity|].
  split; [vm_compute; reflexivity|].
  split; [vm_compute; reflexivity|].
  vm_compute. reflexivity.
Qed.

(** C8, the code at the failing input: with an address below or above the
    virtual memory [vmem_read] leaves through the bounds test, but only after
    it has stored the page number in the requested-page slot; [vmem_write]
    tests first and leaves the state as it was. *)
Theorem read_out_of_range_stores_page_number :
  req_pageno (vmem (start_state None)) = 0 /\
  (exists s', vmaccess.vmem_read (-1) (start_state None) = Exit s' /\
              req_pageno (vmem s') = -1) /\
  (exists s', vmaccess.vmem_read 1024 (start_state None) = Exit s' /\
              req_pageno (vmem s') = 128) /\
  vmaccess.vmem_write (-1) 7 (start_state None) = Exit (start_state None) /\
  vmaccess.vmem_write 1024 7 (start_state None) = Exit (start_state None).
Proof.
  split; [vm_compute; reflexivity|].
  split; [eexists; split; vm_compute; reflexivity|].
  split; [eexists; split; vm_compute; reflexivity|].
  split; vm_compute; reflexivity.
Qed.

(** C10, the code at the failing input: on a segment that exists already,
    with a fault counter of 5 and an access counter of 9, [vmem_init]
    initialises the page table, the frame table and the semaphore and leaves
    both counters as they are. *)
Theorem vmem_init_keeps_stale_counters :
  exists s', mmanage.vmem_init 7 42 (raw_system 5 9) = Ok tt s' /\
    pf_count (vmem s') = 5 /\
    g_count (vmem s') = 9 /\
    entries (vmem s') = replicate 128 initial_entry /\
    framepage (vmem s') = replicate 16 VOID_IDX /\
    sem s' = 0.
Proof.
  eexists. split; [vm_compute; reflexivity|].
  repeat split; vm_compute; reflexivity.
Qed.

(** ** Further properties at work *)

Lemma page_store_fetch_round_trip_witness :
  0 <= 3 < VMEM_NPAGES /\
  exists s1 s2,
    pagefile.store_page_to_pagefile 3 8 (start_state None) = Ok tt s1 /\
    pagefile.fetch_page_from_pagefile 3 16 s1 = Ok tt s2 /\
    window (data (vmem s2)) 16 = window (data (vmem (start_state None))) 8.
Proof.
  assert (0 <= 3 < VMEM_NPAGES) as Hp by (vm_compute; split; congruence).
  split; [exact Hp|].
  destruct (@page_store_fetch_round_trip sample_vmem_h sample_ok 3 8 16 (start_state None))
    as (s1 & s2 & Hst & Hfe & _ & Hw & _);
    [exact Hp|vm_compute; congruence|vm_compute; congruence|vm_compute; congruence
    |vm_compute; congruence|vm_compute; reflexivity|].
  exists s1, s2. split; [exact Hst|]. split; [exact Hfe|exact Hw].
Defined.

Lemma page_transfer_bounds_witness :
  ~ (0 <= 128 < VMEM_NPAGES) /\
  pagefile.store_page_to_pagefile 128 8 (start_state None) = Exit (start_state None) /\
  pagefile.fetch_page_from_pagefile 128 8 (start_state None) = Exit (start_state None).
Proof.
  assert (~ (0 <= 128 < VMEM_NPAGES)) as Hp by (intros [_ Hlt]; by vm_compute in Hlt).
  split; [exact Hp|].
  destruct (@page_transfer_bounds sample_vmem_h sample_ok 128 8 (start_state None))
    as [Hout _];
    [vm_compute; congruence|vm_compute; congruence|vm_compute; reflexivity|].
  exact (Hout Hp).
Defined.

Lemma page_transfer_is_local_witness :
  0 <= 3 < VMEM_NPAGES /\
  exists s', pagefile.store_page_to_pagefile 3 8 (start_state None) = Ok tt s' /\
    vmem s' = vmem (start_state None) /\
    length (pagefile s') = length (pagefile (start_state None)).
Proof.
  assert (0 <= 3 < VMEM_NPAGES) as Hp by (vm_compute; split; congruence).
  split; [exact Hp|].
  destruct (@page_transfer_is_local sample_vmem_h sample_ok 3 8 (start_state None))
    as [(s' & Hrun & Hv & Hl & _) _];
    [exact Hp|vm_compute; congruence|vm_compute; congruence|vm_compute; reflexivity|].
  exists s'. split; [exact Hrun|]. split; [exact Hv|exact Hl].
Defined.

Lemma find_free_frame_full_or_free_witness :
  Z.of_nat (length (framepage (vmem (pending_16 VMEM_ALGO_FIFO)))) = VMEM_NFRAMES /\
  exists idx s', mmanage.find_free_frame (pending_16 VMEM_ALGO_FIFO) = Ok idx s' /\
    (idx = VOID_IDX <-> all_occupied (vmem (pending_16 VMEM_ALGO_FIFO))).
Proof.
  assert (Z.of_nat (length (framepage (vmem (pending_16 VMEM_ALGO_FIFO)))) = VMEM_NFRAMES)
    as Hlf by (vm_compute; reflexivity).
  split; [exact Hlf|].
  destruct (@find_free_frame_full_or_free sample_vmem_h sample_ok _ Hlf)
    as (idx & s' & Hrun & _ & _ & _ & _ & _ & Hiff & _).
  exists idx, s'. split; [exact Hrun|exact Hiff].
Defined.

Lemma fifo_takes_next_frame_witness :
  wf_system (pending_16 VMEM_ALGO_FIFO) /\
  fault_pending (pending_16 VMEM_ALGO_FIFO) /\
  all_occupied (vmem (pending_16 VMEM_ALGO_FIFO)) /\
  page_rep_algo (vmem (pending_16 VMEM_ALGO_FIFO)) = VMEM_ALGO_FIFO /\
  exists s', mmanage.allocate_page (pending_16 VMEM_ALGO_FIFO) = Ok tt s' /\
    fifo_current s' = (fifo_current (pending_16 VMEM_ALGO_FIFO) + 1) mod VMEM_NFRAMES.
Proof.
  pose proof (pending_16_wf VMEM_ALGO_FIFO) as Hwf.
  pose proof (pending_16_pending VMEM_ALGO_FIFO) as Hpend.
  pose proof (pending_16_occupied VMEM_ALGO_FIFO) as Hocc.
  assert (page_rep_algo (vmem (pending_16 VMEM_ALGO_FIFO)) = VMEM_ALGO_FIFO) as Halgo
    by (vm_compute; reflexivity).
  split; [exact Hwf|]. split; [exact Hpend|]. split; [exact Hocc|]. split; [exact Halgo|].
  destruct (@fifo_takes_next_frame sample_vmem_h sample_ok _ Hwf Hpend Hocc Halgo)
    as (s' & victim & e & e' & Hrun & _ & Hcur & _).
  exists s'. split; [exact Hrun|exact Hcur].
Defined.

Lemma fault_is_logged_witness :
  wf_system (pending_16 VMEM_ALGO_CLOCK) /\
  fault_pending (pending_16 VMEM_ALGO_CLOCK) /\
  exists s' evs ev,
    mmanage.allocate_page (pending_16 VMEM_ALGO_CLOCK) = Ok tt s' /\
    trace s' = trace (pending_16 VMEM_ALGO_CLOCK) ++ evs ++ [EvLog ev; EvPost (vmem s')] /\
    ev_req_pageno ev = req_pageno (vmem (pending_16 VMEM_ALGO_CLOCK)).
Proof.
  pose proof (pending_16_wf VMEM_ALGO_CLOCK) as Hwf.
  pose proof (pending_16_pending VMEM_ALGO_CLOCK) as Hpend.
  split; [exact Hwf|]. split; [exact Hpend|].
  destruct (@fault_is_logged sample_vmem_h sample_ok _ Hwf Hpend)
    as (s' & evs & ev & Hrun & Htr & _ & Hreq & _).
  exists s', evs, ev. split; [exact Hrun|]. split; [exact Htr|exact Hreq].
Defined.

(** The value 77 is written to address 9, in page 1; the sweep evicts page 1
    on the way, and the read brings it back from the page file. *)
Lemma written_value_survives_witness :
  wf_system (start_state None) /\ in_range 9 /\
  Forall (fun op => in_range (address_of op) /\ writes_to 9 op = false) sweep /\
  exists s1 s2 s3,
    vmaccess.vmem_write 9 77 (start_state None) = Ok tt s1 /\
    do_accesses sweep s1 = Ok tt s2 /\
    resident 1 s1 = true /\
    resident 1 s2 = false /\
    vmaccess.vmem_read 9 s2 = Ok 77 s3.
Proof.
  pose proof (start_state_wf None) as Hwf.
  assert (in_range 9) as Ha by (vm_compute; split; congruence).
  assert (Forall (fun op => in_range (address_of op) /\ writes_to 9 op = false) sweep)
    as Hops.
  { unfold sweep. simpl. repeat constructor; vm_compute; congruence. }
  split; [exact Hwf|]. split; [exact Ha|]. split; [exact Hops|].
  destruct (@written_value_survives sample_vmem_h sample_ok 9 77 _ _ Hwf Ha Hops)
    as (s1 & s2 & s3 & Hwr & Hrun & Hrd).
  assert (vmaccess.vmem_write 9 77 (start_state None)
          = Ok tt (run [Write 9 77] (start_state None))) as Hwr'
    by (vm_compute; reflexivity).
  assert (do_accesses sweep (run [Write 9 77] (start_state None))
          = Ok tt (run sweep (run [Write 9 77] (start_state None)))) as Hrun'
    by (vm_compute; reflexivity).
  assert (s1 = run [Write 9 77] (start_state None)) as Hs1 by congruence.
  assert (s2 = run sweep (run [Write 9 77] (start_state None))) as Hs2.
  { rewrite Hs1 in Hrun. congruence. }
  exists s1, s2, s3.
  split; [exact Hwr|]. split; [exact Hrun|].
  split; [rewrite Hs1; vm_compute; reflexivity|].
  split; [rewrite Hs2; vm_compute; reflexivity|exact Hrd].
Defined.

Lemma accesses_in_range_return_witness :
  layout (vmem (raw_system 0 0)) /\
  Forall (fun op => in_range (address_of op)) [Read 0; Write 9 1] /\
  exists s0 s',
    mmanage.main_init 7 42 None (raw_system 0 0) = Ok tt s0 /\
    do_accesses [Read 0; Write 9 1] s0 = Ok tt s' /\
    wf_system s'.
Proof.
  assert (Forall (fun op => in_range (address_of op)) [Read 0; Write 9 1]) as Hops.
  { repeat constructor; vm_compute; congruence. }
  split; [exact raw_layout|]. split; [exact Hops|].
  exact (@accesses_in_range_return sample_vmem_h sample_ok 7 42 None _ _
           raw_layout raw_pagefile raw_cursor Hops).
Defined.

Lemma dirty_flag_is_never_cleared_witness :
  wf_system (start_state None) /\
  do_access (Write 9 1) (start_state None) = Ok tt (run [Write 9 1] (start_state None)) /\
  exists e', zlookup (entries (vmem (run [Write 9 1] (start_state None)))) 1 = Some e' /\
    flag_set (flags e') PTF_DIRTY = true.
Proof.
  pose proof (start_state_wf None) as Hwf.
  assert (do_access (Write 9 1) (start_state None)
          = Ok tt (run [Write 9 1] (start_state None))) as Hrun
    by (vm_compute; reflexivity).
  split; [exact Hwf|]. split; [exact Hrun|].
  destruct (@dirty_flag_is_never_cleared sample_vmem_h sample_ok _ _ _ Hwf Hrun 1
              (mk_pt_entry 0 (-1) 0 128)) as (e' & He' & Hd); [vm_compute; reflexivity|].
  exists e'. split; [exact He'|]. rewrite Hd. vm_compute. reflexivity.
Defined.

Lemma frames_are_never_freed_witness :
  wf_system (full_state VMEM_ALGO_FIFO) /\
  do_accesses [Read 200] (full_state VMEM_ALGO_FIFO)
  = Ok tt (run [Read 200] (full_state VMEM_ALGO_FIFO)) /\
  exists p', zlookup (framepage (vmem (run [Read 200] (full_state VMEM_ALGO_FIFO)))) 0
             = Some p' /\ p' <> VOID_IDX.
Proof.
  pose proof (full_state_wf VMEM_ALGO_FIFO) as Hwf.
  assert (do_accesses [Read 200] (full_state VMEM_ALGO_FIFO)
          = Ok tt (run [Read 200] (full_state VMEM_ALGO_FIFO))) as Hrun
    by (vm_compute; reflexivity).
  split; [exact Hwf|]. split; [exact Hrun|].
  apply (@frames_are_never_freed sample_vmem_h sample_ok _ _ _ Hwf Hrun 0 0).
  - vm_compute. reflexivity.
  - vm_compute. congruence.
Defined.

Lemma resident_access_leaves_manager_idle_witness :
  wf_system (full_state VMEM_ALGO_FIFO) /\ in_range 3 /\
  zlookup (entries (vmem (full_state VMEM_ALGO_FIFO))) (3 / VMEM_PAGESIZE)
  = Some (mk_pt_entry 4 0 0 128) /\
  exists v s', vmaccess.vmem_read 3 (full_state VMEM_ALGO_FIFO) = Ok v s' /\
    manager_idle (full_state VMEM_ALGO_FIFO) s'.
Proof.
  pose proof (full_state_wf VMEM_ALGO_FIFO) as Hwf.
  assert (in_range 3) as Ha by (vm_compute; split; congruence).
  assert (zlookup (entries (vmem (full_state VMEM_ALGO_FIFO))) (3 / VMEM_PAGESIZE)
          = Some (mk_pt_entry 4 0 0 128)) as He by (vm_compute; reflexivity).
  split; [exact Hwf|]. split; [exact Ha|]. split; [exact He|].
  destruct (@resident_access_leaves_manager_idle sample_vmem_h sample_ok 3 _ _ Hwf Ha He)
    as [(v & s' & Hrun & _ & Hidle & _) _]; [vm_compute; congruence|].
  exists v, s'. split; [exact Hrun|exact Hidle].
Defined.

Lemma absent_access_one_handshake_witness :
  wf_system (start_state None) /\ in_range (address_of (Read 9)) /\
  zlookup (entries (vmem (start_state None))) (address_of (Read 9) / VMEM_PAGESIZE)
  = Some (mk_pt_entry 0 (-1) 0 128) /\
  exists s' evs m,
    do_access (Read 9) (start_state None) = Ok tt s' /\
    trace s' = trace (start_state None) ++ EvKill :: evs ++ [EvPost m; EvWait] /\
    sem s' = 0.
Proof.
  pose proof (start_state_wf None) as Hwf.
  assert (in_range (address_of (Read 9))) as Ha by (vm_compute; split; congruence).
  assert (zlookup (entries (vmem (start_state None))) (address_of (Read 9) / VMEM_PAGESIZE)
          = Some (mk_pt_entry 0 (-1) 0 128)) as He by (vm_compute; reflexivity).
  split; [exact Hwf|]. split; [exact Ha|]. split; [exact He|].
  destruct (@absent_access_one_handshake sample_vmem_h sample_ok (Read 9) _ _ Hwf Ha He)
    as (s' & evs & m & em & Hrun & Htr & _ & _ & Hsem & _); [vm_compute; reflexivity|].
  exists s', evs, m. split; [exact Hrun|]. split; [exact Htr|exact Hsem].
Defined.

Lemma faulting_read_returns_witness :
  wf_system (pending_16 VMEM_ALGO_FIFO) /\ in_range 130 /\
  zlookup (entries (vmem (pending_16 VMEM_ALGO_FIFO))) (130 / VMEM_PAGESIZE)
  = Some (mk_pt_entry 0 (-1) 0 128) /\
  all_occupied (vmem (pending_16 VMEM_ALGO_FIFO)) /\
  exists v s', vmaccess.vmem_read 130 (pending_16 VMEM_ALGO_FIFO) = Ok v s' /\
    zlookup (pagefile (pending_16 VMEM_ALGO_FIFO)) 130 = Some v.
Proof.
  pose proof (pending_16_wf VMEM_ALGO_FIFO) as Hwf.
  pose proof (pending_16_occupied VMEM_ALGO_FIFO) as Hocc.
  assert (in_range 130) as Ha by (vm_compute; split; congruence).
  assert (zlookup (entries (vmem (pending_16 VMEM_ALGO_FIFO))) (130 / VMEM_PAGESIZE)
          = Some (mk_pt_entry 0 (-1) 0 128)) as He by (vm_compute; reflexivity).
  split; [exact Hwf|]. split; [exact Ha|]. split; [exact He|]. split; [exact Hocc|].
  destruct (@faulting_read_returns sample_vmem_h sample_ok 130 _ _ Hwf Ha He)
    as (v & s' & Hrun & _ & Hfile); [vm_compute; reflexivity|].
  exists v, s'. split; [exact Hrun|]. exact (Hfile Hocc).
Defined.

Lemma after_decay_wf : wf_system after_decay.
Proof.
  unfold after_decay.
  apply (@wf_with_g_count sample_vmem_h _ (fun _ => 40)).
  apply run_wf. apply start_state_wf.
Qed.

Lemma after_decay_occupied : all_occupied (vmem after_decay).
Proof. apply all_occupiedb_sound. by vm_compute. Qed.

Lemma aging_spares_referenced_witness :
  wf_system after_decay /\ all_occupied (vmem after_decay) /\
  Z.rem (g_count (vmem after_decay)) UPDATE_AGE_COUNT = 0 /\
  page_in (vmem after_decay) 0 0 (mk_pt_entry 0 0 0 192) /\
  exists s1 idx s2 victim e,
    vmaccess.update_age_reset_ref after_decay = Ok tt s1 /\
    mmanage.find_remove_aging s1 = Ok idx s2 /\
    page_in (vmem after_decay) idx victim e /\
    flag_set (flags e) PTF_REF = false.
Proof.
  pose proof after_decay_wf as Hwf.
  pose proof after_decay_occupied as Hocc.
  assert (Z.rem (g_count (vmem after_decay)) UPDATE_AGE_COUNT = 0) as Hrem
    by (vm_compute; reflexivity).
  assert (page_in (vmem after_decay) 0 0 (mk_pt_entry 0 0 0 192)) as Hpe
    by (split; vm_compute; reflexivity).
  split; [exact Hwf|]. split; [exact Hocc|]. split; [exact Hrem|]. split; [exact Hpe|].
  apply (@aging_spares_referenced sample_vmem_h sample_ok _ Hwf Hocc Hrem).
  exists 0, 0, (mk_pt_entry 0 0 0 192). split; [exact Hpe|]. vm_compute. reflexivity.
Defined.

Lemma clock_is_fifo_without_reference_witness :
  wf_system second_lap /\
  page_in (vmem second_lap) ((fifo_current second_lap + 1) mod VMEM_NFRAMES) 1
    (mk_pt_entry 0 1 0 128) /\
  exists s', mmanage.find_remove_fifo second_lap = Ok 1 s' /\
    mmanage.find_remove_clock second_lap = mmanage.find_remove_fifo second_lap.
Proof.
  pose proof second_lap_wf as Hwf.
  assert (page_in (vmem second_lap) ((fifo_current second_lap + 1) mod VMEM_NFRAMES) 1
            (mk_pt_entry 0 1 0 128)) as Hpe by (split; vm_compute; reflexivity).
  split; [exact Hwf|]. split; [exact Hpe|].
  destruct (@clock_is_fifo_without_reference sample_vmem_h sample_ok _ _ _ Hwf Hpe)
    as (s' & Hfifo & Heq); [vm_compute; reflexivity|].
  exists s'. split; [exact Hfifo|exact Heq].
Defined.

Lemma accessed_page_is_resident_witness :
  wf_system (start_state None) /\
  do_access (Write 9 1) (start_state None) = Ok tt (run [Write 9 1] (start_state None)) /\
  exists e',
    zlookup (entries (vmem (run [Write 9 1] (start_state None))))
      (address_of (Write 9 1) / VMEM_PAGESIZE) = Some e' /\
    frame e' <> VOID_IDX.
Proof.
  pose proof (start_state_wf None) as Hwf.
  assert (do_access (Write 9 1) (start_state None)
          = Ok tt (run [Write 9 1] (start_state None))) as Hrun
    by (vm_compute; reflexivity).
  split; [exact Hwf|]. split; [exact Hrun|].
  destruct (@accessed_page_is_resident sample_vmem_h sample_ok (Write 9 1) _ _
              (mk_pt_entry 0 (-1) 0 128) Hwf Hrun)
    as (e' & He' & Hf' & _); [vm_compute; reflexivity|].
  exists e'. split; [exact He'|exact Hf'].
Defined.

Lemma start_state_filled : filled 0 (vmem (start_state None)).
Proof.
  intros i Hi. split; [lia|]. intros _. unfold frame_free.
  assert (framepage (vmem (start_state None)) = replicate 16 (-1)) as ->
    by (vm_compute; reflexivity).
  change VMEM_NFRAMES with 16 in Hi. change VOID_IDX with (-1).
  unfold zlookup. rewrite decide_True by lia. apply lookup_replicate_2. lia.
Qed.

Lemma frames_fill_in_order_witness :
  wf_system (start_state None) /\ 0 <= 0 <= VMEM_NFRAMES /\
  filled 0 (vmem (start_state None)) /\
  do_access (Read 200) (start_state None) = Ok tt (run [Read 200] (start_state None)) /\
  zlookup (framepage (vmem (run [Read 200] (start_state None)))) 0
  = Some (address_of (Read 200) / VMEM_PAGESIZE).
Proof.
  pose proof (start_state_wf None) as Hwf.
  assert (0 <= 0 <= VMEM_NFRAMES) as Hk by (vm_compute; split; congruence).
  assert (do_access (Read 200) (start_state None)
          = Ok tt (run [Read 200] (start_state None))) as Hrun
    by (vm_compute; reflexivity).
  split; [exact Hwf|]. split; [exact Hk|]. split; [exact start_state_filled|].
  split; [exact Hrun|].
  destruct (@frames_fill_in_order sample_vmem_h sample_ok (Read 200) _ _ 0
              (mk_pt_entry 0 (-1) 0 128) Hwf Hk start_state_filled Hrun)
    as (_ & Hnext & _); [vm_compute; reflexivity|].
  destruct Hnext as [_ Hk0]; [vm_compute; reflexivity|vm_compute; reflexivity|].
  exact Hk0.
Defined.

Lemma one_page_wf : wf_system one_page.
Proof. unfold one_page. apply run_wf. apply start_state_wf. Qed.

Lemma stray_signal_maps_page_twice_witness :
  wf_system one_page /\
  zlookup (entries (vmem one_page)) (req_pageno (vmem one_page))
  = Some (mk_pt_entry 4 0 0 128) /\
  frame_free (vmem one_page) 1 /\
  exists s', mmanage.allocate_page one_page = Ok tt s' /\
    ~ consistent (vmem s') /\ sem s' = 1.
Proof.
  pose proof one_page_wf as Hwf.
  assert (zlookup (entries (vmem one_page)) (req_pageno (vmem one_page))
          = Some (mk_pt_entry 4 0 0 128)) as Her by (vm_compute; reflexivity).
  assert (frame_free (vmem one_page) 1) as Hfree by (vm_compute; reflexivity).
  split; [exact Hwf|]. split; [exact Her|]. split; [exact Hfree|].
  destruct (@stray_signal_maps_page_twice sample_vmem_h sample_ok _ _ 1 Hwf Her)
    as (s' & er' & Hrun & _ & _ & _ & _ & _ & Hbad & Hsem).
  - vm_compute. congruence.
  - exact Hfree.
  - intros j Hj Hfj. assert (j = 0) as -> by lia. vm_compute in Hfj. congruence.
  - exists s'. split; [exact Hrun|]. split; [exact Hbad|exact Hsem].
Defined.
